(** * director4-docs: the local documentation server ([local-server.py])

    A shallow embedding of the document resolution and rendering pipeline:
    the path resolver [load_doc_page], and the markdown tree processor
    [LinkRewritingTreeProcessor.handle_element] that rewrites internal
    links.  Python strings are sequences of characters ([str]); calls that
    may raise return a [result]; the file system, the markdown parser,
    the HTML cleaner and the table-driven checks of [urllib] are the
    environment of the program and appear as classes of operations. *)

From Stdlib Require Import List Bool Arith Lia Ascii String.
Import ListNotations.

(** ** Python values *)

(** A Python [str]: a sequence of characters. String literals are read
    through [lit]. *)
Definition str := list ascii.

Definition lit (s : string) : str := list_ascii_of_string s.
Coercion lit : string >-> str.

Local Open Scope string_scope.
Local Open Scope list_scope.
Local Abbreviation length := List.length.

(** Exceptions that the modelled code can raise. *)
Inductive exn : Type :=
| ValueError (msg : string)
| IndexError
| OSError (path : str).

(** The result of a call that either returns or raises. *)
Inductive result (A : Type) : Type :=
| Ok (a : A)
| Raise (e : exn).
Arguments Ok {A} a.
Arguments Raise {A} e.

Definition bind {A B} (m : result A) (k : A -> result B) : result B :=
  match m with
  | Ok a => k a
  | Raise e => Raise e
  end.

Notation "x <- m ;; k" := (bind m (fun x => k))
  (at level 61, m at next level, right associativity).
Notation "' pat <- m ;; k" := (bind m (fun x => match x with pat => k end))
  (at level 61, pat pattern, m at next level, right associativity).

(** ** String primitives ([str] methods of Python) *)

Definition chr_eqb (a b : ascii) : bool := Ascii.eqb a b.

Fixpoint str_eqb (s t : str) : bool :=
  match s, t with
  | [], [] => true
  | a :: s', b :: t' => chr_eqb a b && str_eqb s' t'
  | _, _ => false
  end.

(** [c in s] for a character [c]. *)
Definition contains (c : ascii) (s : str) : bool := existsb (chr_eqb c) s.

(** [s.startswith(p)] *)
Fixpoint startswith (p s : str) : bool :=
  match p, s with
  | [], _ => true
  | a :: p', b :: s' => chr_eqb a b && startswith p' s'
  | _ :: _, [] => false
  end.

(** [s.endswith(p)] *)
Definition endswith (p s : str) : bool :=
  (length p <=? length s)%nat && str_eqb (skipn (length s - length p) s) p.

(** [s.split(c)] for a one-character separator: never empty, and [""]
    splits into [[""]]. *)
Fixpoint split (c : ascii) (s : str) : list str :=
  match s with
  | [] => [[]]
  | a :: s' =>
      if chr_eqb a c then [] :: split c s'
      else match split c s' with
           | w :: ws => (a :: w) :: ws
           | [] => [[a]]
           end
  end.

(** [sep.join(parts)] *)
Fixpoint str_join (sep : str) (parts : list str) : str :=
  match parts with
  | [] => []
  | [w] => w
  | w :: ws => w ++ sep ++ str_join sep ws
  end.

(** [s.rstrip(chars)] and [s.lstrip(chars)], [chars] given as a test. *)
Fixpoint rstrip_by (f : ascii -> bool) (s : str) : str :=
  match s with
  | [] => []
  | a :: s' =>
      match rstrip_by f s' with
      | [] => if f a then [] else [a]
      | r => a :: r
      end
  end.

Definition rstrip (c : ascii) (s : str) : str := rstrip_by (chr_eqb c) s.

Fixpoint lstrip_by (f : ascii -> bool) (s : str) : str :=
  match s with
  | [] => []
  | a :: s' => if f a then lstrip_by f s' else s
  end.

(** [s[:-n]] *)
Definition drop_last (n : nat) (s : str) : str := firstn (length s - n) s.

(** [s.find(c)]: [None] stands for [-1]. *)
Fixpoint find (c : ascii) (s : str) : option nat :=
  match s with
  | [] => None
  | a :: s' => if chr_eqb a c then Some 0 else option_map S (find c s')
  end.

(** [s.find(c, start)] as an absolute index. *)
Definition find_from (c : ascii) (start : nat) (s : str) : option nat :=
  option_map (fun i => start + i) (find c (skipn start s)).

(** [s.rfind(c) + 1]: the index just after the last [c], [0] if none. *)
Fixpoint rfind_succ (c : ascii) (s : str) : nat :=
  match s with
  | [] => 0
  | a :: s' =>
      match rfind_succ c s' with
      | 0 => if chr_eqb a c then 1 else 0
      | S i => S (S i)
      end
  end.

(** [s.split(c, 1)] when [c in s]: the text before and after the first [c]. *)
Fixpoint split_once (c : ascii) (s : str) : str * str :=
  match s with
  | [] => ([], [])
  | a :: s' =>
      if chr_eqb a c then ([], s')
      else let (u, v) := split_once c s' in (a :: u, v)
  end.

(** [s.replace(c, "")] *)
Definition remove_char (c : ascii) (s : str) : str :=
  filter (fun a => negb (chr_eqb a c)) s.

(** Comparison of strings, by code point, and of lists of strings, as
    Python orders them. *)
Fixpoint str_ltb (s t : str) : bool :=
  match s, t with
  | _, [] => false
  | [], _ :: _ => true
  | a :: s', b :: t' =>
      if chr_eqb a b then str_ltb s' t'
      else (nat_of_ascii a <? nat_of_ascii b)%nat
  end.

Fixpoint strs_ltb (l m : list str) : bool :=
  match l, m with
  | _, [] => false
  | [], _ :: _ => true
  | a :: l', b :: m' =>
      if str_eqb a b then strs_ltb l' m' else str_ltb a b
  end.

Fixpoint strs_eqb (l m : list str) : bool :=
  match l, m with
  | [], [] => true
  | a :: l', b :: m' => str_eqb a b && strs_eqb l' m'
  | _, _ => false
  end.

Definition is_empty (s : str) : bool :=
  match s with [] => true | _ => false end.

(** ** [os.path] (posixpath) *)

Module os_path.

(** [os.path.join(a, b)] *)
Definition join (a b : str) : str :=
  if startswith "/" b then b
  else if is_empty a || endswith "/" a then a ++ b
  else a ++ lit "/" ++ b.

(** [os.path.basename(p)]: [p[p.rfind("/") + 1:]] *)
Definition basename (p : str) : str := skipn (rfind_succ "/" p) p.

(** One round of the loop of [normpath] over the components. *)
Definition normpath_step (initial_slashes : nat) (new_comps : list str)
    (comp : str) : list str :=
  if str_eqb comp "" || str_eqb comp "." then new_comps
  else if negb (str_eqb comp "..")
          || ((initial_slashes =? 0)%nat && strs_eqb new_comps [])
          || (negb (strs_eqb new_comps []) && str_eqb (last new_comps (lit "")) "..")
       then new_comps ++ [comp]
       else removelast new_comps.

(** [os.path.normpath(path)] *)
Definition normpath (path : str) : str :=
  if str_eqb path "" then "."
  else
    let initial_slashes :=
      if startswith "/" path then
        if startswith "//" path && negb (startswith "///" path) then 2
        else 1
      else 0 in
    let comps := split "/" path in
    let new_comps := fold_left (normpath_step initial_slashes) comps [] in
    let path := str_join "/" new_comps in
    let path := repeat "/"%char initial_slashes ++ path in
    if is_empty path then "." else path.

(** The components [commonpath] compares: [[c for c in s if c and c != "."]]. *)
Definition components (p : str) : list str :=
  filter (fun c => negb (is_empty c) && negb (str_eqb c ".")) (split "/" p).

(** [min] and [max] of a non-empty list of component lists: the first
    least, the first greatest. *)
Definition min_of (first : list str) (others : list (list str)) : list str :=
  fold_left (fun m x => if strs_ltb x m then x else m) others first.

Definition max_of (first : list str) (others : list (list str)) : list str :=
  fold_left (fun m x => if strs_ltb m x then x else m) others first.

(** The loop [for i, c in enumerate(s1): if c != s2[i]: common = s1[:i]; break];
    [s2[i]] raises [IndexError] past the end of [s2]. *)
Fixpoint common_loop (s1 s2 : list str) : result (list str) :=
  match s1 with
  | [] => Ok []
  | c :: s1' =>
      match s2 with
      | [] => Raise IndexError
      | d :: s2' =>
          if str_eqb c d then (r <- common_loop s1' s2' ;; Ok (c :: r))
          else Ok []
      end
  end.

(** [os.path.commonpath(paths)] *)
Definition commonpath (paths : list str) : result str :=
  match paths with
  | [] => Raise (ValueError "commonpath() arg is an empty sequence")
  | p0 :: ps =>
      let isabs := startswith "/" p0 in
      if forallb (fun p => Bool.eqb (startswith "/" p) isabs) ps then
        match map components paths with
        | [] => Raise (ValueError "commonpath() arg is an empty sequence")
        | sp0 :: sps =>
            let s1 := min_of sp0 sps in
            let s2 := max_of sp0 sps in
            common <- common_loop s1 s2 ;;
            let prefix : str := if isabs then "/" else "" in
            Ok (prefix ++ str_join "/" common)
        end
      else Raise (ValueError "Can't mix absolute and relative paths")
  end.

End os_path.

(** ** [urllib.parse] (CPython 3.11) *)

(** A [SplitResult]: the five components of a URL. *)
Record SplitResult : Type := mkSplitResult {
  scheme : str;
  netloc : str;
  path : str;
  query : str;
  fragment : str
}.

(** The two checks of [urlsplit] that only concern a non-empty authority
    and depend on tables outside this program: the bracketed-host check
    ([_check_bracketed_netloc], IPv6 and IPvFuture literals) and the NFKC
    normalisation check of a non-ASCII authority ([_checknetloc]).  Each
    answers whether the check passes. *)
Class Urllib : Type := {
  check_bracketed_netloc : str -> bool;
  nfkc_netloc_ok : str -> bool
}.

Module urllib_parse.

Definition uses_netloc : list str :=
  [lit ""; lit "ftp"; lit "http"; lit "gopher"; lit "nntp"; lit "telnet";
   lit "imap"; lit "wais"; lit "file"; lit "mms"; lit "https"; lit "shttp";
   lit "snews"; lit "prospero"; lit "rtsp"; lit "rtspu"; lit "rsync";
   lit "svn"; lit "svn+ssh"; lit "sftp"; lit "nfs"; lit "git"; lit "git+ssh";
   lit "ws"; lit "wss"].

Definition code (a : ascii) : nat := nat_of_ascii a.

Definition is_upper (a : ascii) : bool := (65 <=? code a)%nat && (code a <=? 90)%nat.
Definition is_lower (a : ascii) : bool := (97 <=? code a)%nat && (code a <=? 122)%nat.
Definition is_digit (a : ascii) : bool := (48 <=? code a)%nat && (code a <=? 57)%nat.

(** [c.isascii() and c.isalpha()] *)
Definition is_ascii_alpha (a : ascii) : bool := is_upper a || is_lower a.

(** [c in scheme_chars] *)
Definition is_scheme_char (a : ascii) : bool :=
  is_ascii_alpha a || is_digit a || contains a "+-.".

(** [s.lower()] on one character *)
Definition lower_chr (a : ascii) : ascii :=
  if is_upper a then ascii_of_nat (code a + 32) else a.

Definition lower (s : str) : str := map lower_chr s.

(** [s.isascii()] *)
Definition isascii (s : str) : bool := forallb (fun a => (code a <? 128)%nat) s.

(** [c in _WHATWG_C0_CONTROL_OR_SPACE] *)
Definition is_c0_control_or_space (a : ascii) : bool := (code a <=? 32)%nat.

(** [_UNSAFE_URL_BYTES_TO_REMOVE]: tab, carriage return, newline *)
Definition _UNSAFE_URL_BYTES_TO_REMOVE : list ascii :=
  [ascii_of_nat 9; ascii_of_nat 13; ascii_of_nat 10].

(** [_splitnetloc(url, start)]: [(url[start:delim], url[delim:])] with
    [delim] the first of ['/'], ['?'], ['#'] from [start] on, or the end. *)
Definition _splitnetloc (url : str) (start : nat) : str * str :=
  let delim :=
    fold_left
      (fun delim c =>
         match find_from c start url with
         | Some wdelim => Nat.min delim wdelim
         | None => delim
         end)
      ["/"; "?"; "#"]%char (length url) in
  (firstn (delim - start) (skipn start url), skipn delim url).

Section WithUrllib.
Context {U : Urllib}.

(** [_checknetloc(netloc)] *)
Definition _checknetloc (netloc : str) : result unit :=
  if is_empty netloc || isascii netloc then Ok tt
  else if nfkc_netloc_ok netloc then Ok tt
  else Raise (ValueError "netloc contains invalid characters under NFKC normalization").

(** The authority part of [urlsplit]: taken when the rest starts with ["//"]. *)
Definition split_authority (url : str) : result (str * str) :=
  if startswith "//" url then
    let (netloc, url) := _splitnetloc url 2 in
    if (contains "[" netloc && negb (contains "]" netloc))
       || (contains "]" netloc && negb (contains "[" netloc))
    then Raise (ValueError "Invalid IPv6 URL")
    else if contains "[" netloc && contains "]" netloc
            && negb (check_bracketed_netloc netloc)
    then Raise (ValueError "Invalid IPv6 URL")
    else Ok (netloc, url)
  else Ok (lit "", url).

(** The scheme part of [urlsplit]: [url[:i].lower(), url[i+1:]] when the
    text before the first [':'] starts with a letter and consists of
    scheme characters. *)
Definition split_scheme (url : str) : str * str :=
  match find ":" url with
  | Some i =>
      if (0 <? i)%nat && is_ascii_alpha (hd "000"%char url)
         && forallb is_scheme_char (firstn i url)
      then (lower (firstn i url), skipn (S i) url)
      else (lit "", url)
  | None => (lit "", url)
  end.

(** [urllib.parse.urlsplit(url)] *)
Definition urlsplit (url : str) : result SplitResult :=
  let url := lstrip_by is_c0_control_or_space url in
  let url := fold_left (fun u b => remove_char b u) _UNSAFE_URL_BYTES_TO_REMOVE url in
  let (scheme, url) := split_scheme url in
  '(netloc, url) <- split_authority url ;;
  let (url, fragment) :=
    if contains "#" url then split_once "#" url else (url, lit "") in
  let (url, query) :=
    if contains "?" url then split_once "?" url else (url, lit "") in
  _ <- _checknetloc netloc ;;
  Ok (mkSplitResult scheme netloc url query fragment).

End WithUrllib.

(** [urllib.parse.urlunsplit(components)] *)
Definition urlunsplit (components : SplitResult) : str :=
  let scheme := scheme components in
  let netloc := netloc components in
  let url := path components in
  let query := query components in
  let fragment := fragment components in
  let url :=
    if negb (is_empty netloc)
       || (negb (is_empty scheme) && existsb (str_eqb scheme) uses_netloc
           && negb (startswith "//" url))
    then
      let url :=
        if negb (is_empty url) && negb (startswith "/" url)
        then lit "/" ++ url else url in
      lit "//" ++ netloc ++ url
    else url in
  let url := if negb (is_empty scheme) then scheme ++ lit ":" ++ url else url in
  let url := if negb (is_empty query) then url ++ lit "?" ++ query else url in
  let url := if negb (is_empty fragment) then url ++ lit "#" ++ fragment else url in
  url.

End urllib_parse.

(** ** The program *)

(** [os.path.dirname(p)], used for [MARKDOWN_DIR]. *)
Definition dirname (p : str) : str :=
  let i := rfind_succ "/" p in
  let head := firstn i p in
  if negb (is_empty head) && negb (str_eqb head (repeat "/"%char (length head)))
  then rstrip "/" head
  else head.

(** *** The sanitizer configuration (lines 19-65) *)

Definition ALLOWED_TAGS : list str :=
  [lit "h1"; lit "h2"; lit "h3"; lit "h4"; lit "h5"; lit "h6"; lit "b";
   lit "i"; lit "strong"; lit "em"; lit "tt"; lit "p"; lit "br"; lit "span";
   lit "div"; lit "blockquote"; lit "code"; lit "hr"; lit "ul"; lit "ol";
   lit "li"; lit "dd"; lit "dt"; lit "img"; lit "a"; lit "sub"; lit "sup";
   lit "small"; lit "pre"].

Definition ALLOWED_ATTRS : list (str * list str) :=
  [(lit "*", [lit "id"]);
   (lit "img", [lit "src"; lit "alt"; lit "title"]);
   (lit "a", [lit "href"; lit "title"])].

Definition ALLOWED_STYLES : list str := [].

(** The arguments of [bleach.sanitizer.Cleaner(...)]. *)
Record Cleaner : Type := mkCleaner {
  tags : list str;
  attributes : list (str * list str);
  styles : list str;
  strip : bool;
  strip_comments : bool
}.

Definition cleaner : Cleaner :=
  {| tags := ALLOWED_TAGS;
     attributes := ALLOWED_ATTRS;
     styles := ALLOWED_STYLES;
     strip := true;
     strip_comments := true |}.

(** *** The element tree and the link rewriter (lines 70-102) *)

(** An [xml.etree.ElementTree.Element]: a tag, the attribute dictionary in
    insertion order, text, tail and the children. *)
#[warnings="-register-all"]
Inductive Element : Type :=
| mkElement (tag : str) (attrib : list (str * str))
            (text tail : option str) (children : list Element).

Definition tag (e : Element) : str :=
  match e with mkElement t _ _ _ _ => t end.
Definition attrib (e : Element) : list (str * str) :=
  match e with mkElement _ a _ _ _ => a end.
Definition children (e : Element) : list Element :=
  match e with mkElement _ _ _ _ c => c end.

(** [d.get(key)] on an attribute dictionary *)
Fixpoint dict_get (d : list (str * str)) (key : str) : option str :=
  match d with
  | [] => None
  | (k, v) :: d' => if str_eqb k key then Some v else dict_get d' key
  end.

(** [d[key] = value]: an existing key keeps its place, a new one is appended. *)
Fixpoint dict_set (d : list (str * str)) (key value : str) : list (str * str) :=
  match d with
  | [] => [(key, value)]
  | (k, v) :: d' =>
      if str_eqb k key then (k, value) :: d'
      else (k, v) :: dict_set d' key value
  end.

(** [element.get(key)] *)
Definition get (e : Element) (key : str) : option str := dict_get (attrib e) key.

(** [element.set(key, value)] *)
Definition set (e : Element) (key value : str) : Element :=
  match e with
  | mkElement t a tx tl c => mkElement t (dict_set a key value) tx tl c
  end.

Section LinkRewritingTreeProcessor.
Context {U : Urllib}.
Import urllib_parse.

(** Lines 87-96: the path of an internal link. *)
Definition rewrite_path (path : str) : str :=
  (* Strip trailing slashes *)
  let path := rstrip "/" path in
  (* Remove .md suffixes *)
  let path := if endswith ".md" path then drop_last 3 path else path in
  path ++ lit "/".

(** Lines 82-102, on the value of [href]: the value written back by
    [element.set], or [None] when the link is external and nothing is
    written. *)
Definition rewrite_href (href : str) : result (option str) :=
  parts <- urlsplit href ;;
  (* If it's not an external link, rewrite it *)
  if is_empty (netloc parts) then
    let path := rewrite_path (path parts) in
    (* Recombine and use the new path *)
    let new_parts :=
      mkSplitResult (scheme parts) (netloc parts) path (query parts)
                    (fragment parts) in
    Ok (Some (urlunsplit new_parts))
  else Ok None.

(** [handle_element]: the children first, then the element itself. The
    tree is mutated in place in the source; here the updated tree is
    returned, and an exception of [urlsplit] leaves the walk.  The walk
    is taken to stay within the recursion limit of the interpreter: a
    [RecursionError] on a very deep tree is outside the model. *)
Fixpoint handle_element (element : Element) : result Element :=
  match element with
  | mkElement tg at_ tx tl cs =>
      cs' <- (fix handle_children (l : list Element) : result (list Element) :=
                match l with
                | [] => Ok []
                | child :: l' =>
                    child' <- handle_element child ;;
                    l'' <- handle_children l' ;;
                    Ok (child' :: l'')
                end) cs ;;
      let element := mkElement tg at_ tx tl cs' in
      if str_eqb tg "a" then
        match get element "href" with
        | Some href =>
            new <- rewrite_href href ;;
            match new with
            | Some value => Ok (set element "href" value)
            | None => Ok element
            end
        | None => Ok element
        end
      else Ok element
  end.

(** The loop over the children, by itself. *)
Fixpoint handle_children (l : list Element) : result (list Element) :=
  match l with
  | [] => Ok []
  | child :: l' =>
      child' <- handle_element child ;;
      l'' <- handle_children l' ;;
      Ok (child' :: l'')
  end.

(** [LinkRewritingTreeProcessor.run] *)
Definition run (root : Element) : result Element := handle_element root.

End LinkRewritingTreeProcessor.

(** *** The environment of [load_doc_page] *)

(** The file system: [os.path.exists], [os.path.realpath], and
    [open(path).read()], which raises when the file cannot be read; and the
    path of the script, [__file__]. *)
Class FileSystem : Type := {
  fs_exists : str -> bool;
  fs_realpath : str -> str;
  fs_open_read : str -> result str;
  script_file : str
}.

Definition Metadata : Type := list (str * list str).

(** The markdown library around the link rewriter: everything that runs
    before the tree processor of priority -100 (the parser with the
    extensions; it yields the tree and [Meta]), and everything after it
    (serialisation to HTML5 and the postprocessors).  Both are taken to
    return: an exception raised inside the library is outside the model. *)
Class Markdown : Type := {
  md_parse : str -> Metadata * Element;
  md_serialize : Element -> str
}.

(** [bleach.sanitizer.Cleaner.clean], taken to return. *)
Class Bleach : Type := {
  bleach_clean : Cleaner -> str -> str
}.

Section LoadDocPage.
Context {U : Urllib} {F : FileSystem} {M : Markdown} {B : Bleach}.

(** Line 15 *)
Definition MARKDOWN_DIR : str := dirname (fs_realpath script_file).

(** What [load_doc_page] returns: the metadata and the HTML, or [None]. *)
Definition Page : Type := (Metadata * option str)%type.

(** [{}, None] *)
Definition NOT_FOUND : Page := ([], None).

(** [markdown_converter.convert(text_md)] with the link rewriter
    registered, and [markdown_converter.Meta]. *)
Definition convert (text_md : str) : result (Metadata * str) :=
  let (meta, root) := md_parse text_md in
  root' <- run root ;;
  Ok (meta, md_serialize root').

(** Lines 158-177: render the text that was read. *)
Definition render (text_md : str) : result Page :=
  '(metadata, html) <- convert text_md ;;
  let text_html := bleach_clean cleaner html in
  Ok (metadata, Some text_html).

(** Lines 138-179: the loop over the candidates. The first component of
    the result lists the paths given to [open], in order. *)
Fixpoint try_paths (markdown_dir_clean : str) (potential_paths : list str)
  : list str * result Page :=
  match potential_paths with
  | [] => ([], Ok NOT_FOUND)
  | path :: rest =>
      (* Check if the path exists first *)
      if negb (fs_exists path) then try_paths markdown_dir_clean rest
      else
        (* Resolve symbolic links *)
        let path := fs_realpath path in
        (* Don't render READMEs *)
        let fname := os_path.basename path in
        if str_eqb fname "README.md" then try_paths markdown_dir_clean rest
        else
          (* And check that the path is still within the directory *)
          match os_path.commonpath [path; markdown_dir_clean] with
          | Raise e => ([], Raise e)
          | Ok common =>
              if negb (str_eqb common markdown_dir_clean)
              then try_paths markdown_dir_clean rest
              else
                match fs_open_read path with
                | Raise e => ([path], Raise e)
                | Ok text_md => ([path], render text_md)
                end
          end
  end.

(** [load_doc_page(page)] *)
Definition load_doc_page (page : str) : list str * result Page :=
  if existsb (str_eqb "..") (split "/" page) then ([], Ok NOT_FOUND)
  else
    let page := rstrip "/" page in
    let markdown_dir_clean := os_path.normpath MARKDOWN_DIR in
    let base_path := os_path.normpath (os_path.join markdown_dir_clean page) in
    (* Sanity check 1 *)
    match os_path.commonpath [base_path; markdown_dir_clean] with
    | Raise e => ([], Raise e)
    | Ok common =>
        if negb (str_eqb common markdown_dir_clean) then ([], Ok NOT_FOUND)
        else
          (* Sanity check 2 *)
          if existsb (startswith ".") (split "/" page) then ([], Ok NOT_FOUND)
          else
            (* Render index.md within directories *)
            let potential_paths :=
              [base_path ++ lit ".md"; os_path.join base_path "index.md"] in
            try_paths markdown_dir_clean potential_paths
    end.

End LoadDocPage.

(** *** The title and the route (lines 182-245) *)

(** [needle in s] for a string [needle]. *)
Fixpoint contains_str (needle s : str) : bool :=
  startswith needle s
  || match s with
     | [] => false
     | _ :: s' => contains_str needle s'
     end.

(** [s.strip(chars)], [chars] given as a test. *)
Definition strip_by (f : ascii -> bool) (s : str) : str :=
  rstrip_by f (lstrip_by f s).

(** [re.sub(r"[...]+", rep, s)] for a character class given as a test:
    every maximal run of characters of the class is replaced by [rep].
    [in_run] tells that the previous character belonged to a run. *)
Fixpoint sub_runs (f : ascii -> bool) (rep : str) (in_run : bool) (s : str) : str :=
  match s with
  | [] => []
  | a :: s' =>
      if f a then
        if in_run then sub_runs f rep true s'
        else rep ++ sub_runs f rep true s'
      else a :: sub_runs f rep false s'
  end.

(** The class of [r"/+"] and of [strip("/")]. *)
Definition is_slash (a : ascii) : bool := chr_eqb a "/".

(** The class of [PAGE_TITLE_REPLACE_RE], [r"[/-]+"], and of [strip("/-")]. *)
Definition is_title_sep (a : ascii) : bool := chr_eqb a "/" || chr_eqb a "-".

(** [str.title()], which depends on the case tables of Unicode. *)
Class PyUnicode : Type := {
  str_title : str -> str
}.

(** [key in metadata] and [metadata[key]] *)
Fixpoint meta_get (metadata : Metadata) (key : str) : option (list str) :=
  match metadata with
  | [] => None
  | (k, v) :: metadata' => if str_eqb k key then Some v else meta_get metadata' key
  end.

(** [get_page_title(page_name, metadata)] *)
Definition get_page_title {T : PyUnicode} (page_name : str) (metadata : Metadata) : str :=
  match meta_get metadata "title" with
  | Some words => str_join " " words
  | None =>
      if negb (is_empty page_name)
      then str_title (sub_runs is_title_sep " " false (strip_by is_title_sep page_name))
      else lit "index"
  end.

(** What [serve] returns: a redirect to a location, a body with a status
    code, or the page template of lines 203-245 filled by [format] with
    the title and the HTML. *)
Inductive Response : Type :=
| Redirect (location : str)
| Plain (body : str) (status : nat)
| Document (title text_html : str).

(** The test of line 195. *)
Definition needs_redirect (page : str) : bool :=
  contains_str "//" page || startswith "/" page
  || (negb (is_empty page) && negb (endswith "/" page)).

(** The location of line 196. *)
Definition redirect_location (page : str) : str :=
  lit "/" ++ sub_runs is_slash "/" false (strip_by is_slash page) ++ lit "/".

(** [serve(page)]; the first component lists the paths given to [open]. *)
Definition serve {U : Urllib} {F : FileSystem} {M : Markdown} {B : Bleach}
    {T : PyUnicode} (page : str) : list str * result Response :=
  if needs_redirect page then ([], Ok (Redirect (redirect_location page)))
  else
    let (opened, returned) := load_doc_page page in
    (opened,
     ' (metadata, text_html) <- returned ;;
     match text_html with
     | None => Ok (Plain "Page not found" 404)
     | Some html => Ok (Document (get_page_title page metadata) html)
     end).

(** ** Specification vocabulary *)

(** [p] is the directory [root] or lies below it: the components of
    [root] are the first components of [p]. *)
Definition within (root p : str) : Prop :=
  exists rest, os_path.components p = os_path.components root ++ rest.

(** [os.path.realpath] returns absolute paths. *)
Definition realpath_absolute (F : FileSystem) : Prop :=
  forall p, startswith "/" (fs_realpath p) = true.

Section Vocabulary.
Context {U : Urllib} {F : FileSystem} {M : Markdown} {B : Bleach}.

(** The normalised document root. *)
Definition root_dir : str := os_path.normpath MARKDOWN_DIR.

(** [basePath]: the normalised join of the root and the logical path
    without its trailing slashes. *)
Definition base_path_of (page : str) : str :=
  os_path.normpath (os_path.join root_dir (rstrip "/" page)).

(** The candidate files of a logical path, in the order they are tried. *)
Definition candidates (page : str) : list str :=
  [base_path_of page ++ lit ".md"; os_path.join (base_path_of page) "index.md"].

(** A candidate passes the per-file checks: it exists, its real basename
    is not [README.md], and the containment test on its real path gives
    the root. *)
Definition passes_checks (cand : str) : bool :=
  fs_exists cand
  && negb (str_eqb (os_path.basename (fs_realpath cand)) "README.md")
  && match os_path.commonpath [fs_realpath cand; root_dir] with
     | Ok common => str_eqb common root_dir
     | Raise _ => false
     end.

(** The logical path passes the checks made before any candidate is
    tried: no [..] segment, the base path within the root, no segment
    that starts with a dot. *)
Definition lexical_checks (page : str) : bool :=
  negb (existsb (str_eqb "..") (split "/" page))
  && match os_path.commonpath [base_path_of page; root_dir] with
     | Ok common => str_eqb common root_dir
     | Raise _ => false
     end
  && negb (existsb (startswith ".") (split "/" (rstrip "/" page))).

(** Reading and rendering the file at a real path. *)
Definition read_and_render (real : str) : list str * result Page :=
  ([real], text_md <- fs_open_read real ;; render text_md).

End Vocabulary.

(** The path rewriting in the words of the specification: the path
    without its trailing slashes is [stem]; a final [.md] is removed from
    it; one slash is appended. *)
Inductive rewritten_path (path : str) : str -> Prop :=
| rewritten_md k stem :
    path = stem ++ lit ".md" ++ repeat "/"%char k ->
    rewritten_path path (stem ++ lit "/")
| rewritten_plain k stem :
    path = stem ++ repeat "/"%char k ->
    (forall s, stem <> s ++ lit "/") ->
    (forall s, stem <> s ++ lit ".md") ->
    rewritten_path path (stem ++ lit "/").

(** A component as [commonpath] keeps it: not empty, not [.], without a slash. *)
Definition clean_comp (w : str) : Prop :=
  w <> [] /\ w <> lit "." /\ ~ In "/"%char w.

(** The value of [href] after the pass over an anchor: the rewritten
    value, or the old one when the link is external. *)
Definition link_rewrite {U : Urllib} (href : str) : result str :=
  new <- rewrite_href href ;;
  Ok (match new with Some value => value | None => href end).

(** A word that [urlsplit] takes for a scheme when a colon follows it:
    it starts with a letter and consists of scheme characters. *)
Definition scheme_word (s : str) : Prop :=
  s <> []
  /\ urllib_parse.is_ascii_alpha (hd "000"%char s) = true
  /\ forallb urllib_parse.is_scheme_char s = true.

(** Not one of the characters that [urlsplit] removes. *)
Definition safe_chr (a : ascii) : bool :=
  negb (existsb (chr_eqb a) urllib_parse._UNSAFE_URL_BYTES_TO_REMOVE).

(** The first steps of [urlsplit]: strip, then remove. *)
Definition clean_url (url : str) : str :=
  fold_left (fun u b => remove_char b u) urllib_parse._UNSAFE_URL_BYTES_TO_REMOVE
    (lstrip_by urllib_parse.is_c0_control_or_space url).

(** The fragment and query steps of [urlsplit]. *)
Definition split_at (c : ascii) (url : str) : str * str :=
  if contains c url then split_once c url else (url, lit "").

(** The characters that end the authority. *)
Definition delimiter (c : ascii) : Prop :=
  c = "/"%char \/ c = "?"%char \/ c = "#"%char.

(** What [urlunsplit] appends for a query or a fragment. *)
Definition opt_part (c : ascii) (s : str) : str :=
  if negb (is_empty s) then c :: s else [].

(** [urlunsplit] writes ["//"] before the path although the authority
    is empty: the scheme is one of [uses_netloc] and the path does not
    start with ["//"]. *)
Definition netloc_form (sch pth : str) : bool :=
  negb (is_empty sch) && existsb (str_eqb sch) urllib_parse.uses_netloc
  && negb (startswith "//" pth).

(** The path as [urlunsplit] writes it after ["//"]. *)
Definition slashed (pth : str) : str :=
  if negb (is_empty pth) && negb (startswith "/" pth) then lit "/" ++ pth else pth.

(** The path that is read back from what [urlunsplit] wrote. *)
Definition written_path (sch pth : str) : str :=
  if netloc_form sch pth then slashed pth else pth.

(** The query and the fragment as [urlunsplit] writes them. *)
Definition url_tail (q frag : str) : str := opt_part "?" q ++ opt_part "#" frag.

(** No first part of the path, followed by a slash, reads as a scheme. *)
Definition no_scheme_prefix (pth : str) : Prop :=
  forall pre x t s rest,
    pth = pre ++ x -> scheme_word s ->
    pre ++ "/"%char :: t <> s ++ ":"%char :: rest.

(** [e'] is [e] but for values of [href] in anchors that had one. *)
#[warnings="-register-all"]
Inductive href_variant : Element -> Element -> Prop :=
| href_variant_node tg at_ tx tl cs cs' :
    Forall2 href_variant cs cs' ->
    href_variant (mkElement tg at_ tx tl cs) (mkElement tg at_ tx tl cs')
| href_variant_anchor at_ tx tl cs cs' old value :
    Forall2 href_variant cs cs' ->
    dict_get at_ "href" = Some old ->
    href_variant (mkElement "a" at_ tx tl cs)
                 (mkElement "a" (dict_set at_ "href" value) tx tl cs').

(** Every [href] of an anchor in the tree is accepted by [urlsplit]. *)
#[warnings="-register-all"]
Inductive hrefs_parse {U : Urllib} : Element -> Prop :=
| hrefs_parse_node tg at_ tx tl cs :
    Forall hrefs_parse cs ->
    (tg = lit "a" -> forall href, dict_get at_ "href" = Some href ->
       exists parts, urllib_parse.urlsplit href = Ok parts) ->
    hrefs_parse (mkElement tg at_ tx tl cs).

(** Every [href] of an anchor in the tree parses with an authority. *)
#[warnings="-register-all"]
Inductive links_external {U : Urllib} : Element -> Prop :=
| links_external_node tg at_ tx tl cs :
    Forall links_external cs ->
    (tg = lit "a" -> forall href, dict_get at_ "href" = Some href ->
       exists parts, urllib_parse.urlsplit href = Ok parts /\ netloc parts <> []) ->
    links_external (mkElement tg at_ tx tl cs).

(** [s] cut at every character of a class, as [split] cuts at one
    character; and the pieces that are not empty. *)
Fixpoint fields (f : ascii -> bool) (s : str) : list str :=
  match s with
  | [] => [[]]
  | a :: s' =>
      if f a then [] :: fields f s'
      else match fields f s' with
           | w :: ws => (a :: w) :: ws
           | [] => [[a]]
           end
  end.

Definition words (f : ascii -> bool) (s : str) : list str :=
  filter (fun w => negb (is_empty w)) (fields f s).

(** A component of a normalised absolute path: clean, and not [..]. *)
Definition plain_comp (w : str) : Prop := clean_comp w /\ w <> lit "..".

(** A link on which one pass settles: it is external, or it parses
    without authority, its path does not begin with two slashes, and its
    rewritten path, without the final slash, ends neither in [.md] nor in
    a slash. *)
Definition settled_link {U : Urllib} (href : str) : Prop :=
  exists parts,
    urllib_parse.urlsplit href = Ok parts
    /\ (netloc parts <> []
        \/ (netloc parts = []
            /\ startswith "//" (path parts) = false
            /\ exists stem,
                 rewrite_path (path parts) = stem ++ lit "/"
                 /\ endswith ".md" stem = false
                 /\ endswith "/" stem = false)).

(** Every [href] of an anchor in the tree is a settled link. *)
#[warnings="-register-all"]
Inductive links_settled {U : Urllib} : Element -> Prop :=
| links_settled_node tg at_ tx tl cs :
    Forall links_settled cs ->
    (tg = lit "a" -> forall href, dict_get at_ "href" = Some href ->
       settled_link href) ->
    links_settled (mkElement tg at_ tx tl cs).

(** ** Sample environments *)

(** An interpreter whose authority checks reject whatever reaches them. *)
Definition strict_urllib : Urllib :=
  {| check_bracketed_netloc := fun _ => false;
     nfkc_netloc_ok := fun _ => false |}.

(** Association lists of paths. *)
Fixpoint lookup {A} (tbl : list (str * A)) (p : str) : option A :=
  match tbl with
  | [] => None
  | (k, v) :: tbl' => if str_eqb k p then Some v else lookup tbl' p
  end.

(** A small documentation tree under [/srv/docs]. *)
Definition sample_links : list (str * str) :=
  [(lit "/srv/docs/x.md", lit "/etc/x.md");
   (lit "/srv/docs/team.md", lit "/srv/docs/team/README.md")].

Definition sample_files : list (str * str) :=
  [(lit "/srv/docs/index.md", lit "Welcome");
   (lit "/srv/docs/guide.md", lit "Guide");
   (lit "/srv/docs/x/index.md", lit "X");
   (lit "/srv/docs/team/index.md", lit "Team");
   (lit "/srv/docs/team/README.md", lit "Readme");
   (lit "/etc/x.md", lit "Secret")].

(** [/srv/docs/gone.md] passes [os.path.exists] but cannot be opened. *)
Definition sample_fs : FileSystem :=
  {| fs_exists := fun p =>
       match lookup sample_links p, lookup sample_files p with
       | None, None => str_eqb p "/srv/docs/gone.md"
       | _, _ => true
       end;
     fs_realpath := fun p =>
       match lookup sample_links p with
       | Some q => q
       | None => if startswith "/" p then p else lit "/srv/docs/" ++ p
       end;
     fs_open_read := fun p =>
       match lookup sample_files p with
       | Some text => Ok text
       | None => Raise (OSError p)
       end;
     script_file := "/srv/docs/local-server.py" |}.

(** A markdown library that wraps the text in one paragraph, and a
    cleaner that returns its input. *)
Definition sample_markdown : Markdown :=
  {| md_parse := fun text => ([], mkElement "p" [] (Some text) None []);
     md_serialize := fun e =>
       match e with
       | mkElement _ _ (Some text) _ _ => text
       | _ => lit ""
       end |}.

Definition sample_bleach : Bleach := {| bleach_clean := fun _ html => html |}.

(** An anchor without children. *)
Definition anchor (href : str) : Element :=
  mkElement "a" [(lit "href", href)] None None [].

(** [str.title()] on ASCII letters: a letter after a letter is lowered,
    any other letter is raised. *)
Fixpoint ascii_title (prev_cased : bool) (s : str) : str :=
  match s with
  | [] => []
  | a :: s' =>
      if urllib_parse.is_lower a then
        (if prev_cased then a else ascii_of_nat (nat_of_ascii a - 32))
          :: ascii_title true s'
      else if urllib_parse.is_upper a then
        (if prev_cased then ascii_of_nat (nat_of_ascii a + 32) else a)
          :: ascii_title true s'
      else a :: ascii_title false s'
  end.

Definition sample_unicode : PyUnicode := {| str_title := ascii_title false |}.

Definition sample_serve : str -> list str * result Response :=
  @serve strict_urllib sample_fs sample_markdown sample_bleach sample_unicode.

(** A small tree with an internal link, and the tree after the pass. *)
Definition sample_tree : Element :=
  mkElement "div" [(lit "id", lit "top")] None None
    [mkElement "a" [(lit "title", lit "Guide"); (lit "href", lit "guide.md")]
       (Some (lit "the guide")) None [];
     mkElement "p" [] (Some (lit "text")) None []].

Definition sample_tree_rewritten : Element :=
  mkElement "div" [(lit "id", lit "top")] None None
    [mkElement "a" [(lit "title", lit "Guide"); (lit "href", lit "guide/")]
       (Some (lit "the guide")) None [];
     mkElement "p" [] (Some (lit "text")) None []].

(** A paragraph with an external link. *)
Definition sample_external : Element :=
  mkElement "p" [] None None [anchor "https://example.com/x.md"].

(** The program in the sample environment. *)
Definition sample_load_doc_page : str -> list str * result Page :=
  @load_doc_page strict_urllib sample_fs sample_markdown sample_bleach.

Definition sample_root : str := @root_dir sample_fs.

Definition sample_candidates : str -> list str := @candidates sample_fs.

Definition sample_handle_element : Element -> result Element :=
  @handle_element strict_urllib.

Definition sample_rewrite_href : str -> result (option str) :=
  @rewrite_href strict_urllib.

Definition sample_urlsplit : str -> result SplitResult :=
  @urllib_parse.urlsplit strict_urllib.

Definition sample_link_rewrite : str -> result str :=
  @link_rewrite strict_urllib.

(** * Properties *)

(** ** The model on concrete inputs *)

Example split_segments :
  split "/" "a//b/" = [lit "a"; lit ""; lit "b"; lit ""]
  /\ split "/" "" = [lit ""].
Proof. split; reflexivity. Qed.

Example rstrip_slashes :
  rstrip "/" "a/b//" = lit "a/b" /\ rstrip "/" "///" = lit "".
Proof. split; reflexivity. Qed.

Example endswith_md :
  endswith ".md" "x.md" = true /\ endswith ".md" "md" = false.
Proof. split; reflexivity. Qed.

Example normpath_samples :
  os_path.normpath "/srv/docs/a/../b/./c/" = lit "/srv/docs/b/c"
  /\ os_path.normpath "//srv//docs" = lit "//srv/docs"
  /\ os_path.normpath "///srv" = lit "/srv"
  /\ os_path.normpath "" = lit ".".
Proof. repeat split; reflexivity. Qed.

Example commonpath_samples :
  os_path.commonpath [lit "/srv/docs/x.md"; lit "/srv/docs"] = Ok (lit "/srv/docs")
  /\ os_path.commonpath [lit "/etc/x.md"; lit "/srv/docs"] = Ok (lit "/")
  /\ os_path.commonpath [lit "/srv/docsx"; lit "/srv/docs"] = Ok (lit "/srv").
Proof. repeat split; reflexivity. Qed.

Example urlsplit_samples :
  sample_urlsplit "https://example.com/x.md?q=1#top"
  = Ok (mkSplitResult "https" "example.com" "/x.md" "q=1" "top")
  /\ sample_urlsplit "../other.md#sec" = Ok (mkSplitResult "" "" "../other.md" "" "sec")
  /\ sample_urlsplit "mailto:someone@example.com"
     = Ok (mkSplitResult "mailto" "" "someone@example.com" "" "").
Proof. repeat split; reflexivity. Qed.

Example cleaner_settings :
  length (tags cleaner) = 29 /\ styles cleaner = []
  /\ strip cleaner = true /\ strip_comments cleaner = true.
Proof. repeat split; reflexivity. Qed.

Example sample_root_is_docs : sample_root = lit "/srv/docs".
Proof. reflexivity. Qed.

Example sample_index :
  sample_load_doc_page "" = ([lit "/srv/docs/index.md"], Ok ([], Some (lit "Welcome"))).
Proof. reflexivity. Qed.

(** ** Strings *)

Lemma chr_eqb_eq (a b : ascii) : chr_eqb a b = true <-> a = b.
Proof. apply Ascii.eqb_eq. Qed.

Lemma chr_eqb_refl (a : ascii) : chr_eqb a a = true.
Proof. apply chr_eqb_eq; reflexivity. Qed.

Lemma chr_eqb_neq (a b : ascii) : chr_eqb a b = false <-> a <> b.
Proof.
  split; intros H.
  - intros E. apply chr_eqb_eq in E. congruence.
  - destruct (chr_eqb a b) eqn:E; [apply chr_eqb_eq in E; contradiction | reflexivity].
Qed.

Lemma chr_eqb_sym (a b : ascii) : chr_eqb a b = chr_eqb b a.
Proof.
  destruct (chr_eqb a b) eqn:E.
  - apply chr_eqb_eq in E; subst. symmetry; apply chr_eqb_refl.
  - apply chr_eqb_neq in E. symmetry. apply chr_eqb_neq. congruence.
Qed.

Lemma str_eqb_eq (s t : str) : str_eqb s t = true <-> s = t.
Proof.
  revert t; induction s as [|a s IH]; intros [|b t]; simpl; split; intros H;
    try reflexivity; try discriminate.
  - apply andb_true_iff in H as [H1 H2].
    apply chr_eqb_eq in H1. apply IH in H2. congruence.
  - injection H as -> ->. rewrite chr_eqb_refl. simpl. apply IH. reflexivity.
Qed.

Lemma str_eqb_refl (s : str) : str_eqb s s = true.
Proof. apply str_eqb_eq; reflexivity. Qed.

Lemma str_eqb_neq (s t : str) : str_eqb s t = false <-> s <> t.
Proof.
  split; intros H.
  - intros E. apply str_eqb_eq in E. congruence.
  - destruct (str_eqb s t) eqn:E; [apply str_eqb_eq in E; contradiction | reflexivity].
Qed.

Lemma str_eqb_sym (s t : str) : str_eqb s t = str_eqb t s.
Proof.
  destruct (str_eqb s t) eqn:E.
  - apply str_eqb_eq in E; subst. symmetry; apply str_eqb_refl.
  - apply str_eqb_neq in E. symmetry. apply str_eqb_neq. congruence.
Qed.

Lemma is_empty_true (s : str) : is_empty s = true <-> s = [].
Proof. destruct s; simpl; split; congruence. Qed.

Lemma startswith_iff (p s : str) :
  startswith p s = true <-> exists r, s = p ++ r.
Proof.
  revert s; induction p as [|a p IH]; intros s; simpl.
  - split; [intros _; exists s; reflexivity | reflexivity].
  - destruct s as [|b s].
    + split; [discriminate | intros [r H]; discriminate].
    + rewrite andb_true_iff, chr_eqb_eq, IH. split.
      * intros [-> [r ->]]. exists r. reflexivity.
      * intros [r H]. injection H as -> ->. split; [reflexivity | exists r; reflexivity].
Qed.

Lemma startswith_app (p r : str) : startswith p (p ++ r) = true.
Proof. apply startswith_iff. exists r. reflexivity. Qed.

(** *** [split] and [join] *)

Lemma split_not_nil (c : ascii) (s : str) : split c s <> [].
Proof.
  induction s as [|a s IH]; simpl; [discriminate|].
  destruct (chr_eqb a c); [discriminate|].
  destruct (split c s); [contradiction | discriminate].
Qed.

Lemma split_no_sep (c : ascii) (s : str) :
  Forall (fun w => ~ In c w) (split c s).
Proof.
  induction s as [|a s IH]; simpl.
  - constructor; [intros [] | constructor].
  - destruct (chr_eqb a c) eqn:E.
    + constructor; [intros [] | exact IH].
    + destruct (split c s) as [|w ws] eqn:Es.
      * exfalso. apply (split_not_nil c s). exact Es.
      * inversion IH; subst. constructor; [|assumption].
        apply chr_eqb_neq in E. intros [H|H]; [congruence | contradiction].
Qed.

Lemma split_word_sep (c : ascii) (w s : str) :
  ~ In c w -> split c (w ++ c :: s) = w :: split c s.
Proof.
  induction w as [|a w IH]; intros H; simpl.
  - rewrite chr_eqb_refl. reflexivity.
  - assert (chr_eqb a c = false) as ->
      by (apply chr_eqb_neq; intros ->; apply H; left; reflexivity).
    rewrite IH by (intros H'; apply H; right; assumption). reflexivity.
Qed.

Lemma split_word (c : ascii) (w : str) : ~ In c w -> split c w = [w].
Proof.
  induction w as [|a w IH]; intros H; simpl; [reflexivity|].
  assert (chr_eqb a c = false) as ->
    by (apply chr_eqb_neq; intros ->; apply H; left; reflexivity).
  rewrite IH by (intros H'; apply H; right; assumption). reflexivity.
Qed.

Lemma split_join (c : ascii) (l : list str) :
  l <> [] -> Forall (fun w => ~ In c w) l -> split c (str_join [c] l) = l.
Proof.
  induction l as [|w l IH]; intros Hne Hall; [contradiction|].
  inversion Hall as [|? ? Hw Hl]; subst.
  destruct l as [|w' l].
  - simpl. apply split_word; assumption.
  - change (str_join [c] (w :: w' :: l)) with (w ++ c :: str_join [c] (w' :: l)).
    rewrite split_word_sep by assumption.
    rewrite IH; [reflexivity | discriminate | assumption].
Qed.

(** *** Path components *)

Lemma components_clean (p : str) : Forall clean_comp (os_path.components p).
Proof.
  unfold os_path.components. apply Forall_forall. intros w Hw.
  apply filter_In in Hw as [Hin Hk].
  apply andb_true_iff in Hk as [H1 H2].
  pose proof (split_no_sep "/" p) as Hs.
  rewrite Forall_forall in Hs. repeat split.
  - intros ->. discriminate.
  - intros ->. discriminate.
  - apply Hs. exact Hin.
Qed.

Lemma filter_keep_clean (l : list str) :
  Forall clean_comp l ->
  filter (fun c => negb (is_empty c) && negb (str_eqb c ".")) l = l.
Proof.
  induction 1 as [|w l [H1 [H2 H3]] Hl IH]; [reflexivity|].
  cbn [filter].
  assert (is_empty w = false) as -> by (destruct w; [contradiction | reflexivity]).
  apply str_eqb_neq in H2. rewrite H2. cbn [negb andb]. rewrite IH. reflexivity.
Qed.

Lemma components_join (l : list str) :
  Forall clean_comp l ->
  os_path.components (str_join "/" l) = l
  /\ os_path.components (lit "/" ++ str_join "/" l) = l.
Proof.
  intros Hl. destruct l as [|w l]; [split; reflexivity|].
  assert (Hs : split "/" (str_join "/" (w :: l)) = w :: l).
  { apply (split_join "/"%char); [discriminate|].
    eapply Forall_impl; [|exact Hl]. intros x [_ [_ Hx]]. exact Hx. }
  unfold os_path.components. split.
  - rewrite Hs. apply filter_keep_clean. exact Hl.
  - change (lit "/" ++ str_join "/" (w :: l)) with ("/"%char :: str_join "/" (w :: l)).
    cbn [split]. rewrite chr_eqb_refl, Hs.
    transitivity (filter (fun c => negb (is_empty c) && negb (str_eqb c ".")) (w :: l));
      [reflexivity | apply filter_keep_clean; exact Hl].
Qed.

(** *** The order on component lists *)

Lemma code_inj (a b : ascii) : nat_of_ascii a = nat_of_ascii b -> a = b.
Proof.
  intros H. rewrite <- (ascii_nat_embedding a), <- (ascii_nat_embedding b).
  congruence.
Qed.

Lemma str_ltb_asym (s t : str) : str_ltb s t = true -> str_ltb t s = false.
Proof.
  revert t; induction s as [|a s IH]; intros [|b t]; simpl; try congruence.
  rewrite (chr_eqb_sym b a). destruct (chr_eqb a b); [apply IH|].
  intros H. apply Nat.ltb_lt in H. apply Nat.ltb_ge. lia.
Qed.

Lemma str_ltb_total (s t : str) :
  str_ltb s t = false -> str_ltb t s = false -> s = t.
Proof.
  revert t; induction s as [|a s IH]; intros [|b t]; simpl; try congruence.
  rewrite (chr_eqb_sym b a). destruct (chr_eqb a b) eqn:E.
  - apply chr_eqb_eq in E; subst. intros H1 H2. f_equal. apply IH; assumption.
  - intros H1 H2. apply Nat.ltb_ge in H1, H2.
    apply chr_eqb_neq in E. exfalso. apply E. apply code_inj. lia.
Qed.

Lemma strs_ltb_asym (l m : list str) : strs_ltb l m = true -> strs_ltb m l = false.
Proof.
  revert m; induction l as [|a l IH]; intros [|b m]; simpl; try congruence.
  rewrite (str_eqb_sym b a). destruct (str_eqb a b); [apply IH|].
  apply str_ltb_asym.
Qed.

Lemma strs_ltb_total (l m : list str) :
  strs_ltb l m = false -> strs_ltb m l = false -> l = m.
Proof.
  revert m; induction l as [|a l IH]; intros [|b m]; simpl; try congruence.
  rewrite (str_eqb_sym b a). destruct (str_eqb a b) eqn:E.
  - apply str_eqb_eq in E; subst. intros H1 H2. f_equal. apply IH; assumption.
  - intros H1 H2. apply str_eqb_neq in E. exfalso. apply E.
    apply str_ltb_total; assumption.
Qed.

(** *** [commonpath] *)

Lemma common_loop_prefix (s1 s2 c : list str) :
  os_path.common_loop s1 s2 = Ok c ->
  (exists r1, s1 = c ++ r1) /\ (exists r2, s2 = c ++ r2).
Proof.
  revert s2 c; induction s1 as [|x s1 IH]; intros s2 c; simpl.
  - intros H; injection H as <-. split; [exists [] | exists s2]; reflexivity.
  - destruct s2 as [|y s2]; [discriminate|].
    destruct (str_eqb x y) eqn:E.
    + apply str_eqb_eq in E; subst y.
      destruct (os_path.common_loop s1 s2) as [r|e] eqn:Hr; simpl; [|discriminate].
      intros H; injection H as <-.
      destruct (IH _ _ Hr) as [[r1 ->] [r2 ->]].
      split; [exists r1 | exists r2]; reflexivity.
    + intros H; injection H as <-.
      split; [exists (x :: s1) | exists (y :: s2)]; reflexivity.
Qed.

Lemma common_loop_refl (s : list str) : os_path.common_loop s s = Ok s.
Proof.
  induction s as [|x s IH]; simpl; [reflexivity|].
  rewrite str_eqb_refl, IH. reflexivity.
Qed.

Lemma common_loop_lt (s1 s2 : list str) :
  strs_ltb s1 s2 = true -> exists c, os_path.common_loop s1 s2 = Ok c.
Proof.
  revert s2; induction s1 as [|x s1 IH]; intros s2; simpl.
  - intros _. exists []. reflexivity.
  - destruct s2 as [|y s2]; [discriminate|].
    destruct (str_eqb x y).
    + intros H. destruct (IH _ H) as [c ->]. exists (x :: c). reflexivity.
    + intros _. exists []. reflexivity.
Qed.

(** The branch of [commonpath] taken for two paths. *)
Lemma commonpath_pair (a b : str) :
  os_path.commonpath [a; b] =
  if Bool.eqb (startswith "/" b) (startswith "/" a) then
    let ca := os_path.components a in
    let cb := os_path.components b in
    common <- os_path.common_loop (if strs_ltb cb ca then cb else ca)
                                  (if strs_ltb ca cb then cb else ca) ;;
    Ok ((if startswith "/" a then lit "/" else lit "") ++ str_join "/" common)
  else Raise (ValueError "Can't mix absolute and relative paths").
Proof.
  unfold os_path.commonpath. cbn [forallb map].
  rewrite andb_true_r. reflexivity.
Qed.

(** For two paths that are both absolute or both relative, [commonpath]
    returns, and what it returns is the joined list of their common first
    components. *)
Lemma commonpath_pair_ok (a b : str) :
  startswith "/" b = startswith "/" a ->
  exists common,
    os_path.commonpath [a; b] =
      Ok ((if startswith "/" a then lit "/" else lit "") ++ str_join "/" common)
    /\ (exists r, os_path.components a = common ++ r)
    /\ (exists r, os_path.components b = common ++ r).
Proof.
  intros Habs. rewrite commonpath_pair, Habs, Bool.eqb_reflx. cbv zeta.
  set (ca := os_path.components a). set (cb := os_path.components b).
  destruct (strs_ltb cb ca) eqn:Hba.
  - rewrite (strs_ltb_asym _ _ Hba).
    destruct (common_loop_lt _ _ Hba) as [c Hc]. rewrite Hc. simpl.
    exists c. split; [reflexivity|].
    destruct (common_loop_prefix _ _ _ Hc) as [H1 H2]. split; assumption.
  - destruct (strs_ltb ca cb) eqn:Hab.
    + destruct (common_loop_lt _ _ Hab) as [c Hc]. rewrite Hc. simpl.
      exists c. split; [reflexivity|].
      destruct (common_loop_prefix _ _ _ Hc) as [H1 H2]. split; assumption.
    + rewrite common_loop_refl. simpl. exists ca. split; [reflexivity|].
      rewrite <- (strs_ltb_total _ _ Hab Hba).
      split; exists []; rewrite app_nil_r; reflexivity.
Qed.

Lemma commonpath_pair_inv (a b c : str) :
  os_path.commonpath [a; b] = Ok c ->
  startswith "/" b = startswith "/" a.
Proof.
  rewrite commonpath_pair.
  destruct (startswith "/" b), (startswith "/" a); simpl; congruence.
Qed.

Lemma prefix_clean (common r : list str) (p : str) :
  os_path.components p = common ++ r -> Forall clean_comp common.
Proof.
  intros H. pose proof (components_clean p) as Hc. rewrite H in Hc.
  apply Forall_app in Hc. tauto.
Qed.

(** The containment test of the program implies containment: when
    [commonpath([p, root])] is [root], the components of [root] are the
    first components of [p]. *)
Lemma commonpath_within (p root : str) :
  os_path.commonpath [p; root] = Ok root -> within root p.
Proof.
  intros H. pose proof (commonpath_pair_inv _ _ _ H) as Habs.
  destruct (commonpath_pair_ok _ _ Habs) as [common [Hc [[r1 H1] [r2 H2]]]].
  rewrite H in Hc.
  assert (Hroot : root = (if startswith "/" p then lit "/" else lit "")
                         ++ str_join "/" common) by congruence.
  pose proof (prefix_clean _ _ _ H1) as Hclean.
  destruct (components_join _ Hclean) as [J1 J2].
  assert (Hcomp : os_path.components root = common).
  { rewrite Hroot. destruct (startswith "/" p); [exact J2 | exact J1]. }
  exists r1. rewrite Hcomp. exact H1.
Qed.

(** *** Absolute paths *)

Lemma rstrip_by_nil (f : ascii -> bool) (s : str) :
  rstrip_by f s = [] <-> forallb f s = true.
Proof.
  induction s as [|a s IH]; simpl; [tauto|].
  destruct (rstrip_by f s) as [|b r] eqn:E.
  - assert (Hs : forallb f s = true) by (apply IH; reflexivity).
    rewrite Hs, andb_true_r. destruct (f a); split; congruence.
  - split; [discriminate|]. intros H. apply andb_true_iff in H as [_ H].
    apply IH in H. discriminate.
Qed.

Lemma all_slashes (c : ascii) (s : str) :
  forallb (chr_eqb c) s = true -> s = repeat c (length s).
Proof.
  induction s as [|a s IH]; simpl; [reflexivity|].
  intros H. apply andb_true_iff in H as [H1 H2]. apply chr_eqb_eq in H1.
  subst a. f_equal. apply IH. exact H2.
Qed.

Lemma rstrip_keeps_head (c : ascii) (s : str) :
  rstrip c (c :: s) = [] \/ exists r, rstrip c (c :: s) = c :: r.
Proof.
  unfold rstrip. simpl. destruct (rstrip_by (chr_eqb c) s).
  - rewrite chr_eqb_refl. left; reflexivity.
  - right. eexists. reflexivity.
Qed.

Lemma rfind_succ_head (c : ascii) (s : str) :
  exists i, rfind_succ c (c :: s) = S i.
Proof.
  simpl. destruct (rfind_succ c s).
  - rewrite chr_eqb_refl. exists 0. reflexivity.
  - eexists. reflexivity.
Qed.

Lemma startswith_slash (s : str) :
  startswith "/" s = true <-> exists r, s = "/"%char :: r.
Proof. apply (startswith_iff (lit "/")). Qed.

Lemma dirname_abs (p : str) :
  startswith "/" p = true -> startswith "/" (dirname p) = true.
Proof.
  intros H. apply startswith_slash in H as [r ->]. unfold dirname.
  destruct (rfind_succ_head "/" r) as [i ->]. cbn [firstn].
  set (h := firstn i r).
  destruct (negb (is_empty ("/"%char :: h))
            && negb (str_eqb ("/"%char :: h) (repeat "/"%char (length ("/"%char :: h)))))
    eqn:E; [|reflexivity].
  apply andb_true_iff in E as [_ E]. apply negb_true_iff, str_eqb_neq in E.
  destruct (rstrip_keeps_head "/" h) as [Hn | [r' ->]]; [|reflexivity].
  exfalso. apply E. apply all_slashes. apply rstrip_by_nil. exact Hn.
Qed.

Lemma normpath_abs (p : str) :
  startswith "/" p = true -> startswith "/" (os_path.normpath p) = true.
Proof.
  intros H. unfold os_path.normpath. rewrite H.
  destruct (str_eqb p "") eqn:E.
  - apply str_eqb_eq in E. subst. discriminate.
  - cbv zeta.
    destruct (startswith "//" p && negb (startswith "///" p)); reflexivity.
Qed.

Lemma join_abs (a b : str) :
  startswith "/" a = true -> startswith "/" (os_path.join a b) = true.
Proof.
  intros H. unfold os_path.join.
  destruct (startswith "/" b) eqn:Hb; [exact Hb|].
  apply startswith_slash in H as [r ->].
  destruct (is_empty ("/"%char :: r) || endswith "/" ("/"%char :: r)); reflexivity.
Qed.

(** ** The path resolver *)

Section Resolver.
Context {U : Urllib} {F : FileSystem} {M : Markdown} {B : Bleach}.

(** [load_doc_page], step by step. *)
Lemma load_doc_page_steps (page : str) :
  load_doc_page page =
  if existsb (str_eqb "..") (split "/" page) then ([], Ok NOT_FOUND)
  else
    match os_path.commonpath [base_path_of page; root_dir] with
    | Raise e => ([], Raise e)
    | Ok common =>
        if negb (str_eqb common root_dir) then ([], Ok NOT_FOUND)
        else if existsb (startswith ".") (split "/" (rstrip "/" page))
             then ([], Ok NOT_FOUND)
             else try_paths root_dir (candidates page)
    end.
Proof. reflexivity. Qed.

Lemma load_doc_page_lexical (page : str) :
  lexical_checks page = true ->
  load_doc_page page = try_paths root_dir (candidates page).
Proof.
  unfold lexical_checks. intros H.
  apply andb_true_iff in H as [H H3]. apply andb_true_iff in H as [H1 H2].
  rewrite load_doc_page_steps.
  apply negb_true_iff in H1, H3. rewrite H1.
  destruct (os_path.commonpath [base_path_of page; root_dir]); [|discriminate].
  rewrite H2, H3. reflexivity.
Qed.

Section AbsoluteRealpath.
Hypothesis realpath_abs : realpath_absolute F.

Lemma MARKDOWN_DIR_abs : startswith "/" MARKDOWN_DIR = true.
Proof. apply dirname_abs. apply realpath_abs. Qed.

Lemma root_dir_abs : startswith "/" root_dir = true.
Proof. apply normpath_abs. apply MARKDOWN_DIR_abs. Qed.

Lemma base_path_abs (page : str) : startswith "/" (base_path_of page) = true.
Proof. apply normpath_abs. apply join_abs. apply root_dir_abs. Qed.

(** Neither containment test raises. *)
Lemma commonpath_root_ok (p : str) :
  startswith "/" p = true ->
  exists common, os_path.commonpath [p; root_dir] = Ok common.
Proof.
  intros H.
  destruct (commonpath_pair_ok p root_dir) as [c [Hc _]].
  - rewrite H. apply root_dir_abs.
  - eexists. exact Hc.
Qed.

(** The loop returns what the first candidate that passes the checks
    gives, and the not-found value when none passes. *)
Lemma try_paths_find (cands : list str) :
  try_paths root_dir cands =
  match List.find passes_checks cands with
  | Some cand => read_and_render (fs_realpath cand)
  | None => ([], Ok NOT_FOUND)
  end.
Proof.
  induction cands as [|cand rest IH]; [reflexivity|].
  cbn [try_paths List.find]. unfold passes_checks at 1.
  destruct (fs_exists cand); cbn [negb andb]; [|exact IH].
  destruct (str_eqb (os_path.basename (fs_realpath cand)) "README.md");
    cbn [negb andb]; [exact IH|].
  destruct (commonpath_root_ok (fs_realpath cand) (realpath_abs cand)) as [c ->].
  destruct (str_eqb c root_dir); cbn [negb]; [|exact IH].
  unfold read_and_render. destruct (fs_open_read (fs_realpath cand)); reflexivity.
Qed.

End AbsoluteRealpath.
End Resolver.

(** *** Segments of a logical path and of the path without trailing slashes *)

Lemma rstrip_by_cons (f : ascii -> bool) (a : ascii) (s : str) :
  rstrip_by f (a :: s) =
  if f a && is_empty (rstrip_by f s) then [] else a :: rstrip_by f s.
Proof.
  cbn [rstrip_by]. destruct (rstrip_by f s); destruct (f a); reflexivity.
Qed.

Lemma split_cons_other (c a : ascii) (s : str) :
  chr_eqb a c = false ->
  exists w ws, split c s = w :: ws /\ split c (a :: s) = (a :: w) :: ws.
Proof.
  intros E. cbn [split]. rewrite E.
  destruct (split c s) as [|w ws] eqn:Es.
  - exfalso. apply (split_not_nil c _ Es).
  - exists w, ws. split; reflexivity.
Qed.

Lemma split_rstrip (c : ascii) (s : str) :
  exists k, split c s = split c (rstrip c s) ++ repeat [] k.
Proof.
  unfold rstrip. induction s as [|a s [k IH]].
  - exists 0. reflexivity.
  - rewrite rstrip_by_cons. destruct (chr_eqb a c) eqn:E.
    + apply chr_eqb_eq in E. subst a. rewrite chr_eqb_refl. cbn [andb].
      destruct (rstrip_by (chr_eqb c) s) as [|b r] eqn:Er; cbn [is_empty].
      * exists (S k). cbn [split]. rewrite chr_eqb_refl, IH. reflexivity.
      * exists k. cbn [split]. rewrite chr_eqb_refl, IH.
        cbn [split]. reflexivity.
    + rewrite (chr_eqb_sym c a), E. cbn [andb].
      destruct (split_cons_other c a s E) as [w [ws [H1 H2]]].
      destruct (split_cons_other c a (rstrip_by (chr_eqb c) s) E) as [w' [ws' [H3 H4]]].
      exists k. rewrite H2, H4. rewrite H1, H3 in IH.
      injection IH as -> ->. reflexivity.
Qed.

Lemma hidden_segment_kept (page seg : str) :
  In seg (split "/" page) -> startswith "." seg = true ->
  existsb (startswith ".") (split "/" (rstrip "/" page)) = true.
Proof.
  intros Hin Hdot. destruct (split_rstrip "/" page) as [k Hk].
  rewrite Hk in Hin. apply in_app_or in Hin as [Hin | Hin].
  - apply existsb_exists. exists seg. split; assumption.
  - apply repeat_spec in Hin. subst seg. discriminate.
Qed.

Lemma dotdot_segment (page : str) :
  In (lit "..") (split "/" page) ->
  existsb (str_eqb "..") (split "/" page) = true.
Proof.
  intros H. apply existsb_exists. exists (lit ".."). split; [exact H | reflexivity].
Qed.

Section ResolverClaims.
Context {U : Urllib} {F : FileSystem} {M : Markdown} {B : Bleach}.

(** What a successful run of the loop tells. *)
Lemma try_paths_rendered (cands opened : list str) (meta : Metadata) (html : str) :
  try_paths root_dir cands = (opened, Ok (meta, Some html)) ->
  exists cand text,
    In cand cands /\ fs_exists cand = true
    /\ opened = [fs_realpath cand]
    /\ fs_open_read (fs_realpath cand) = Ok text
    /\ render text = Ok (meta, Some html)
    /\ os_path.commonpath [fs_realpath cand; root_dir] = Ok root_dir
    /\ os_path.basename (fs_realpath cand) <> lit "README.md".
Proof.
  induction cands as [|cand rest IH]; cbn [try_paths]; [discriminate|].
  assert (Hrest : try_paths root_dir rest = (opened, Ok (meta, Some html)) ->
    exists cand0 text,
      In cand0 (cand :: rest) /\ fs_exists cand0 = true
      /\ opened = [fs_realpath cand0]
      /\ fs_open_read (fs_realpath cand0) = Ok text
      /\ render text = Ok (meta, Some html)
      /\ os_path.commonpath [fs_realpath cand0; root_dir] = Ok root_dir
      /\ os_path.basename (fs_realpath cand0) <> lit "README.md").
  { intros H. destruct (IH H) as [c [t [Hin Hc]]].
    exists c, t. split; [right; exact Hin | exact Hc]. }
  destruct (fs_exists cand) eqn:Hex; cbn [negb]; [|exact Hrest].
  destruct (str_eqb (os_path.basename (fs_realpath cand)) "README.md") eqn:Hreadme;
    [exact Hrest|].
  destruct (os_path.commonpath [fs_realpath cand; root_dir]) as [common|e] eqn:Hcp;
    [|discriminate].
  destruct (str_eqb common root_dir) eqn:Hroot; cbn [negb]; [|exact Hrest].
  apply str_eqb_eq in Hroot. subst common.
  destruct (fs_open_read (fs_realpath cand)) as [text|e] eqn:Hopen; [|discriminate].
  intros H. injection H as Ho Hr. exists cand, text.
  apply str_eqb_neq in Hreadme. repeat split; auto; left; reflexivity.
Qed.

(** A page is never returned with the HTML absent, unless it is the
    not-found value and no file was opened. *)
Lemma render_some (text : str) (meta : Metadata) :
  render text <> Ok (meta, None).
Proof.
  unfold render. destruct (convert text) as [[m h]|e]; simpl; congruence.
Qed.

Lemma try_paths_absent (cands opened : list str) (meta : Metadata) :
  try_paths root_dir cands = (opened, Ok (meta, None)) ->
  opened = [] /\ meta = [].
Proof.
  induction cands as [|cand rest IH]; cbn [try_paths].
  - unfold NOT_FOUND. intros H. injection H as <- <-. split; reflexivity.
  - destruct (fs_exists cand); cbn [negb]; [|exact IH].
    destruct (str_eqb (os_path.basename (fs_realpath cand)) "README.md"); [exact IH|].
    destruct (os_path.commonpath [fs_realpath cand; root_dir]) as [common|e];
      [|discriminate].
    destruct (str_eqb common root_dir); cbn [negb]; [|exact IH].
    destruct (fs_open_read (fs_realpath cand)) as [text|e]; [|discriminate].
    intros H. injection H as _ H. exfalso. exact (render_some _ _ H).
Qed.

(** A candidate that passes the checks exists, is not a README, and has
    a real path within the root. *)
Lemma passes_checks_sound (cand : str) :
  passes_checks cand = true ->
  fs_exists cand = true
  /\ os_path.basename (fs_realpath cand) <> lit "README.md"
  /\ within root_dir (fs_realpath cand).
Proof.
  unfold passes_checks. intros H.
  apply andb_true_iff in H as [H H3]. apply andb_true_iff in H as [H1 H2].
  apply negb_true_iff, str_eqb_neq in H2.
  destruct (os_path.commonpath [fs_realpath cand; root_dir]) as [c|e] eqn:Hc;
    [|discriminate].
  apply str_eqb_eq in H3. subst c.
  repeat split; [exact H1 | exact H2 | apply commonpath_within; exact Hc].
Qed.

(** C1: when [load_doc_page] returns HTML, exactly one file was opened;
    it is the real path (symbolic links resolved) of a candidate that
    exists, it is the document root or lies below it, and its basename is
    not [README.md]; the HTML is the rendering of its text. *)
Theorem C1_resolved_file_invariant
    (page : str) (opened : list str) (meta : Metadata) (html : str) :
  load_doc_page page = (opened, Ok (meta, Some html)) ->
  exists cand text,
    In cand (candidates page) /\ fs_exists cand = true
    /\ opened = [fs_realpath cand]
    /\ fs_open_read (fs_realpath cand) = Ok text
    /\ render text = Ok (meta, Some html)
    /\ within root_dir (fs_realpath cand)
    /\ os_path.basename (fs_realpath cand) <> lit "README.md".
Proof.
  rewrite load_doc_page_steps.
  destruct (existsb (str_eqb "..") (split "/" page)); [discriminate|].
  destruct (os_path.commonpath [base_path_of page; root_dir]) as [common|e];
    [|discriminate].
  destruct (negb (str_eqb common root_dir)); [discriminate|].
  destruct (existsb (startswith ".") (split "/" (rstrip "/" page))); [discriminate|].
  intros H. apply try_paths_rendered in H.
  destruct H as [cand [text [H1 [H2 [H3 [H4 [H5 [H6 H7]]]]]]]].
  exists cand, text. repeat split; auto.
  apply commonpath_within. exact H6.
Qed.

End ResolverClaims.

Lemma find_all_false {A} (f : A -> bool) (l : list A) :
  (forall x, In x l -> f x = false) -> List.find f l = None.
Proof.
  induction l as [|x l IH]; intros H; [reflexivity|].
  cbn [List.find]. rewrite (H x (or_introl eq_refl)).
  apply IH. intros y Hy. apply H. right. exact Hy.
Qed.

Section Rejections.
Context {U : Urllib} {F : FileSystem} {M : Markdown} {B : Bleach}.
Hypothesis realpath_abs : realpath_absolute F.

(** A candidate that does not exist, whose real basename is [README.md],
    or whose real path is outside the root, does not pass the checks. *)
Lemma rejected_candidate (cand : str) :
  fs_exists cand = false
  \/ os_path.basename (fs_realpath cand) = lit "README.md"
  \/ ~ within root_dir (fs_realpath cand) ->
  passes_checks cand = false.
Proof.
  unfold passes_checks. intros [H | [H | H]].
  - rewrite H. reflexivity.
  - rewrite H, str_eqb_refl, andb_false_r. reflexivity.
  - destruct (os_path.commonpath [fs_realpath cand; root_dir]) as [c|e] eqn:Hc;
      [|apply andb_false_r].
    destruct (str_eqb c root_dir) eqn:E; [|apply andb_false_r].
    apply str_eqb_eq in E. subst c. exfalso. apply H.
    apply commonpath_within. exact Hc.
Qed.

(** Every way of being turned down gives the same value, [({}, None)],
    and no file is opened. *)
Lemma rejected_not_found (page : str) :
  In (lit "..") (split "/" page)
  \/ (exists seg, In seg (split "/" page) /\ startswith "." seg = true)
  \/ ~ within root_dir (base_path_of page)
  \/ (forall cand, In cand (candidates page) ->
        fs_exists cand = false
        \/ os_path.basename (fs_realpath cand) = lit "README.md"
        \/ ~ within root_dir (fs_realpath cand)) ->
  load_doc_page page = ([], Ok NOT_FOUND).
Proof.
  intros H. rewrite load_doc_page_steps.
  destruct (existsb (str_eqb "..") (split "/" page)) eqn:Hdd; [reflexivity|].
  destruct (commonpath_root_ok realpath_abs (base_path_of page)
              (base_path_abs realpath_abs page)) as [common Hc].
  rewrite Hc.
  destruct (str_eqb common root_dir) eqn:Hroot; cbn [negb]; [|reflexivity].
  destruct (existsb (startswith ".") (split "/" (rstrip "/" page))) eqn:Hhid;
    [reflexivity|].
  apply str_eqb_eq in Hroot. subst common.
  destruct H as [H | [[seg [H1 H2]] | [H | H]]].
  - rewrite (dotdot_segment _ H) in Hdd. discriminate.
  - rewrite (hidden_segment_kept _ _ H1 H2) in Hhid. discriminate.
  - exfalso. apply H. apply commonpath_within. exact Hc.
  - rewrite (try_paths_find realpath_abs).
    rewrite find_all_false; [reflexivity|].
    intros cand Hin. apply rejected_candidate. apply H. exact Hin.
Qed.

(** With a leading slash, the base path is the normalised logical path
    itself. *)
Lemma base_path_leading_slash (page : str) :
  startswith "/" page = true -> rstrip "/" page <> [] ->
  base_path_of page = os_path.normpath (rstrip "/" page).
Proof.
  intros H Hne. unfold base_path_of, os_path.join.
  apply startswith_slash in H as [r ->].
  destruct (rstrip_keeps_head "/" r) as [E | [r' E]]; [contradiction|].
  rewrite E. reflexivity.
Qed.

(** C2 (amended): a logical path with a [..] segment, or with a segment
    that starts with a dot, or with a leading slash and naming (once its
    trailing slashes are stripped) a non-empty path that normalises to a
    place outside the document root, or all of whose existing candidates
    have a real path outside the document root, gives the not-found
    result. *)
Theorem C2_rejected_paths_not_found (page : str) :
  In (lit "..") (split "/" page)
  \/ (exists seg, In seg (split "/" page) /\ startswith "." seg = true)
  \/ (startswith "/" page = true /\ rstrip "/" page <> []
      /\ ~ within root_dir (os_path.normpath (rstrip "/" page)))
  \/ (forall cand, In cand (candidates page) -> fs_exists cand = true ->
        ~ within root_dir (fs_realpath cand)) ->
  load_doc_page page = ([], Ok NOT_FOUND).
Proof.
  intros H. apply rejected_not_found.
  destruct H as [H | [H | [[H1 [H2 H3]] | H]]].
  - left. exact H.
  - right. left. exact H.
  - right. right. left. rewrite (base_path_leading_slash _ H1 H2). exact H3.
  - right. right. right. intros cand Hin.
    destruct (fs_exists cand) eqn:E; [|left; reflexivity].
    right. right. apply H; assumption.
Qed.

(** C4 (amended): the candidates are tried in order, [basePath + ".md"]
    then [basePath/index.md]; a candidate that does not exist, whose real
    basename is [README.md], or whose real path fails the containment test
    is skipped and the next one is tried; the first candidate that passes
    is the file that is read, and the result is "not found" only when
    neither passes. *)
Theorem C4_candidates_fall_through (page : str) :
  lexical_checks page = true ->
  load_doc_page page =
    if passes_checks (base_path_of page ++ lit ".md")
    then read_and_render (fs_realpath (base_path_of page ++ lit ".md"))
    else if passes_checks (os_path.join (base_path_of page) "index.md")
         then read_and_render (fs_realpath (os_path.join (base_path_of page) "index.md"))
         else ([], Ok NOT_FOUND).
Proof.
  intros H. rewrite (load_doc_page_lexical _ H), (try_paths_find realpath_abs).
  unfold candidates. cbn [List.find].
  destruct (passes_checks (base_path_of page ++ lit ".md")); [reflexivity|].
  destruct (passes_checks (os_path.join (base_path_of page) "index.md")); reflexivity.
Qed.

(** C8: when the first candidate that passed the existence check and the
    security checks cannot be read, [load_doc_page] raises the exception
    of [open]; it does not return the not-found value. *)
Theorem C8_read_failure_propagates (page cand : str) (e : exn) :
  lexical_checks page = true ->
  List.find passes_checks (candidates page) = Some cand ->
  fs_open_read (fs_realpath cand) = Raise e ->
  load_doc_page page = ([fs_realpath cand], Raise e)
  /\ snd (load_doc_page page) <> Ok NOT_FOUND.
Proof.
  intros Hlex Hfind Hopen.
  assert (E : load_doc_page page = ([fs_realpath cand], Raise e)).
  { rewrite (load_doc_page_lexical _ Hlex), (try_paths_find realpath_abs), Hfind.
    unfold read_and_render. rewrite Hopen. reflexivity. }
  split; [exact E|]. rewrite E. discriminate.
Qed.

(** C9: every way in which [load_doc_page] turns a request down (a [..]
    segment, a base path outside the root, a segment that starts with a
    dot, candidates that do not exist, have a [README.md] real basename
    or a real path outside the root) returns the same value, the empty
    metadata and no HTML, with no file opened; and whenever it returns
    without HTML, this is the value returned. *)
Theorem C9_rejections_indistinguishable (page : str) :
  (In (lit "..") (split "/" page)
   \/ (exists seg, In seg (split "/" page) /\ startswith "." seg = true)
   \/ ~ within root_dir (base_path_of page)
   \/ (forall cand, In cand (candidates page) ->
         fs_exists cand = false
         \/ os_path.basename (fs_realpath cand) = lit "README.md"
         \/ ~ within root_dir (fs_realpath cand)) ->
   load_doc_page page = ([], Ok ([], None)))
  /\ (forall opened meta,
        load_doc_page page = (opened, Ok (meta, None)) ->
        opened = [] /\ meta = []).
Proof.
  split; [apply rejected_not_found|].
  intros opened meta. rewrite load_doc_page_steps. unfold NOT_FOUND.
  destruct (existsb (str_eqb "..") (split "/" page));
    [intros H; injection H as <- <-; split; reflexivity|].
  destruct (os_path.commonpath [base_path_of page; root_dir]) as [common|e];
    [|discriminate].
  destruct (negb (str_eqb common root_dir));
    [intros H; injection H as <- <-; split; reflexivity|].
  destruct (existsb (startswith ".") (split "/" (rstrip "/" page)));
    [intros H; injection H as <- <-; split; reflexivity|].
  apply try_paths_absent.
Qed.

End Rejections.

(** ** The resolver on the sample tree *)

Lemma sample_realpath_absolute : realpath_absolute sample_fs.
Proof.
  intros p. cbn [fs_realpath sample_fs]. unfold sample_links. cbn [lookup].
  destruct (str_eqb _ p); [reflexivity|].
  destruct (str_eqb _ p); [reflexivity|].
  destruct (startswith "/" p) eqn:E; [exact E | reflexivity].
Qed.

Lemma outside_sample_root (p : str) :
  match os_path.components p with
  | s :: d :: _ => negb (str_eqb s "srv" && str_eqb d "docs")
  | _ => true
  end = true ->
  ~ within sample_root p.
Proof.
  intros H [rest E]. rewrite E in H. vm_compute in H. discriminate.
Qed.

(** The file read for [guide] is [/srv/docs/guide.md]. *)
Lemma C1_witness :
  sample_load_doc_page "guide"
  = ([lit "/srv/docs/guide.md"], Ok ([], Some (lit "Guide")))
  /\ exists cand text,
       In cand (sample_candidates "guide")
       /\ @fs_exists sample_fs cand = true
       /\ [lit "/srv/docs/guide.md"] = [@fs_realpath sample_fs cand]
       /\ @fs_open_read sample_fs (@fs_realpath sample_fs cand) = Ok text
       /\ @render strict_urllib sample_markdown sample_bleach text
          = Ok ([], Some (lit "Guide"))
       /\ within sample_root (@fs_realpath sample_fs cand)
       /\ os_path.basename (@fs_realpath sample_fs cand) <> lit "README.md".
Proof.
  split; [reflexivity|].
  apply (@C1_resolved_file_invariant strict_urllib sample_fs sample_markdown
           sample_bleach "guide").
  reflexivity.
Defined.

(** C2, as stated, fails: a logical path with a leading slash that names
    a file inside the root is served, and so is a path whose first
    existing candidate is a symbolic link out of the root when the second
    candidate is acceptable. *)
Lemma C2_counterexample :
  (startswith "/" "/srv/docs/guide" = true
   /\ sample_load_doc_page "/srv/docs/guide"
      = ([lit "/srv/docs/guide.md"], Ok ([], Some (lit "Guide"))))
  /\ (List.find (@fs_exists sample_fs) (sample_candidates "x")
      = Some (lit "/srv/docs/x.md")
      /\ ~ within sample_root (@fs_realpath sample_fs "/srv/docs/x.md")
      /\ sample_load_doc_page "x"
         = ([lit "/srv/docs/x/index.md"], Ok ([], Some (lit "X")))).
Proof.
  split; [split; reflexivity|].
  split; [reflexivity|]. split; [|reflexivity].
  apply outside_sample_root. reflexivity.
Qed.

Lemma C2_witness :
  (startswith "/" "/etc/passwd" = true
   /\ rstrip "/" "/etc/passwd" <> []
   /\ ~ within sample_root (os_path.normpath (rstrip "/" "/etc/passwd")))
  /\ sample_load_doc_page "/etc/passwd" = ([], Ok ([], None)).
Proof.
  assert (H : startswith "/" "/etc/passwd" = true
              /\ rstrip "/" "/etc/passwd" <> []
              /\ ~ within sample_root (os_path.normpath (rstrip "/" "/etc/passwd"))).
  { split; [reflexivity|]. split; [discriminate|].
    apply outside_sample_root. reflexivity. }
  split; [exact H|].
  apply (@C2_rejected_paths_not_found strict_urllib sample_fs sample_markdown
           sample_bleach sample_realpath_absolute "/etc/passwd").
  right. right. left. exact H.
Defined.

(** C4, as stated, fails: the first existing candidate of [x] is a link
    out of the root, and the first existing candidate of [team] is a link
    to a [README.md]; both requests fall through to [index.md] and are
    served. *)
Lemma C4_counterexample :
  (List.find (@fs_exists sample_fs) (sample_candidates "x")
   = Some (lit "/srv/docs/x.md")
   /\ ~ within sample_root (@fs_realpath sample_fs "/srv/docs/x.md")
   /\ sample_load_doc_page "x"
      = ([lit "/srv/docs/x/index.md"], Ok ([], Some (lit "X"))))
  /\ (List.find (@fs_exists sample_fs) (sample_candidates "team")
      = Some (lit "/srv/docs/team.md")
      /\ os_path.basename (@fs_realpath sample_fs "/srv/docs/team.md")
         = lit "README.md"
      /\ sample_load_doc_page "team"
         = ([lit "/srv/docs/team/index.md"], Ok ([], Some (lit "Team")))).
Proof.
  split.
  - split; [reflexivity|]. split; [|reflexivity].
    apply outside_sample_root. reflexivity.
  - repeat split; reflexivity.
Qed.

Lemma C4_witness :
  @lexical_checks sample_fs "x" = true
  /\ sample_load_doc_page "x"
     = @read_and_render strict_urllib sample_fs sample_markdown sample_bleach
         "/srv/docs/x/index.md".
Proof.
  split; [reflexivity|]. unfold sample_load_doc_page.
  rewrite (@C4_candidates_fall_through strict_urllib sample_fs sample_markdown
             sample_bleach sample_realpath_absolute "x" eq_refl).
  reflexivity.
Defined.

(** [/srv/docs/gone.md] exists and passes the checks, but cannot be
    opened. *)
Lemma C8_witness :
  sample_load_doc_page "gone"
  = ([lit "/srv/docs/gone.md"], Raise (OSError "/srv/docs/gone.md"))
  /\ snd (sample_load_doc_page "gone") <> Ok ([], None).
Proof.
  apply (@C8_read_failure_propagates strict_urllib sample_fs sample_markdown
           sample_bleach sample_realpath_absolute "gone" "/srv/docs/gone.md"
           (OSError "/srv/docs/gone.md")); reflexivity.
Defined.

Lemma C9_witness :
  sample_load_doc_page ".git/config" = ([], Ok ([], None))
  /\ sample_load_doc_page "nothing" = ([], Ok ([], None)).
Proof.
  split.
  - apply (proj1 (@C9_rejections_indistinguishable strict_urllib sample_fs
                    sample_markdown sample_bleach sample_realpath_absolute
                    ".git/config")).
    right. left. exists (lit ".git"). split; [left; reflexivity | reflexivity].
  - apply (proj1 (@C9_rejections_indistinguishable strict_urllib sample_fs
                    sample_markdown sample_bleach sample_realpath_absolute
                    "nothing")).
    right. right. right. intros cand [<- | [<- | []]]; left; reflexivity.
Defined.

(** ** The link rewriter *)

(** *** Suffixes *)

Lemma skipn_length_app {A} (r p : list A) : skipn (length r) (r ++ p) = p.
Proof. induction r as [|a r IH]; simpl; [reflexivity | exact IH]. Qed.

Lemma firstn_length_app {A} (r p : list A) : firstn (length r) (r ++ p) = r.
Proof. induction r as [|a r IH]; simpl; [reflexivity | rewrite IH; reflexivity]. Qed.

Lemma endswith_iff (p s : str) : endswith p s = true <-> exists r, s = r ++ p.
Proof.
  unfold endswith. split.
  - intros H. apply andb_true_iff in H as [H1 H2].
    apply str_eqb_eq in H2. exists (firstn (length s - length p) s).
    rewrite <- H2 at 2. symmetry. apply firstn_skipn.
  - intros [r ->]. rewrite length_app.
    replace (length r + length p - length p) with (length r) by lia.
    rewrite skipn_length_app, str_eqb_refl, andb_true_r.
    apply Nat.leb_le. lia.
Qed.

Lemma endswith_false (p s : str) :
  endswith p s = false <-> forall r, s <> r ++ p.
Proof.
  split.
  - intros H r E. assert (endswith p s = true) by (apply endswith_iff; eauto).
    congruence.
  - intros H. destruct (endswith p s) eqn:E; [|reflexivity].
    apply endswith_iff in E as [r E]. exfalso. exact (H r E).
Qed.

Lemma drop_last_app (r p : str) : drop_last (length p) (r ++ p) = r.
Proof.
  unfold drop_last. rewrite length_app.
  replace (length r + length p - length p) with (length r) by lia.
  apply firstn_length_app.
Qed.

Lemma drop_last_md (stem : str) : drop_last 3 (stem ++ lit ".md") = stem.
Proof. exact (drop_last_app stem (lit ".md")). Qed.

(** *** [rstrip] *)

Lemma rstrip_app_sep (c : ascii) (s : str) (k : nat) :
  rstrip c (s ++ repeat c k) = rstrip c s.
Proof.
  unfold rstrip. induction s as [|a s IH].
  - cbn [app]. apply rstrip_by_nil. induction k; simpl; [reflexivity|].
    rewrite chr_eqb_refl. assumption.
  - cbn [app]. rewrite !rstrip_by_cons, IH. reflexivity.
Qed.

Lemma rstrip_fixed (c : ascii) (s : str) :
  (forall r, s <> r ++ [c]) -> rstrip c s = s.
Proof.
  unfold rstrip. induction s as [|a s IH]; intros H; [reflexivity|].
  rewrite rstrip_by_cons.
  destruct s as [|b s].
  - cbn [rstrip_by is_empty]. rewrite andb_true_r.
    destruct (chr_eqb c a) eqn:E; [|reflexivity].
    apply chr_eqb_eq in E. subst a. exfalso. apply (H []). reflexivity.
  - rewrite IH.
    + cbn [is_empty]. rewrite andb_false_r. reflexivity.
    + intros r E. apply (H (a :: r)). rewrite E. reflexivity.
Qed.

Lemma rstrip_split (c : ascii) (s : str) :
  exists k, s = rstrip c s ++ repeat c k /\ forall r, rstrip c s <> r ++ [c].
Proof.
  unfold rstrip. induction s as [|a s [k [IH1 IH2]]].
  - exists 0. split; [reflexivity|]. intros [|x r]; discriminate.
  - rewrite rstrip_by_cons.
    destruct (chr_eqb c a && is_empty (rstrip_by (chr_eqb c) s)) eqn:E.
    + apply andb_true_iff in E as [E1 E2]. apply chr_eqb_eq in E1. subst a.
      apply is_empty_true in E2. rewrite E2 in IH1. cbn [app] in IH1.
      exists (S k). split; [cbn [app repeat]; congruence|].
      intros [|x r]; discriminate.
    + exists k. split; [cbn [app]; congruence|].
      intros r Hr. apply andb_false_iff in E as [E | E].
      * destruct r as [|x r].
        -- cbn [app] in Hr. injection Hr as Ha Hs. apply chr_eqb_neq in E. congruence.
        -- cbn [app] in Hr. injection Hr as Ha Hs. exact (IH2 r Hs).
      * destruct r as [|x r].
        -- cbn [app] in Hr. injection Hr as Ha Hs. rewrite Hs in E. discriminate.
        -- cbn [app] in Hr. injection Hr as Ha Hs. exact (IH2 r Hs).
Qed.

(** *** The rewritten path, as the specification words it *)

Lemma rewrite_path_spec (path : str) : rewritten_path path (rewrite_path path).
Proof.
  unfold rewrite_path.
  destruct (rstrip_split "/" path) as [k [Hk Hns]].
  destruct (endswith ".md" (rstrip "/" path)) eqn:E.
  - apply endswith_iff in E as [stem E].
    rewrite E, drop_last_md.
    apply (rewritten_md path k stem). rewrite Hk at 1. rewrite E, <- app_assoc.
    reflexivity.
  - apply (rewritten_plain path k (rstrip "/" path)); [exact Hk | exact Hns |].
    apply endswith_false. exact E.
Qed.

Lemma rewritten_path_fun (path new : str) :
  rewritten_path path new -> new = rewrite_path path.
Proof.
  unfold rewrite_path. intros [k stem E | k stem E Hs Hmd]; subst path.
  - rewrite app_assoc, rstrip_app_sep.
    rewrite (rstrip_fixed "/" (stem ++ lit ".md")).
    + assert (H : endswith ".md" (stem ++ lit ".md") = true)
        by (apply endswith_iff; exists stem; reflexivity).
      rewrite H, drop_last_md. reflexivity.
    + intros r H. apply (f_equal (@rev ascii)) in H.
      rewrite !rev_app_distr in H. discriminate.
  - rewrite rstrip_app_sep, (rstrip_fixed "/" stem Hs).
    assert (H : endswith ".md" stem = false) by (apply endswith_false; exact Hmd).
    rewrite H. reflexivity.
Qed.

(** *** Dictionaries *)

Lemma dict_get_set (d : list (str * str)) (key value : str) :
  dict_get (dict_set d key value) key = Some value.
Proof.
  induction d as [|[k v] d IH]; simpl.
  - rewrite str_eqb_refl. reflexivity.
  - destruct (str_eqb k key) eqn:E; simpl; rewrite E; [reflexivity | exact IH].
Qed.

Lemma dict_get_set_other (d : list (str * str)) (key value other : str) :
  other <> key ->
  dict_get (dict_set d key value) other = dict_get d other.
Proof.
  intros Hne. induction d as [|[k v] d IH]; simpl.
  - assert (str_eqb key other = false) as ->
      by (apply str_eqb_neq; congruence). reflexivity.
  - destruct (str_eqb k key) eqn:E; simpl.
    + apply str_eqb_eq in E. subst k.
      assert (str_eqb key other = false) as ->
        by (apply str_eqb_neq; congruence). reflexivity.
    + destruct (str_eqb k other); [reflexivity | exact IH].
Qed.

Section LinkRewriterClaims.
Context {U : Urllib}.
Import urllib_parse.

(** [handle_element] on an element: the children, then the element. *)
Lemma handle_element_eq (tg : str) (at_ : list (str * str))
    (tx tl : option str) (cs : list Element) :
  handle_element (mkElement tg at_ tx tl cs) =
  cs' <- handle_children cs ;;
  if str_eqb tg "a" then
    match dict_get at_ "href" with
    | Some href =>
        new <- rewrite_href href ;;
        match new with
        | Some value => Ok (mkElement tg (dict_set at_ "href" value) tx tl cs')
        | None => Ok (mkElement tg at_ tx tl cs')
        end
    | None => Ok (mkElement tg at_ tx tl cs')
    end
  else Ok (mkElement tg at_ tx tl cs').
Proof.
  cbn [handle_element].
  match goal with
  | |- bind ?X _ = _ => assert (E : X = handle_children cs)
  end.
  { induction cs as [|c cs IH]; [reflexivity|].
    cbn [handle_children]. rewrite <- IH. reflexivity. }
  rewrite E. reflexivity.
Qed.

(** What the pass does to an anchor with an [href], once its children
    are done. *)
Lemma handle_anchor (e : Element) (cs' : list Element) (href : str) :
  tag e = lit "a" -> get e "href" = Some href ->
  handle_children (children e) = Ok cs' ->
  handle_element e =
  new <- rewrite_href href ;;
  match e with
  | mkElement tg at_ tx tl _ =>
      match new with
      | Some value => Ok (mkElement tg (dict_set at_ "href" value) tx tl cs')
      | None => Ok (mkElement tg at_ tx tl cs')
      end
  end.
Proof.
  destruct e as [tg at_ tx tl cs]. unfold get. cbn [tag attrib children].
  intros -> Hget Hcs. rewrite handle_element_eq, Hcs. cbn [bind].
  rewrite Hget. reflexivity.
Qed.

(** C6: for an anchor whose [href] parses with an authority, the pass
    leaves the attributes of the element, and so its [href], as they
    were. *)
Theorem C6_external_href_unchanged
    (e : Element) (cs' : list Element) (href : str) (parts : SplitResult) :
  tag e = lit "a" -> get e "href" = Some href ->
  urlsplit href = Ok parts -> netloc parts <> [] ->
  handle_children (children e) = Ok cs' ->
  exists e',
    handle_element e = Ok e'
    /\ attrib e' = attrib e
    /\ get e' "href" = Some href.
Proof.
  intros Htag Hget Hsplit Hnet Hcs.
  rewrite (handle_anchor e cs' href Htag Hget Hcs).
  unfold rewrite_href. rewrite Hsplit. cbn [bind].
  destruct (netloc parts) as [|a n] eqn:E; [contradiction|]. cbn [is_empty].
  destruct e as [tg at_ tx tl cs]. eexists.
  split; [reflexivity|]. split; [reflexivity | exact Hget].
Qed.

(** C10: for an anchor whose [href] parses without authority and with an
    empty path, the path of the new [href] is ["/"]; [href="#sec"]
    becomes [href="/#sec"], and an empty [href] becomes ["/"]. *)
Theorem C10_empty_path_becomes_root :
  (forall (e : Element) (cs' : list Element) (href : str) (parts : SplitResult),
     tag e = lit "a" -> get e "href" = Some href ->
     urlsplit href = Ok parts -> netloc parts = [] -> path parts = [] ->
     handle_children (children e) = Ok cs' ->
     exists e',
       handle_element e = Ok e'
       /\ get e' "href"
          = Some (urlunsplit (mkSplitResult (scheme parts) (lit "") (lit "/")
                                            (query parts) (fragment parts))))
  /\ handle_element (anchor "#sec") = Ok (anchor "/#sec")
  /\ handle_element (anchor "") = Ok (anchor "/").
Proof.
  split; [|split; reflexivity].
  intros e cs' href parts Htag Hget Hsplit Hnet Hpath Hcs.
  rewrite (handle_anchor e cs' href Htag Hget Hcs).
  unfold rewrite_href. rewrite Hsplit. cbn [bind].
  rewrite Hnet, Hpath. cbn [is_empty].
  destruct e as [tg at_ tx tl cs]. eexists.
  split; [reflexivity|]. unfold get. cbn [attrib]. apply dict_get_set.
Qed.

End LinkRewriterClaims.

(** ** The link rewriter on sample links *)

Lemma C6_witness :
  sample_urlsplit "https://example.com/x.md"
  = Ok (mkSplitResult "https" "example.com" "/x.md" "" "")
  /\ exists e',
       sample_handle_element (anchor "https://example.com/x.md") = Ok e'
       /\ attrib e' = attrib (anchor "https://example.com/x.md")
       /\ get e' "href" = Some (lit "https://example.com/x.md").
Proof.
  split; [reflexivity|].
  apply (@C6_external_href_unchanged strict_urllib
           (anchor "https://example.com/x.md") [] "https://example.com/x.md"
           (mkSplitResult "https" "example.com" "/x.md" "" ""));
    try reflexivity.
  discriminate.
Defined.

Lemma C10_witness :
  sample_urlsplit "?page=2" = Ok (mkSplitResult "" "" "" "page=2" "")
  /\ exists e',
       sample_handle_element (anchor "?page=2") = Ok e'
       /\ get e' "href" = Some (lit "/?page=2").
Proof.
  split; [reflexivity|].
  apply (proj1 (@C10_empty_path_becomes_root strict_urllib) (anchor "?page=2") []
           "?page=2" (mkSplitResult "" "" "" "page=2" ""));
    reflexivity.
Defined.

(** C3, as stated, fails: one pass turns [foo.md.md] into [foo.md/], and
    a second pass turns that into [foo/]. *)
Lemma C3_counterexample :
  sample_urlsplit "foo.md.md" = Ok (mkSplitResult "" "" "foo.md.md" "" "")
  /\ sample_handle_element (anchor "foo.md.md") = Ok (anchor "foo.md/")
  /\ sample_handle_element (anchor "foo.md/") = Ok (anchor "foo/")
  /\ anchor "foo.md/" <> anchor "foo/".
Proof. repeat split; try reflexivity. discriminate. Qed.

(** ** Parsing a rewritten link again *)

(** *** Characters *)

Ltac by_all_chars a :=
  destruct a as [[] [] [] [] [] [] [] []]; vm_compute;
  try (intros; discriminate);
  intros; repeat split; try reflexivity; try discriminate;
  try (intros; discriminate).

Lemma scheme_char_facts (a : ascii) :
  urllib_parse.is_scheme_char a = true ->
  a <> ":"%char /\ a <> "/"%char /\ a <> "?"%char /\ a <> "#"%char
  /\ safe_chr a = true
  /\ urllib_parse.is_scheme_char (urllib_parse.lower_chr a) = true.
Proof. by_all_chars a. Qed.

Lemma alpha_facts (a : ascii) :
  urllib_parse.is_ascii_alpha a = true ->
  urllib_parse.is_c0_control_or_space a = false
  /\ urllib_parse.is_ascii_alpha (urllib_parse.lower_chr a) = true.
Proof. by_all_chars a. Qed.

Lemma not_c0_safe (a : ascii) :
  urllib_parse.is_c0_control_or_space a = false -> safe_chr a = true.
Proof. by_all_chars a. Qed.

Lemma lower_chr_idem (a : ascii) :
  urllib_parse.lower_chr (urllib_parse.lower_chr a) = urllib_parse.lower_chr a.
Proof. by_all_chars a. Qed.

(** *** Searching and cutting *)

Lemma contains_iff (c : ascii) (s : str) : contains c s = true <-> In c s.
Proof.
  unfold contains. rewrite existsb_exists. split.
  - intros [x [Hin E]]. apply chr_eqb_eq in E. subst. exact Hin.
  - intros H. exists c. split; [exact H | apply chr_eqb_refl].
Qed.

Lemma contains_false (c : ascii) (s : str) : contains c s = false <-> ~ In c s.
Proof.
  rewrite <- contains_iff. destruct (contains c s); split; congruence.
Qed.

Lemma find_app (c : ascii) (a b : str) :
  ~ In c a -> find c (a ++ c :: b) = Some (length a).
Proof.
  induction a as [|x a IH]; intros H; cbn [app find length].
  - rewrite chr_eqb_refl. reflexivity.
  - assert (chr_eqb x c = false) as ->
      by (apply chr_eqb_neq; intros ->; apply H; left; reflexivity).
    rewrite IH by (intros H'; apply H; right; exact H'). reflexivity.
Qed.

Lemma find_some (c : ascii) (s : str) (i : nat) :
  find c s = Some i ->
  exists a b, s = a ++ c :: b /\ ~ In c a /\ length a = i.
Proof.
  revert i; induction s as [|x s IH]; intros i; cbn [find]; [discriminate|].
  destruct (chr_eqb x c) eqn:E.
  - intros H; injection H as <-. apply chr_eqb_eq in E. subst x.
    exists [], s. split; [reflexivity|]. split; [intros []|reflexivity].
  - destruct (find c s) as [j|]; [|discriminate]. cbn [option_map].
    intros H; injection H as <-.
    destruct (IH j eq_refl) as [a [b [-> [Hn Hl]]]].
    exists (x :: a), b. split; [reflexivity|]. split; [|simpl; congruence].
    apply chr_eqb_neq in E. intros [H|H]; [congruence | contradiction].
Qed.

Lemma find_none (c : ascii) (s : str) : find c s = None -> ~ In c s.
Proof.
  induction s as [|x s IH]; cbn [find]; [intros _ []|].
  destruct (chr_eqb x c) eqn:E; [discriminate|].
  destruct (find c s); [discriminate|]. intros _ [H|H].
  - apply chr_eqb_neq in E. congruence.
  - exact (IH eq_refl H).
Qed.

Lemma split_once_app (c : ascii) (a b : str) :
  ~ In c a -> split_once c (a ++ c :: b) = (a, b).
Proof.
  induction a as [|x a IH]; intros H; cbn [app split_once].
  - rewrite chr_eqb_refl. reflexivity.
  - assert (chr_eqb x c = false) as ->
      by (apply chr_eqb_neq; intros ->; apply H; left; reflexivity).
    rewrite IH by (intros H'; apply H; right; exact H'). reflexivity.
Qed.

Lemma split_at_app (c : ascii) (x f : str) :
  ~ In c x -> split_at c (x ++ opt_part c f) = (x, f).
Proof.
  intros H. unfold split_at, opt_part. destruct f as [|y f]; cbn [is_empty negb].
  - rewrite app_nil_r. apply contains_false in H. rewrite H. reflexivity.
  - assert (contains c (x ++ c :: y :: f) = true) as ->
      by (apply contains_iff, in_or_app; right; left; reflexivity).
    apply split_once_app. exact H.
Qed.

Lemma split_at_inv (c : ascii) (y x f : str) :
  split_at c y = (x, f) ->
  ~ In c x /\ ((y = x /\ f = []) \/ y = x ++ c :: f).
Proof.
  unfold split_at. destruct (contains c y) eqn:E.
  - apply contains_iff in E. apply in_split in E as [a0 [b0 E0]].
    (* cut at the first occurrence *)
    destruct (find c y) as [i|] eqn:Hf.
    + destruct (find_some _ _ _ Hf) as [a [b [-> [Hn _]]]].
      rewrite (split_once_app _ _ b Hn). intros H; injection H as <- <-.
      split; [exact Hn | right; reflexivity].
    + exfalso. apply (find_none _ _ Hf). rewrite E0.
      apply in_or_app. right. left. reflexivity.
  - intros H; injection H as <- <-. apply contains_false in E.
    split; [exact E | left; split; reflexivity].
Qed.

(** *** The scheme *)

Lemma scheme_word_no_colon (s : str) : scheme_word s -> ~ In ":"%char s.
Proof.
  intros [_ [_ H]] Hin. rewrite forallb_forall in H.
  destruct (scheme_char_facts _ (H _ Hin)) as [Hc _]. congruence.
Qed.

Lemma hd_app_nonempty (d : ascii) (s t : str) : s <> [] -> hd d (s ++ t) = hd d s.
Proof. destruct s; [contradiction | reflexivity]. Qed.

Lemma split_scheme_word (s rest : str) :
  scheme_word s ->
  urllib_parse.split_scheme (s ++ ":"%char :: rest) = (urllib_parse.lower s, rest).
Proof.
  intros Hs. pose proof (scheme_word_no_colon _ Hs) as Hn.
  destruct Hs as [Hne [Ha Hall]].
  unfold urllib_parse.split_scheme. rewrite (find_app _ _ rest Hn).
  rewrite hd_app_nonempty by exact Hne.
  rewrite firstn_length_app, Ha, Hall.
  assert ((0 <? length s)%nat = true) as ->
    by (apply Nat.ltb_lt; destruct s; [contradiction | simpl; lia]).
  cbn [andb].
  replace (skipn (S (length s)) (s ++ ":"%char :: rest)) with rest; [reflexivity|].
  change (S (length s)) with (1 + length s). rewrite <- skipn_skipn.
  rewrite skipn_length_app. reflexivity.
Qed.

Lemma split_scheme_inv (u sch r : str) :
  urllib_parse.split_scheme u = (sch, r) ->
  (sch = [] /\ r = u /\ forall s rest, scheme_word s -> u <> s ++ ":"%char :: rest)
  \/ (exists s, scheme_word s /\ sch = urllib_parse.lower s /\ u = s ++ ":"%char :: r).
Proof.
  intros H.
  assert (Hcases :
    (exists s rest, scheme_word s /\ u = s ++ ":"%char :: rest)
    \/ (forall s rest, scheme_word s -> u <> s ++ ":"%char :: rest)).
  { unfold urllib_parse.split_scheme in H.
    destruct (find ":" u) as [i|] eqn:Hf.
    - destruct (find_some _ _ _ Hf) as [a [b [E [Hn Hl]]]].
      destruct ((0 <? i)%nat && urllib_parse.is_ascii_alpha (hd "000"%char u)
                && forallb urllib_parse.is_scheme_char (firstn i u)) eqn:Hc.
      + left. exists a, b. split; [|exact E].
        apply andb_true_iff in Hc as [Hc H3]. apply andb_true_iff in Hc as [H1 H2].
        apply Nat.ltb_lt in H1.
        assert (Ha : a <> []) by (intros ->; simpl in Hl; lia).
        subst u. rewrite <- Hl, firstn_length_app in H3.
        rewrite hd_app_nonempty in H2 by exact Ha.
        repeat split; assumption.
      + right. intros s rest Hs E'. rewrite E' in Hc.
        pose proof (scheme_word_no_colon _ Hs) as Hns.
        rewrite E', (find_app _ _ rest Hns) in Hf. injection Hf as <-.
        destruct Hs as [Hne [Ha Hall]].
        rewrite hd_app_nonempty, firstn_length_app, Ha, Hall in Hc by exact Hne.
        assert ((0 <? length s)%nat = true) as Hl0
          by (apply Nat.ltb_lt; destruct s; [contradiction | simpl; lia]).
        rewrite Hl0 in Hc. discriminate.
    - right. intros s rest Hs E'. apply (find_none _ _ Hf).
      rewrite E'. apply in_or_app. right. left. reflexivity. }
  destruct Hcases as [[s [rest [Hs E]]] | Hno].
  - right. exists s. rewrite E, (split_scheme_word s rest Hs) in H.
    injection H as <- <-. split; [exact Hs|]. split; [reflexivity | exact E].
  - left. unfold urllib_parse.split_scheme in H.
    destruct (find ":" u) as [i|] eqn:Hf; [|injection H as <- <-; auto].
    destruct ((0 <? i)%nat && urllib_parse.is_ascii_alpha (hd "000"%char u)
              && forallb urllib_parse.is_scheme_char (firstn i u)) eqn:Hc;
      [|injection H as <- <-; auto].
    exfalso.
    destruct (find_some _ _ _ Hf) as [a [b [E [Hn Hl]]]].
    apply andb_true_iff in Hc as [Hc H3]. apply andb_true_iff in Hc as [H1 H2].
    apply Nat.ltb_lt in H1.
    assert (Ha : a <> []) by (intros ->; simpl in Hl; lia).
    apply (Hno a b); [|exact E].
    subst u. rewrite <- Hl, firstn_length_app in H3.
    rewrite hd_app_nonempty in H2 by exact Ha.
    repeat split; assumption.
Qed.

Lemma lower_scheme_word (s : str) :
  scheme_word s ->
  scheme_word (urllib_parse.lower s)
  /\ urllib_parse.lower (urllib_parse.lower s) = urllib_parse.lower s.
Proof.
  intros [Hne [Ha Hall]]. unfold urllib_parse.lower. split.
  - repeat split.
    + destruct s; [contradiction | discriminate].
    + destruct s as [|a s]; [contradiction|]. cbn [map hd] in *.
      apply alpha_facts. exact Ha.
    + rewrite forallb_forall in *. intros x Hx.
      apply in_map_iff in Hx as [y [<- Hy]].
      apply scheme_char_facts. apply Hall. exact Hy.
  - rewrite map_map. apply map_ext. intros a. apply lower_chr_idem.
Qed.

(** *** Stripping and removing *)

Lemma filter_filter {A} (f g : A -> bool) (l : list A) :
  filter f (filter g l) = filter (fun x => g x && f x) l.
Proof.
  induction l as [|x l IH]; cbn [filter]; [reflexivity|].
  destruct (g x); cbn [filter andb]; rewrite IH; reflexivity.
Qed.

Lemma filter_id {A} (f : A -> bool) (l : list A) :
  forallb f l = true -> filter f l = l.
Proof.
  induction l as [|x l IH]; cbn [filter forallb]; [reflexivity|].
  intros H. apply andb_true_iff in H as [H1 H2]. rewrite H1, IH by exact H2.
  reflexivity.
Qed.

Lemma forallb_filter {A} (f : A -> bool) (l : list A) :
  forallb f (filter f l) = true.
Proof.
  apply forallb_forall. intros x Hx. apply filter_In in Hx. tauto.
Qed.

Lemma clean_url_filter (url : str) :
  clean_url url = filter safe_chr (lstrip_by urllib_parse.is_c0_control_or_space url).
Proof.
  unfold clean_url, urllib_parse._UNSAFE_URL_BYTES_TO_REMOVE, remove_char.
  cbn [fold_left]. rewrite !filter_filter. apply filter_ext.
  intros a. unfold safe_chr, urllib_parse._UNSAFE_URL_BYTES_TO_REMOVE.
  cbn [existsb]. rewrite orb_false_r, !negb_orb, andb_assoc. reflexivity.
Qed.

Lemma lstrip_by_head (f : ascii -> bool) (s : str) :
  lstrip_by f s = [] \/ f (hd "000"%char (lstrip_by f s)) = false.
Proof.
  induction s as [|a s IH]; cbn [lstrip_by]; [left; reflexivity|].
  destruct (f a) eqn:E; [exact IH | right; exact E].
Qed.

Lemma lstrip_by_fixed (f : ascii -> bool) (s : str) :
  s = [] \/ f (hd "000"%char s) = false -> lstrip_by f s = s.
Proof.
  destruct s as [|a s]; [reflexivity|]. cbn [hd lstrip_by].
  intros [H | H]; [discriminate | rewrite H; reflexivity].
Qed.

(** A cleaned link has no removable character and does not start with a
    control character or a space. *)
Lemma clean_url_props (url : str) :
  forallb safe_chr (clean_url url) = true
  /\ (clean_url url = []
      \/ urllib_parse.is_c0_control_or_space (hd "000"%char (clean_url url)) = false).
Proof.
  rewrite clean_url_filter. split; [apply forallb_filter|].
  destruct (lstrip_by_head urllib_parse.is_c0_control_or_space url) as [-> | H];
    [left; reflexivity|].
  destruct (lstrip_by urllib_parse.is_c0_control_or_space url) as [|a s];
    [left; reflexivity|].
  cbn [hd] in H. right. cbn [filter]. rewrite (not_c0_safe _ H). exact H.
Qed.

Lemma clean_url_fixed (s : str) :
  forallb safe_chr s = true ->
  s = [] \/ urllib_parse.is_c0_control_or_space (hd "000"%char s) = false ->
  clean_url s = s.
Proof.
  intros H1 H2. rewrite clean_url_filter, lstrip_by_fixed by exact H2.
  apply filter_id. exact H1.
Qed.

(** *** The authority *)

Lemma find_from_some (c : ascii) (start w : nat) (url : str) :
  find_from c start url = Some w ->
  (start <= w)%nat /\ exists b, skipn w url = c :: b.
Proof.
  unfold find_from. destruct (find c (skipn start url)) as [i|] eqn:Hf;
    [|discriminate].
  cbn [option_map]. intros H; injection H as <-.
  destruct (find_some _ _ _ Hf) as [a [b [E [_ Hl]]]]. split; [lia|].
  exists b. rewrite Nat.add_comm, <- skipn_skipn, E, <- Hl.
  apply skipn_length_app.
Qed.

Lemma splitnetloc_rest (url : str) :
  let rest := snd (urllib_parse._splitnetloc url 2) in
  (rest = [] \/ exists c b, rest = c :: b /\ delimiter c)
  /\ exists pre, url = pre ++ rest.
Proof.
  unfold urllib_parse._splitnetloc. cbn [snd].
  set (step := fun (delim : nat) (c : ascii) =>
                 match find_from c 2 url with
                 | Some wdelim => Nat.min delim wdelim
                 | None => delim
                 end).
  assert (Hinv : forall cs d,
             Forall delimiter cs ->
             (skipn d url = [] \/ exists c b, skipn d url = c :: b /\ delimiter c) ->
             let d' := fold_left step cs d in
             skipn d' url = [] \/ exists c b, skipn d' url = c :: b /\ delimiter c).
  { induction cs as [|c cs IH]; intros d Hcs Hd; [exact Hd|].
    inversion Hcs as [|? ? Hc Hcs']; subst. cbn [fold_left].
    apply IH; [exact Hcs'|]. unfold step.
    destruct (find_from c 2 url) as [w|] eqn:Hf; [|exact Hd].
    destruct (Nat.min_spec d w) as [[_ ->] | [_ ->]]; [exact Hd|].
    right. destruct (find_from_some _ _ _ _ Hf) as [_ [b Hb]].
    exists c, b. split; assumption. }
  split.
  - apply Hinv.
    + constructor; [left; reflexivity|].
      constructor; [right; left; reflexivity|].
      constructor; [right; right; reflexivity | constructor].
    + left. apply skipn_all.
  - eexists. symmetry. apply firstn_skipn.
Qed.

Lemma split_authority_plain (r : str) :
  forall {U : Urllib}, startswith "//" r = false ->
  urllib_parse.split_authority r = Ok (lit "", r).
Proof. intros U H. unfold urllib_parse.split_authority. rewrite H. reflexivity. Qed.

Lemma split_authority_empty (x : str) :
  forall {U : Urllib},
  urllib_parse.split_authority (lit "//" ++ "/"%char :: x) = Ok (lit "", "/"%char :: x).
Proof.
  intros U. unfold urllib_parse.split_authority.
  change (lit "//" ++ "/"%char :: x) with ("/"%char :: "/"%char :: "/"%char :: x).
  change (startswith "//" ("/"%char :: "/"%char :: "/"%char :: x)) with true.
  cbv iota.
  assert (E : urllib_parse._splitnetloc ("/"%char :: "/"%char :: "/"%char :: x) 2
              = ([], "/"%char :: x)).
  { unfold urllib_parse._splitnetloc. cbn [fold_left].
    assert (H1 : find_from "/" 2 ("/"%char :: "/"%char :: "/"%char :: x) = Some 2)
      by reflexivity.
    rewrite H1.
    assert (Hmin : Nat.min (length ("/"%char :: "/"%char :: "/"%char :: x)) 2 = 2)
      by (cbn [length]; lia).
    rewrite Hmin.
    assert (Hstep : forall c,
               match find_from c 2 ("/"%char :: "/"%char :: "/"%char :: x) with
               | Some w => Nat.min 2 w
               | None => 2
               end = 2).
    { intros c. destruct (find_from c 2 _) as [w|] eqn:Hf; [|reflexivity].
      apply find_from_some in Hf as [Hle _]. lia. }
    rewrite !Hstep. reflexivity. }
  rewrite E. reflexivity.
Qed.

Lemma split_authority_inv (r r2 : str) :
  forall {U : Urllib},
  urllib_parse.split_authority r = Ok (lit "", r2) ->
  (startswith "//" r = false /\ r2 = r)
  \/ ((r2 = [] \/ exists c b, r2 = c :: b /\ delimiter c) /\ exists pre, r = pre ++ r2).
Proof.
  intros U. unfold urllib_parse.split_authority.
  destruct (startswith "//" r) eqn:E.
  - pose proof (splitnetloc_rest r) as Hrest. cbv zeta in Hrest.
    destruct (urllib_parse._splitnetloc r 2) as [nl rest]. cbn [snd] in Hrest.
    destruct (_ || _); [discriminate|].
    destruct (_ && _); [discriminate|].
    intros H. injection H as _ <-. right. exact Hrest.
  - intros H. injection H as <-. left. split; reflexivity.
Qed.

(** [urlsplit], stage by stage. *)
Lemma urlsplit_stages (url : str) :
  forall {U : Urllib},
  urllib_parse.urlsplit url =
  let (scheme, r) := urllib_parse.split_scheme (clean_url url) in
  ' (netloc, r2) <- urllib_parse.split_authority r ;;
  let (r3, fragment) := split_at "#" r2 in
  let (path, query) := split_at "?" r3 in
  _ <- urllib_parse._checknetloc netloc ;;
  Ok (mkSplitResult scheme netloc path query fragment).
Proof. reflexivity. Qed.

(** *** Writing and reading back *)

Lemma urlunsplit_no_authority (sch pth q frag : str) :
  urllib_parse.urlunsplit (mkSplitResult sch (lit "") pth q frag) =
  (if is_empty sch then [] else sch ++ [":"%char])
  ++ (if netloc_form sch pth then lit "//" ++ slashed pth else pth)
  ++ url_tail q frag.
Proof.
  unfold urllib_parse.urlunsplit, netloc_form, slashed, url_tail, opt_part.
  cbn [scheme netloc path query fragment is_empty negb orb].
  destruct (negb (is_empty sch) && existsb (str_eqb sch) urllib_parse.uses_netloc
            && negb (startswith "//" pth)) eqn:E.
  - assert (is_empty sch = false) as Hs.
    { destruct (is_empty sch); [discriminate | reflexivity]. }
    rewrite Hs. cbn [negb].
    destruct (is_empty q), (is_empty frag); cbn [negb app];
      repeat rewrite <- app_assoc; cbn [app]; repeat rewrite app_nil_r;
      reflexivity.
  - destruct (is_empty sch), (is_empty q), (is_empty frag); cbn [negb app];
      repeat rewrite <- app_assoc; cbn [app]; repeat rewrite app_nil_r;
      reflexivity.
Qed.

Lemma opt_part_head (c : ascii) (s : str) :
  opt_part c s = [] \/ exists b, opt_part c s = c :: b.
Proof.
  unfold opt_part. destruct (negb (is_empty s)); [right; eexists; reflexivity | left; reflexivity].
Qed.

Lemma url_tail_head (q frag : str) :
  url_tail q frag = []
  \/ exists c b, url_tail q frag = c :: b /\ (c = "?"%char \/ c = "#"%char).
Proof.
  unfold url_tail.
  destruct (opt_part_head "?" q) as [-> | [b ->]].
  - destruct (opt_part_head "#" frag) as [-> | [b ->]]; [left; reflexivity|].
    right. exists "#"%char, b. split; [reflexivity | right; reflexivity].
  - right. eexists _, _. split; [reflexivity | left; reflexivity].
Qed.

Lemma forallb_opt_part (f : ascii -> bool) (c : ascii) (s : str) :
  f c = true -> forallb f s = true -> forallb f (opt_part c s) = true.
Proof.
  intros Hc Hs. unfold opt_part. destruct (negb (is_empty s)); [|reflexivity].
  cbn [forallb]. rewrite Hc, Hs. reflexivity.
Qed.

Lemma not_in_opt_part (x c : ascii) (s : str) :
  x <> c -> ~ In x s -> ~ In x (opt_part c s).
Proof.
  intros Hc Hs. unfold opt_part. destruct (negb (is_empty s)); [|intros []].
  intros [H | H]; [congruence | contradiction].
Qed.

(** The fragment, query and authority-check stages on what was written. *)
Lemma parse_rest (sch X q frag : str) :
  forall {U : Urllib},
  ~ In "#"%char X -> ~ In "?"%char X -> ~ In "#"%char q ->
  (let (r3, fragment) := split_at "#" (X ++ url_tail q frag) in
   let (path, query) := split_at "?" r3 in
   _ <- urllib_parse._checknetloc (lit "") ;;
   Ok (mkSplitResult sch (lit "") path query fragment))
  = Ok (mkSplitResult sch (lit "") X q frag).
Proof.
  intros U H1 H2 H3. unfold url_tail. rewrite app_assoc.
  rewrite split_at_app.
  - rewrite split_at_app by exact H2. reflexivity.
  - intros H. apply in_app_or in H as [H | H]; [contradiction|].
    revert H. apply not_in_opt_part; [discriminate | exact H3].
Qed.

Lemma startswith_2_app (p t : str) :
  p <> [] -> startswith "//" p = false ->
  (t = [] \/ exists c b, t = c :: b /\ c <> "/"%char) ->
  startswith "//" (p ++ t) = false.
Proof.
  intros Hne Hp Ht. destruct p as [|a [|b p]]; [contradiction | |exact Hp].
  cbn [app]. destruct Ht as [-> | [c [b [-> Hc]]]].
  - cbn [startswith lit list_ascii_of_string]. rewrite andb_false_r. reflexivity.
  - cbn [startswith lit list_ascii_of_string].
    assert (chr_eqb "/" c = false) as -> by (apply chr_eqb_neq; congruence).
    cbn [andb]. apply andb_false_r.
Qed.

Lemma url_tail_not_slash (q frag : str) :
  url_tail q frag = [] \/ exists c b, url_tail q frag = c :: b /\ c <> "/"%char.
Proof.
  destruct (url_tail_head q frag) as [H | [c [b [H Hc]]]]; [left; exact H|].
  right. exists c, b. split; [exact H|]. destruct Hc as [-> | ->]; discriminate.
Qed.

Lemma slashed_head (pth : str) :
  pth <> [] -> exists y, slashed pth = "/"%char :: y.
Proof.
  intros Hne. unfold slashed. destruct pth as [|a p]; [contradiction|].
  cbn [is_empty negb andb].
  destruct (startswith "/" (a :: p)) eqn:E; cbn [negb].
  - apply startswith_slash in E as [r E]. exists r. exact E.
  - eexists. reflexivity.
Qed.

Lemma written_path_parts (sch pth : str) :
  written_path sch pth = pth \/ written_path sch pth = "/"%char :: pth.
Proof.
  unfold written_path, slashed.
  destruct (netloc_form sch pth); [|left; reflexivity].
  destruct (negb (is_empty pth) && negb (startswith "/" pth));
    [right | left]; reflexivity.
Qed.

Lemma slashed_parts (pth : str) : slashed pth = pth \/ slashed pth = "/"%char :: pth.
Proof.
  unfold slashed. destruct (negb (is_empty pth) && negb (startswith "/" pth));
    [right | left]; reflexivity.
Qed.

Lemma forallb_safe_tail (q frag : str) :
  forallb safe_chr q = true -> forallb safe_chr frag = true ->
  forallb safe_chr (url_tail q frag) = true.
Proof.
  intros Hq Hf. unfold url_tail. rewrite forallb_app.
  rewrite !forallb_opt_part; auto.
Qed.

Lemma scheme_word_safe (s : str) : scheme_word s -> forallb safe_chr s = true.
Proof.
  intros [_ [_ H]]. rewrite forallb_forall in *. intros x Hx.
  apply scheme_char_facts. apply H. exact Hx.
Qed.

(** Reading back what [urlunsplit] wrote for components without
    authority gives the same components, with the path as it was
    written. *)
Lemma reparse (sch pth q frag : str) :
  forall {U : Urllib},
  forallb safe_chr pth = true -> forallb safe_chr q = true ->
  forallb safe_chr frag = true ->
  ~ In "#"%char pth -> ~ In "?"%char pth -> ~ In "#"%char q ->
  pth <> [] -> startswith "//" pth = false ->
  (sch = []
   /\ urllib_parse.is_c0_control_or_space (hd "000"%char pth) = false
   /\ (forall t s rest, scheme_word s -> pth ++ t <> s ++ ":"%char :: rest))
  \/ (scheme_word sch /\ urllib_parse.lower sch = sch) ->
  urllib_parse.urlsplit
    (urllib_parse.urlunsplit (mkSplitResult sch (lit "") pth q frag))
  = Ok (mkSplitResult sch (lit "") (written_path sch pth) q frag).
Proof.
  intros U Sp Sq Sf Hp1 Hp2 Hq Hne H2 H.
  rewrite urlsplit_stages, urlunsplit_no_authority.
  pose proof (forallb_safe_tail q frag Sq Sf) as St.
  destruct H as [[-> [Hc0 Hns]] | [Hsw Hlow]].
  - unfold written_path.
    change (netloc_form [] pth) with false. cbn [is_empty app].
    rewrite clean_url_fixed.
    + destruct (urllib_parse.split_scheme (pth ++ url_tail q frag)) as [s0 r0] eqn:Hss.
      apply split_scheme_inv in Hss as [[-> [-> _]] | [s [Hs [_ E]]]];
        [|exfalso; exact (Hns _ _ _ Hs E)].
      rewrite split_authority_plain
        by (apply startswith_2_app; [exact Hne | exact H2 | apply url_tail_not_slash]).
      cbn [bind]. apply parse_rest; assumption.
    + rewrite forallb_app, Sp, St. reflexivity.
    + right. rewrite hd_app_nonempty by exact Hne. exact Hc0.
  - assert (Hes : is_empty sch = false).
    { destruct Hsw as [Hn _]. destruct sch; [contradiction | reflexivity]. }
    rewrite Hes, <- app_assoc. cbn [app].
    assert (Sbody : forallb safe_chr
                      (if netloc_form sch pth then lit "//" ++ slashed pth else pth)
                    = true).
    { destruct (netloc_form sch pth); [|exact Sp].
      destruct (slashed_parts pth) as [-> | ->]; cbn [app forallb lit list_ascii_of_string];
        rewrite Sp; reflexivity. }
    rewrite clean_url_fixed.
    + rewrite (split_scheme_word sch _ Hsw), Hlow.
      unfold written_path. destruct (netloc_form sch pth) eqn:Hnf.
      * destruct (slashed_head pth Hne) as [y Hy]. rewrite Hy.
        change ((lit "//" ++ "/"%char :: y) ++ url_tail q frag)
          with (lit "//" ++ "/"%char :: (y ++ url_tail q frag)).
        rewrite split_authority_empty. cbn [bind].
        change ("/"%char :: y ++ url_tail q frag)
          with (("/"%char :: y) ++ url_tail q frag).
        rewrite <- Hy.
        apply parse_rest; [| |exact Hq];
          destruct (slashed_parts pth) as [-> | ->]; try assumption;
          intros [Hx | Hx]; [discriminate | contradiction | discriminate | contradiction].
      * rewrite split_authority_plain
          by (apply startswith_2_app; [exact Hne | exact H2 | apply url_tail_not_slash]).
        cbn [bind]. apply parse_rest; assumption.
    + rewrite forallb_app, (scheme_word_safe _ Hsw). cbn [forallb andb].
      rewrite forallb_app, Sbody, St. reflexivity.
    + right. destruct Hsw as [Hn [Ha _]].
      rewrite hd_app_nonempty by exact Hn. apply alpha_facts. exact Ha.
Qed.

(** *** What the first parse leaves *)

Lemma prefix_cut (s stem t rest : str) :
  ~ In "/"%char s ->
  stem ++ "/"%char :: t = s ++ ":"%char :: rest ->
  exists stem', stem = s ++ ":"%char :: stem'.
Proof.
  revert stem; induction s as [|a s IH]; intros stem Hn E.
  - destruct stem as [|b stem]; [discriminate|].
    cbn [app] in E. injection E as -> _. exists stem. reflexivity.
  - destruct stem as [|b stem]; cbn [app] in E.
    + injection E as <- _. exfalso. apply Hn. left. reflexivity.
    + injection E as -> E.
      destruct (IH stem (fun H => Hn (or_intror H)) E) as [stem' ->].
      exists stem'. reflexivity.
Qed.

Lemma scheme_word_no_slash (s : str) : scheme_word s -> ~ In "/"%char s.
Proof.
  intros [_ [_ H]] Hin. rewrite forallb_forall in H.
  destruct (scheme_char_facts _ (H _ Hin)) as [_ [Hc _]]. congruence.
Qed.

Lemma no_scheme_prefix_slash (pth : str) :
  pth = [] \/ hd "000"%char pth = "/"%char -> no_scheme_prefix pth.
Proof.
  intros H pre x t s rest E [Hne [Ha _]] E'.
  assert (Hh : hd "000"%char (pre ++ "/"%char :: t) = "/"%char).
  { destruct pre as [|a pre]; [reflexivity|]. cbn [app hd].
    destruct H as [H | H]; [rewrite E in H; discriminate|].
    rewrite E in H. exact H. }
  rewrite E', hd_app_nonempty in Hh by exact Hne.
  rewrite Hh in Ha. discriminate.
Qed.

Lemma no_scheme_prefix_of (pth w : str) :
  (forall s rest, scheme_word s -> pth ++ w <> s ++ ":"%char :: rest) ->
  no_scheme_prefix pth.
Proof.
  intros H pre x t s rest E Hs E'.
  destruct (prefix_cut s pre t rest (scheme_word_no_slash _ Hs) E') as [pre' ->].
  apply (H s (pre' ++ x ++ w) Hs). rewrite E, <- !app_assoc. reflexivity.
Qed.

Lemma forallb_app_inv {A} (f : A -> bool) (l m : list A) :
  forallb f (l ++ m) = true -> forallb f l = true /\ forallb f m = true.
Proof. rewrite forallb_app. apply andb_true_iff. Qed.

Lemma split_at_parts (c : ascii) (y x f : str) :
  split_at c y = (x, f) ->
  forallb safe_chr y = true ->
  ~ In c x /\ forallb safe_chr x = true /\ forallb safe_chr f = true
  /\ exists w, y = x ++ w.
Proof.
  intros H Hy. destruct (split_at_inv _ _ _ _ H) as [Hn [[-> ->] | ->]].
  - repeat split; auto. exists []. symmetry. apply app_nil_r.
  - apply forallb_app_inv in Hy as [Hx Hf]. cbn [forallb] in Hf.
    apply andb_true_iff in Hf as [_ Hf].
    repeat split; auto. eexists. reflexivity.
Qed.

(** The components of a link that parses without authority. *)
Lemma urlsplit_internal (href : str) (parts : SplitResult) :
  forall {U : Urllib},
  urllib_parse.urlsplit href = Ok parts -> netloc parts = [] ->
  forallb safe_chr (path parts) = true
  /\ forallb safe_chr (query parts) = true
  /\ forallb safe_chr (fragment parts) = true
  /\ ~ In "#"%char (path parts) /\ ~ In "?"%char (path parts)
  /\ ~ In "#"%char (query parts)
  /\ ((scheme parts = []
       /\ (path parts = []
           \/ urllib_parse.is_c0_control_or_space (hd "000"%char (path parts)) = false)
       /\ no_scheme_prefix (path parts))
      \/ (scheme_word (scheme parts)
          /\ urllib_parse.lower (scheme parts) = scheme parts)).
Proof.
  intros U. rewrite urlsplit_stages.
  destruct (clean_url_props href) as [Su Hu].
  destruct (urllib_parse.split_scheme (clean_url href)) as [sch r] eqn:Hss.
  destruct (urllib_parse.split_authority r) as [[nl r2]|e] eqn:Hsa; [|discriminate].
  cbn [bind].
  destruct (split_at "#" r2) as [r3 frag] eqn:Hf.
  destruct (split_at "?" r3) as [pth q] eqn:Hq.
  destruct (urllib_parse._checknetloc nl); [|discriminate]. cbn [bind].
  intros H Hnl. injection H as <-. cbn [netloc] in Hnl. subst nl.
  cbn [scheme path query fragment].
  apply split_scheme_inv in Hss.
  assert (Sr : forallb safe_chr r = true).
  { destruct Hss as [[_ [-> _]] | [s [_ [_ E]]]]; [exact Su|].
    rewrite E in Su. apply forallb_app_inv in Su as [_ Su].
    cbn [forallb] in Su. apply andb_true_iff in Su. tauto. }
  pose proof (split_authority_inv _ _ Hsa) as Hr2.
  assert (Sr2 : forallb safe_chr r2 = true).
  { destruct Hr2 as [[_ ->] | [_ [pre E]]]; [exact Sr|].
    rewrite E in Sr. apply forallb_app_inv in Sr. tauto. }
  destruct (split_at_parts _ _ _ _ Hf Sr2) as [N3 [S3 [Sfrag [wf E3]]]].
  destruct (split_at_parts _ _ _ _ Hq S3) as [Np [Sp [Sq [wq Ep]]]].
  assert (Np' : ~ In "#"%char pth)
    by (intros Hin; apply N3; rewrite Ep; apply in_or_app; left; exact Hin).
  assert (Nq : ~ In "#"%char q).
  { destruct (split_at_inv _ _ _ _ Hq) as [_ [[_ ->] | E]]; [intros []|].
    intros Hin. apply N3. rewrite E. apply in_or_app. right. right. exact Hin. }
  repeat (split; [assumption|]).
  destruct Hss as [[-> [-> Hno]] | [s [Hs [-> _]]]];
    [left | right; apply lower_scheme_word; exact Hs].
  split; [reflexivity|].
  destruct Hr2 as [[_ ->] | [Hd _]].
  - (* the path starts the cleaned link *)
    split.
    + destruct pth as [|ch pth]; [left; reflexivity | right].
      destruct Hu as [Hu | Hu]; [rewrite E3, Ep in Hu; discriminate|].
      rewrite E3, Ep in Hu. exact Hu.
    + apply (no_scheme_prefix_of pth (wq ++ wf)).
      rewrite app_assoc, <- Ep, <- E3. exact Hno.
  - (* the path follows an empty authority *)
    assert (Hp : pth = [] \/ hd "000"%char pth = "/"%char).
    { destruct pth as [|ch pth]; [left; reflexivity | right].
      destruct Hd as [Hd | [c [b [Hd Hc]]]];
        [rewrite E3, Ep in Hd; discriminate|].
      rewrite E3, Ep in Hd. cbn [app] in Hd. injection Hd as Hac _.
      subst c. cbn [hd]. destruct Hc as [-> | [-> | ->]]; [reflexivity | |].
      - exfalso. apply Np. left. reflexivity.
      - exfalso. apply Np'. left. reflexivity. }
    split; [|apply no_scheme_prefix_slash; exact Hp].
    destruct Hp as [-> | Hp]; [left; reflexivity | right].
    rewrite Hp. reflexivity.
Qed.

(** *** Rewriting twice *)

Lemma rewrite_path_stem (pth stem : str) :
  rewrite_path pth = stem ++ lit "/" -> exists x, pth = stem ++ x.
Proof.
  unfold rewrite_path. intros H. apply app_inj_tail in H as [H _].
  destruct (rstrip_split "/" pth) as [k [Hk _]].
  destruct (endswith ".md" (rstrip "/" pth)).
  - unfold drop_last in H. rewrite <- H.
    exists (skipn (length (rstrip "/" pth) - 3) (rstrip "/" pth) ++ repeat "/"%char k).
    rewrite app_assoc, firstn_skipn. exact Hk.
  - rewrite <- H. eexists. exact Hk.
Qed.

Lemma rewrite_path_fixed (st : str) :
  endswith "/" st = false -> endswith ".md" st = false ->
  rewrite_path (st ++ lit "/") = st ++ lit "/".
Proof.
  intros Hsl Hmd. unfold rewrite_path.
  assert (E : rstrip "/" (st ++ lit "/") = st).
  { change (lit "/") with (repeat "/"%char 1). rewrite rstrip_app_sep.
    apply rstrip_fixed. apply (endswith_false (lit "/")). exact Hsl. }
  rewrite E, Hmd. reflexivity.
Qed.

Lemma endswith_cons_false (p : str) (a : ascii) (st : str) :
  endswith p st = false -> a :: st <> p -> endswith p (a :: st) = false.
Proof.
  rewrite !endswith_false. intros H Hne [|b r] E.
  - apply Hne. exact E.
  - cbn [app] in E. injection E as _ E. exact (H r E).
Qed.

Lemma written_path_cases (sch pth : str) :
  written_path sch pth = pth
  \/ (written_path sch pth = "/"%char :: pth /\ startswith "/" pth = false).
Proof.
  unfold written_path, slashed. destruct (netloc_form sch pth); [|left; reflexivity].
  destruct (is_empty pth); cbn [negb andb]; [left; reflexivity|].
  destruct (startswith "/" pth); cbn [negb]; [left | right; split]; reflexivity.
Qed.

(** What [urlunsplit] writes for the path it would read back is what it
    wrote. *)
Lemma written_path_stable (sch pth q frag : str) :
  pth <> [] ->
  urllib_parse.urlunsplit (mkSplitResult sch (lit "") (written_path sch pth) q frag)
  = urllib_parse.urlunsplit (mkSplitResult sch (lit "") pth q frag).
Proof.
  intros Hne. rewrite !urlunsplit_no_authority. f_equal. f_equal.
  unfold written_path. destruct (netloc_form sch pth) eqn:Hnf; [|rewrite Hnf; reflexivity].
  destruct (slashed_head pth Hne) as [y Hy].
  assert (Hnn : startswith "//" (slashed pth) = false).
  { unfold netloc_form in Hnf. apply andb_true_iff in Hnf as [_ Hnf].
    apply negb_true_iff in Hnf. unfold slashed.
    destruct pth as [|a p]; [contradiction|]. cbn [is_empty negb andb].
    destruct (startswith "/" (a :: p)) eqn:E; cbn [negb]; [exact Hnf|].
    cbn [app lit list_ascii_of_string startswith] in *.
    rewrite chr_eqb_refl. cbn [andb]. destruct (chr_eqb "/" a); [discriminate|].
    reflexivity. }
  assert (Hnf' : netloc_form sch (slashed pth) = true).
  { unfold netloc_form in *. apply andb_true_iff in Hnf as [Hnf _].
    rewrite Hnf, Hnn. reflexivity. }
  rewrite Hnf'. f_equal. rewrite Hy. reflexivity.
Qed.

Lemma settled_not_double_slash (pth stem x : str) :
  pth = stem ++ x -> startswith "//" pth = false -> endswith "/" stem = false ->
  startswith "//" (stem ++ lit "/") = false.
Proof.
  intros E Hdd Hsl. destruct stem as [|a [|b stem]].
  - reflexivity.
  - cbn [app lit list_ascii_of_string startswith].
    destruct (chr_eqb "/" a) eqn:Ea; [|reflexivity].
    apply chr_eqb_eq in Ea. subst a. discriminate.
  - rewrite E in Hdd. exact Hdd.
Qed.

Section Idempotence.
Context {U : Urllib}.
Import urllib_parse.

(** An anchor and the value of its [href] after the pass. *)
Lemma anchor_link_rewrite (href : str) :
  handle_element (anchor href) = new <- link_rewrite href ;; Ok (anchor new).
Proof.
  unfold anchor, link_rewrite. rewrite handle_element_eq. cbn [handle_children bind].
  change (str_eqb "a" "a") with true. cbv iota.
  change (dict_get [(lit "href", href)] "href") with (Some href). cbv iota.
  destruct (rewrite_href href) as [[v|]|e]; reflexivity.
Qed.

(** Reading back the link written for an internal [href]: unless the new
    path starts with two slashes, [urlsplit] finds the scheme, the empty
    authority, the query and the fragment of the old link, and the new
    path as [urlunsplit] wrote it. *)
Lemma read_back (href : str) (parts : SplitResult) :
  urlsplit href = Ok parts -> netloc parts = [] ->
  startswith "//" (rewrite_path (path parts)) = false ->
  urlsplit (urlunsplit (mkSplitResult (scheme parts) (lit "")
                          (rewrite_path (path parts)) (query parts) (fragment parts)))
  = Ok (mkSplitResult (scheme parts) (lit "")
          (written_path (scheme parts) (rewrite_path (path parts)))
          (query parts) (fragment parts)).
Proof.
  intros Hsplit Hnet Hdd.
  destruct (urlsplit_internal _ _ Hsplit Hnet)
    as [Sp [Sq [Sf [Np1 [Np2 [Nq Hsch]]]]]].
  assert (Hstem : exists stem, rewrite_path (path parts) = stem ++ lit "/")
    by (unfold rewrite_path; eexists; reflexivity).
  destruct Hstem as [stem Hstem]. rewrite Hstem in *.
  destruct (rewrite_path_stem _ _ Hstem) as [x Ex].
  assert (Sstem : forallb safe_chr stem = true)
    by (rewrite Ex in Sp; apply forallb_app_inv in Sp; tauto).
  apply reparse; try assumption.
  - rewrite forallb_app, Sstem. reflexivity.
  - intros H. apply in_app_or in H as [H | [H | []]]; [|discriminate].
    apply Np1. rewrite Ex. apply in_or_app. left. exact H.
  - intros H. apply in_app_or in H as [H | [H | []]]; [|discriminate].
    apply Np2. rewrite Ex. apply in_or_app. left. exact H.
  - destruct stem; discriminate.
  - destruct Hsch as [[Hs [Hc0 Hns]] | Hs]; [left | right; exact Hs].
    split; [exact Hs|]. split.
    + destruct stem as [|a stem]; [reflexivity|].
      destruct Hc0 as [Hc0 | Hc0]; [rewrite Ex in Hc0; discriminate|].
      rewrite Ex in Hc0. exact Hc0.
    + intros t s rest Hsw. rewrite <- app_assoc.
      apply (Hns stem x t s rest Ex Hsw).
Qed.

(** C3 (amended): the link rewriting is idempotent on every internal
    (no-authority) link whose path does not begin with two slashes and
    whose rewritten path, without its final slash, ends neither in [.md]
    nor in a slash: a second pass leaves the link as the first pass
    wrote it.  In particular [foo/], [foo.md] and [foo.md/] are each
    rewritten to [foo/]. *)
Theorem C3_idempotent_on_settled_links :
  (forall (href : str) (parts : SplitResult) (stem : str),
     urlsplit href = Ok parts -> netloc parts = [] ->
     rewrite_path (path parts) = stem ++ lit "/" ->
     endswith ".md" stem = false -> endswith "/" stem = false ->
     startswith "//" (path parts) = false ->
     exists once, link_rewrite href = Ok once /\ link_rewrite once = Ok once)
  /\ link_rewrite "foo/" = Ok (lit "foo/")
  /\ link_rewrite "foo.md" = Ok (lit "foo/")
  /\ link_rewrite "foo.md/" = Ok (lit "foo/").
Proof.
  split; [|repeat split; reflexivity].
  intros href parts stem Hsplit Hnet Hstem Hmd Hsl Hdd.
  destruct (rewrite_path_stem _ _ Hstem) as [x Ex].
  assert (Hre := read_back href parts Hsplit Hnet).
  rewrite Hstem in Hre.
  specialize (Hre (settled_not_double_slash (path parts) stem x Ex Hdd Hsl)).
  set (sch := scheme parts) in *. set (q := query parts) in *.
  set (frag := fragment parts) in *.
  exists (urlunsplit (mkSplitResult sch (lit "") (stem ++ lit "/") q frag)). split.
  - unfold link_rewrite, rewrite_href. rewrite Hsplit. cbn [bind].
    rewrite Hnet. cbn [is_empty]. rewrite Hstem. reflexivity.
  - unfold link_rewrite, rewrite_href. rewrite Hre.
    cbn [bind netloc is_empty scheme path query fragment].
    assert (Hfix : rewrite_path (written_path sch (stem ++ lit "/"))
                   = written_path sch (stem ++ lit "/")).
    { destruct (written_path_cases sch (stem ++ lit "/")) as [-> | [-> Hns]].
      - apply rewrite_path_fixed; assumption.
      - change ("/"%char :: stem ++ lit "/") with (("/"%char :: stem) ++ lit "/").
        destruct stem as [|a stem]; [discriminate|].
        apply rewrite_path_fixed; apply endswith_cons_false; try assumption;
          discriminate. }
    rewrite Hfix, written_path_stable; [reflexivity|].
    destruct stem; discriminate.
Qed.

(** What is read back as the path, in one formula. *)
Lemma written_path_formula (sch pth : str) :
  pth <> [] -> startswith "//" pth = false ->
  written_path sch pth
  = if negb (is_empty sch) && existsb (str_eqb sch) uses_netloc
       && negb (startswith "/" pth)
    then lit "/" ++ pth else pth.
Proof.
  intros Hne Hdd. unfold written_path, netloc_form, slashed. rewrite Hdd.
  destruct pth as [|a p]; [contradiction|]. cbn [is_empty negb andb].
  rewrite andb_true_r.
  destruct (negb (is_empty sch) && existsb (str_eqb sch) uses_netloc);
    cbn [andb]; [|reflexivity].
  destruct (startswith "/" (a :: p)); reflexivity.
Qed.

(** C5 (amended): for an anchor whose [href] parses without authority, the
    new [href] is written by [urlunsplit] from the scheme, authority, query
    and fragment of the old one and a new path: the old path without its
    trailing slashes, without a final [.md] if there is one, and with one
    slash appended.  Unless the new path begins with two slashes, the new
    [href] parses again with the scheme, the empty authority, the query
    and the fragment of the old one; the path read back is the new path,
    with a slash put in front when the scheme is one of [uses_netloc] and
    the new path is relative. *)
Theorem C5_internal_href_rewritten
    (e : Element) (cs' : list Element) (href : str) (parts : SplitResult) :
  tag e = lit "a" -> get e "href" = Some href ->
  urlsplit href = Ok parts -> netloc parts = [] ->
  handle_children (children e) = Ok cs' ->
  exists e' new_path new_href,
    handle_element e = Ok e'
    /\ rewritten_path (path parts) new_path
    /\ (forall other, rewritten_path (path parts) other -> other = new_path)
    /\ get e' "href" = Some new_href
    /\ new_href
       = urlunsplit (mkSplitResult (scheme parts) (netloc parts) new_path
                                   (query parts) (fragment parts))
    /\ (startswith "//" new_path = false ->
        urlsplit new_href
        = Ok (mkSplitResult (scheme parts) (netloc parts)
                (if negb (is_empty (scheme parts))
                    && existsb (str_eqb (scheme parts)) uses_netloc
                    && negb (startswith "/" new_path)
                 then lit "/" ++ new_path else new_path)
                (query parts) (fragment parts))).
Proof.
  intros Htag Hget Hsplit Hnet Hcs.
  rewrite (handle_anchor e cs' href Htag Hget Hcs).
  unfold rewrite_href. rewrite Hsplit. cbn [bind]. rewrite Hnet. cbn [is_empty].
  destruct e as [tg at_ tx tl cs].
  eexists. exists (rewrite_path (path parts)). eexists.
  split; [reflexivity|]. split; [apply rewrite_path_spec|].
  split; [intros other; apply rewritten_path_fun|].
  split; [unfold get; cbn [attrib]; apply dict_get_set|].
  split; [reflexivity|].
  intros Hdd.
  rewrite <- (written_path_formula (scheme parts) (rewrite_path (path parts)));
    [|unfold rewrite_path;
      destruct (endswith ".md" (rstrip "/" (path parts)));
      intros E; apply app_eq_nil in E as [_ E]; discriminate
     |exact Hdd].
  exact (read_back href parts Hsplit Hnet Hdd).
Qed.

End Idempotence.

Lemma C5_witness :
  sample_urlsplit "guide.md?x=1#top"
  = Ok (mkSplitResult "" "" "guide.md" "x=1" "top")
  /\ exists e' new_path new_href,
       sample_handle_element (anchor "guide.md?x=1#top") = Ok e'
       /\ rewritten_path (lit "guide.md") new_path
       /\ (forall other, rewritten_path (lit "guide.md") other -> other = new_path)
       /\ get e' "href" = Some new_href
       /\ new_href
          = urllib_parse.urlunsplit (mkSplitResult "" "" new_path "x=1" "top")
       /\ (startswith "//" new_path = false ->
           sample_urlsplit new_href
           = Ok (mkSplitResult "" ""
                   (if negb (is_empty (lit ""))
                       && existsb (str_eqb (lit "")) urllib_parse.uses_netloc
                       && negb (startswith "/" new_path)
                    then lit "/" ++ new_path else new_path)
                   "x=1" "top")).
Proof.
  split; [reflexivity|].
  apply (@C5_internal_href_rewritten strict_urllib (anchor "guide.md?x=1#top") []
           "guide.md?x=1#top" (mkSplitResult "" "" "guide.md" "x=1" "top"));
    reflexivity.
Defined.

(** C5, as stated, fails.  The link [////foo.md] parses without authority
    and with the path [//foo.md]; it is rewritten to [//foo/], which
    parses with the authority [foo] and the path [/].  The link
    [http:foo.md] parses without authority and with the path [foo.md];
    it is rewritten to [http:///foo/], which parses with the path
    [/foo/], not [foo/]. *)
Lemma C5_counterexample :
  (sample_urlsplit "////foo.md" = Ok (mkSplitResult "" "" "//foo.md" "" "")
   /\ sample_handle_element (anchor "////foo.md") = Ok (anchor "//foo/")
   /\ sample_urlsplit "//foo/" = Ok (mkSplitResult "" "foo" "/" "" "")
   /\ lit "foo" <> lit "")
  /\ (sample_urlsplit "http:foo.md" = Ok (mkSplitResult "http" "" "foo.md" "" "")
      /\ rewritten_path (lit "foo.md") (lit "foo/")
      /\ sample_handle_element (anchor "http:foo.md") = Ok (anchor "http:///foo/")
      /\ sample_urlsplit "http:///foo/" = Ok (mkSplitResult "http" "" "/foo/" "" "")
      /\ lit "/foo/" <> lit "foo/").
Proof.
  split.
  - repeat split; try reflexivity. discriminate.
  - split; [reflexivity|]. split; [exact (rewrite_path_spec "foo.md")|].
    repeat split; try reflexivity. discriminate.
Qed.

Lemma C3_witness :
  sample_urlsplit "docs/setup.md//#install"
  = Ok (mkSplitResult "" "" "docs/setup.md//" "" "install")
  /\ exists once,
       sample_link_rewrite "docs/setup.md//#install" = Ok once
       /\ sample_link_rewrite once = Ok once.
Proof.
  split; [reflexivity|].
  apply (proj1 (@C3_idempotent_on_settled_links strict_urllib)
           "docs/setup.md//#install"
           (mkSplitResult "" "" "docs/setup.md//" "" "install") "docs/setup");
    reflexivity.
Defined.

(** * Further properties *)

(** ** The walk over the tree *)

Lemma Element_ind_all (P : Element -> Prop) :
  (forall tg at_ tx tl cs, Forall P cs -> P (mkElement tg at_ tx tl cs)) ->
  forall e, P e.
Proof.
  intros H. fix IH 1. intros [tg at_ tx tl cs]. apply H.
  induction cs as [|c cs IHcs]; constructor; [apply IH | exact IHcs].
Qed.

Section TreeWalk.
Context {U : Urllib}.
Import urllib_parse.

Lemma handle_children_cons (c : Element) (cs : list Element) :
  handle_children (c :: cs) =
  c' <- handle_element c ;; cs' <- handle_children cs ;; Ok (c' :: cs').
Proof. reflexivity. Qed.

Lemma handle_children_ok (cs cs' : list Element) :
  handle_children cs = Ok cs' <->
  Forall2 (fun c c' => handle_element c = Ok c') cs cs'.
Proof.
  revert cs'; induction cs as [|c cs IH]; intros cs'.
  - cbn [handle_children]. split.
    + intros H; injection H as <-. constructor.
    + intros H; inversion H. reflexivity.
  - rewrite handle_children_cons. split.
    + destruct (handle_element c) as [c'|e] eqn:Hc; [|discriminate]. cbn [bind].
      destruct (handle_children cs) as [l|e] eqn:Hl; [|discriminate]. cbn [bind].
      intros H; injection H as <-. constructor; [exact Hc|].
      apply IH. reflexivity.
    + intros H. inversion H as [|? c' ? l Hc Hl]; subst.
      rewrite Hc. cbn [bind]. apply IH in Hl. rewrite Hl. reflexivity.
Qed.

(** What [handle_element] returns for a node whose children are done. *)
Lemma handle_node_cases (tg : str) (at_ : list (str * str)) (tx tl : option str)
    (cs cs' : list Element) (e' : Element) :
  handle_children cs = Ok cs' ->
  handle_element (mkElement tg at_ tx tl cs) = Ok e' ->
  e' = mkElement tg at_ tx tl cs'
  \/ (tg = lit "a"
      /\ exists href parts,
           dict_get at_ "href" = Some href /\ urlsplit href = Ok parts
           /\ netloc parts = []
           /\ e' = mkElement tg
                     (dict_set at_ "href"
                        (urlunsplit (mkSplitResult (scheme parts) (netloc parts)
                                       (rewrite_path (path parts)) (query parts)
                                       (fragment parts))))
                     tx tl cs').
Proof.
  intros Hcs. rewrite handle_element_eq, Hcs. cbn [bind].
  destruct (str_eqb tg "a") eqn:Etg; [|intros H; injection H as <-; left; reflexivity].
  apply str_eqb_eq in Etg.
  destruct (dict_get at_ "href") as [href|] eqn:Hget;
    [|intros H; injection H as <-; left; reflexivity].
  unfold rewrite_href. destruct (urlsplit href) as [parts|e] eqn:Hsplit; [|discriminate].
  cbn [bind]. destruct (is_empty (netloc parts)) eqn:Hn; cbn [bind].
  - intros H; injection H as <-. right. split; [exact Etg|].
    exists href, parts. apply is_empty_true in Hn. repeat split; auto.
  - intros H; injection H as <-. left. reflexivity.
Qed.

Lemma dict_set_keys (d : list (str * str)) (key value old : str) :
  dict_get d key = Some old ->
  map fst (dict_set d key value) = map fst d.
Proof.
  induction d as [|[k v] d IH]; cbn [dict_get dict_set]; [discriminate|].
  destruct (str_eqb k key); [reflexivity|].
  intros H. cbn [map fst]. rewrite (IH H). reflexivity.
Qed.

(** X1: the pass changes nothing but values of [href] in anchors: the tags,
    the texts, the number and order of the children, the attribute names
    and every other attribute value stay as they were, at every depth. *)
Theorem handle_element_only_hrefs (e e' : Element) :
  handle_element e = Ok e' ->
  href_variant e e'
  /\ tag e' = tag e
  /\ map fst (attrib e') = map fst (attrib e)
  /\ (forall key, key <> lit "href" -> get e' key = get e key)
  /\ length (children e') = length (children e).
Proof.
  assert (Hvar : forall e e', handle_element e = Ok e' -> href_variant e e').
  { clear e e'. intros e. induction e as [tg at_ tx tl cs IH] using Element_ind_all.
    intros e' H.
    destruct (handle_children cs) as [cs'|err] eqn:Hcs;
      [|rewrite handle_element_eq, Hcs in H; discriminate].
    assert (Hkids : Forall2 href_variant cs cs').
    { apply handle_children_ok in Hcs. clear H.
      induction Hcs as [|c c' l l' Hc Hl IHl]; [constructor|].
      inversion IH as [|? ? Hc0 Hl0]; subst.
      constructor; [apply Hc0; exact Hc | apply IHl; exact Hl0]. }
    destruct (handle_node_cases _ _ _ _ _ _ _ Hcs H)
      as [-> | [-> [href [parts [Hget [_ [_ ->]]]]]]].
    - constructor. exact Hkids.
    - econstructor; eassumption. }
  intros H. specialize (Hvar e e' H). split; [exact Hvar|].
  inversion Hvar as [tg at_ tx tl cs cs' Hk | at_ tx tl cs cs' old value Hk Hget];
    subst; unfold get; cbn [tag attrib children].
  - repeat split; auto. apply (Forall2_length Hk) || (symmetry; apply (Forall2_length Hk)).
  - split; [reflexivity|]. split; [apply (dict_set_keys _ _ _ _ Hget)|].
    split; [intros key Hk'; apply dict_get_set_other; exact Hk'|].
    symmetry. apply (Forall2_length Hk).
Qed.

(** X2: the pass returns only if every [href] of an anchor in the tree is
    accepted by [urlsplit]: an anchor at any depth whose [href] is
    refused keeps the pass from returning a tree. *)
Theorem handle_element_returns_only_if (e e' : Element) :
  handle_element e = Ok e' -> hrefs_parse e.
Proof.
  revert e'. induction e as [tg at_ tx tl cs IH] using Element_ind_all.
  intros e' H.
  destruct (handle_children cs) as [cs'|err] eqn:Hcs;
    [|rewrite handle_element_eq, Hcs in H; discriminate].
  constructor.
  - apply handle_children_ok in Hcs. clear H.
    induction Hcs as [|c c' l l' Hc Hl IHl]; [constructor|].
    inversion IH as [|? ? Hc0 Hl0]; subst.
    constructor; [apply (Hc0 c'); exact Hc | apply IHl; exact Hl0].
  - intros -> href Hget. rewrite handle_element_eq, Hcs in H. cbn [bind] in H.
    change (str_eqb "a" "a") with true in H. cbv iota in H. rewrite Hget in H.
    unfold rewrite_href in H. destruct (urlsplit href) as [parts|err]; [|discriminate].
    exists parts. reflexivity.
Qed.

(** X3: a tree whose anchors all carry external links, or no [href], comes
    back as it was. *)
Theorem handle_element_external_identity (e : Element) :
  links_external e -> handle_element e = Ok e.
Proof.
  induction e as [tg at_ tx tl cs IH] using Element_ind_all.
  intros H. inversion H as [? ? ? ? ? Hkids Hhref]; subst.
  assert (Hcs : handle_children cs = Ok cs).
  { clear H Hhref. induction cs as [|c cs IHcs]; [reflexivity|].
    inversion IH as [|? ? Hc0 Hl0]; subst.
    inversion Hkids as [|? ? Hc1 Hl1]; subst.
    rewrite handle_children_cons, (Hc0 Hc1), (IHcs Hl0 Hl1). reflexivity. }
  rewrite handle_element_eq, Hcs. cbn [bind].
  destruct (str_eqb tg "a") eqn:Etg; [|reflexivity].
  apply str_eqb_eq in Etg.
  destruct (dict_get at_ "href") as [href|] eqn:Hget; [|reflexivity].
  destruct (Hhref Etg href eq_refl) as [parts [Hp Hn]].
  unfold rewrite_href. rewrite Hp. cbn [bind].
  destruct (netloc parts); [contradiction | reflexivity].
Qed.

End TreeWalk.

(** ** More on the path resolver *)

Lemma existsb_app_empty_fields (f : str -> bool) (l : list str) (k : nat) :
  f [] = false -> existsb f (l ++ repeat [] k) = existsb f l.
Proof.
  intros Hf. rewrite existsb_app.
  assert (E : existsb f (repeat [] k) = false).
  { induction k as [|k IH]; [reflexivity|]. cbn [repeat existsb]. rewrite Hf, IH.
    reflexivity. }
  rewrite E, orb_false_r. reflexivity.
Qed.

Lemma dotdot_rstrip (page : str) :
  existsb (str_eqb "..") (split "/" page)
  = existsb (str_eqb "..") (split "/" (rstrip "/" page)).
Proof.
  destruct (split_rstrip "/" page) as [k ->].
  apply existsb_app_empty_fields. reflexivity.
Qed.

Section ResolverExtras.
Context {U : Urllib} {F : FileSystem} {M : Markdown} {B : Bleach}.

(** [load_doc_page] looks at the logical path without its trailing
    slashes only. *)
Lemma load_doc_page_rstrip (page : str) :
  load_doc_page page = load_doc_page (rstrip "/" page).
Proof.
  rewrite !load_doc_page_steps, <- dotdot_rstrip.
  unfold candidates, base_path_of.
  assert (E : rstrip "/" (rstrip "/" page) = rstrip "/" page).
  { apply rstrip_fixed. destruct (rstrip_split "/" page) as [k [_ H]]. exact H. }
  rewrite !E. reflexivity.
Qed.

Lemma load_doc_page_slash (q : str) :
  load_doc_page (q ++ lit "/") = load_doc_page q.
Proof.
  rewrite (load_doc_page_rstrip (q ++ lit "/")).
  change (lit "/") with (repeat "/"%char 1). rewrite rstrip_app_sep.
  symmetry. apply load_doc_page_rstrip.
Qed.

(** X6: trailing slashes of the logical path do not matter: [guide],
    [guide/] and [guide///] give the same result. *)
Theorem load_doc_page_trailing_slashes (page : str) (k : nat) :
  load_doc_page (page ++ repeat "/"%char k) = load_doc_page page.
Proof.
  rewrite (load_doc_page_rstrip (page ++ repeat "/"%char k)), rstrip_app_sep.
  symmetry. apply load_doc_page_rstrip.
Qed.

Lemma try_paths_opened (cands : list str) (real : str) :
  In real (fst (try_paths root_dir cands)) ->
  fst (try_paths root_dir cands) = [real]
  /\ exists cand, In cand cands /\ passes_checks cand = true
                  /\ real = fs_realpath cand.
Proof.
  induction cands as [|cand rest IH]; cbn [try_paths]; [intros []|].
  assert (Hrest : In real (fst (try_paths root_dir rest)) ->
            fst (try_paths root_dir rest) = [real]
            /\ exists cand0, In cand0 (cand :: rest) /\ passes_checks cand0 = true
                             /\ real = fs_realpath cand0).
  { intros H. destruct (IH H) as [H1 [c [H2 H3]]]. split; [exact H1|].
    exists c. split; [right; exact H2 | exact H3]. }
  destruct (fs_exists cand) eqn:Hex; cbn [negb]; [|exact Hrest].
  destruct (str_eqb (os_path.basename (fs_realpath cand)) "README.md") eqn:Hreadme;
    [exact Hrest|].
  destruct (os_path.commonpath [fs_realpath cand; root_dir]) as [common|e] eqn:Hcp;
    [|intros []].
  destruct (str_eqb common root_dir) eqn:Hroot; cbn [negb]; [|exact Hrest].
  assert (Hp : passes_checks cand = true).
  { unfold passes_checks. rewrite Hex, Hreadme, Hcp, Hroot. reflexivity. }
  destruct (fs_open_read (fs_realpath cand)) as [text|e]; cbn [fst];
    (intros [<- | []]; split; [reflexivity|];
     exists cand; split; [left; reflexivity | split; [exact Hp | reflexivity]]).
Qed.

(** X7: whatever the outcome (a page, the not-found value or an exception),
    at most one file is opened, and a file that is opened is the real
    path of a candidate that exists, lies within the root and is not
    named [README.md]. *)
Theorem load_doc_page_opens_checked_files (page real : str) :
  In real (fst (load_doc_page page)) ->
  fst (load_doc_page page) = [real]
  /\ exists cand,
       In cand (candidates page) /\ real = fs_realpath cand
       /\ fs_exists cand = true
       /\ os_path.basename real <> lit "README.md"
       /\ within root_dir real.
Proof.
  rewrite load_doc_page_steps.
  destruct (existsb (str_eqb "..") (split "/" page)); [intros []|].
  destruct (os_path.commonpath [base_path_of page; root_dir]) as [common|e];
    [|intros []].
  destruct (negb (str_eqb common root_dir)); [intros []|].
  destruct (existsb (startswith ".") (split "/" (rstrip "/" page))); [intros []|].
  intros H. destruct (try_paths_opened _ _ H) as [H1 [cand [H2 [H3 ->]]]].
  split; [exact H1|]. exists cand.
  destruct (passes_checks_sound _ H3) as [H4 [H5 H6]]. repeat split; assumption.
Qed.

(** X10: the check for [..] segments is covered by the check for hidden
    segments, as the comment of line 127 says: a logical path with a
    [..] segment has a segment that starts with a dot after its trailing
    slashes are stripped. *)
Theorem dotdot_is_hidden (page : str) :
  existsb (str_eqb "..") (split "/" page) = true ->
  existsb (startswith ".") (split "/" (rstrip "/" page)) = true.
Proof.
  intros H. apply existsb_exists in H as [seg [Hin Hseg]].
  apply (hidden_segment_kept page seg Hin).
  rewrite str_eqb_sym in Hseg. apply str_eqb_eq in Hseg. subst seg. reflexivity.
Qed.

End ResolverExtras.

(** ** Normalised paths *)

Lemma str_eqb_empty (c : str) : str_eqb c "" = is_empty c.
Proof. destruct c; reflexivity. Qed.

Lemma normpath_step_plain (isl : nat) (acc : list str) (c : str) :
  str_eqb c ".." = false ->
  os_path.normpath_step isl acc c =
  if negb (is_empty c) && negb (str_eqb c ".") then acc ++ [c] else acc.
Proof.
  intros H. unfold os_path.normpath_step. rewrite str_eqb_empty, H.
  destruct (is_empty c), (str_eqb c "."); reflexivity.
Qed.

Lemma normpath_fold_plain (isl : nat) (comps acc : list str) :
  Forall (fun c => str_eqb c ".." = false) comps ->
  fold_left (os_path.normpath_step isl) comps acc
  = acc ++ filter (fun c => negb (is_empty c) && negb (str_eqb c ".")) comps.
Proof.
  intros H. revert acc. induction H as [|c comps Hc _ IH]; intros acc.
  - cbn [fold_left filter]. symmetry. apply app_nil_r.
  - cbn [fold_left filter]. rewrite IH, (normpath_step_plain _ _ _ Hc).
    destruct (negb (is_empty c) && negb (str_eqb c ".")); [|reflexivity].
    rewrite <- app_assoc. reflexivity.
Qed.

(** An absolute path with one leading slash and without [..] components
    is normalised to its components joined by single slashes. *)
Lemma normpath_plain (p : str) :
  startswith "/" p = true -> startswith "//" p = false ->
  Forall (fun c => str_eqb c ".." = false) (split "/" p) ->
  os_path.normpath p = lit "/" ++ str_join "/" (os_path.components p).
Proof.
  intros H1 H2 Hc. unfold os_path.normpath.
  assert (str_eqb p "" = false) as -> by (destruct p; [discriminate | reflexivity]).
  rewrite H1, H2. cbn [andb]. cbv zeta.
  rewrite (normpath_fold_plain 1 _ [] Hc). reflexivity.
Qed.

Lemma Forall_removelast {A} (P : A -> Prop) (l : list A) :
  Forall P l -> Forall P (removelast l).
Proof.
  induction 1 as [|x l Hx Hl IH]; [constructor|].
  cbn [removelast]. destruct l; [constructor | constructor; assumption].
Qed.

Lemma last_in {A} (l : list A) (d : A) : l <> [] -> In (last l d) l.
Proof.
  induction l as [|x l IH]; [contradiction|]. intros _.
  destruct l as [|y l]; [left; reflexivity|].
  right. apply IH. discriminate.
Qed.

Lemma normpath_fold_abs (isl : nat) (comps acc : list str) :
  isl <> 0 ->
  Forall (fun w => ~ In "/"%char w) comps ->
  Forall plain_comp acc ->
  Forall plain_comp (fold_left (os_path.normpath_step isl) comps acc).
Proof.
  intros Hisl Hc. revert acc. induction Hc as [|c comps Hns _ IH]; intros acc Hacc;
    [exact Hacc|].
  cbn [fold_left]. apply IH. unfold os_path.normpath_step.
  rewrite str_eqb_empty.
  destruct (is_empty c) eqn:E1; [exact Hacc|].
  destruct (str_eqb c ".") eqn:E2; [exact Hacc|]. cbn [orb].
  destruct (str_eqb c "..") eqn:E3; cbn [negb orb].
  - assert ((isl =? 0)%nat = false) as -> by (apply Nat.eqb_neq; exact Hisl).
    cbn [andb orb].
    destruct (strs_eqb acc []) eqn:E4; cbn [negb andb];
      [apply Forall_removelast; exact Hacc|].
    assert (Hne : acc <> []) by (intros ->; discriminate).
    pose proof (last_in acc (lit "") Hne) as Hin.
    rewrite Forall_forall in Hacc. destruct (Hacc _ Hin) as [_ Hdd].
    apply str_eqb_neq in Hdd. rewrite Hdd.
    apply Forall_removelast. apply Forall_forall. exact Hacc.
  - apply Forall_app. split; [exact Hacc|]. constructor; [|constructor].
    apply str_eqb_neq in E2, E3. split; [|exact E3].
    repeat split; [|exact E2|exact Hns]. intros ->. discriminate.
Qed.

(** The normal form of an absolute path with one leading slash: a slash
    and clean components joined by slashes. *)
Lemma normpath_abs_form (p : str) :
  startswith "/" p = true -> startswith "//" p = false ->
  exists rc, os_path.normpath p = lit "/" ++ str_join "/" rc
             /\ Forall plain_comp rc
             /\ os_path.components (os_path.normpath p) = rc.
Proof.
  intros H1 H2. unfold os_path.normpath.
  assert (str_eqb p "" = false) as -> by (destruct p; [discriminate | reflexivity]).
  rewrite H1, H2. cbn [andb]. cbv zeta.
  set (rc := fold_left (os_path.normpath_step 1) (split "/" p) []).
  assert (Hrc : Forall plain_comp rc).
  { apply normpath_fold_abs; [discriminate | apply split_no_sep | constructor]. }
  exists rc. split; [reflexivity|]. split; [exact Hrc|].
  apply components_join. eapply Forall_impl; [|exact Hrc]. intros w [H _]. exact H.
Qed.

Lemma split_app_sep (c : ascii) (a b : str) :
  split c (a ++ c :: b) = split c a ++ split c b.
Proof.
  induction a as [|x a IH]; cbn [app split].
  - rewrite chr_eqb_refl. reflexivity.
  - rewrite IH. destruct (chr_eqb x c); [reflexivity|].
    destruct (split c a) as [|w ws] eqn:Es;
      [exfalso; exact (split_not_nil c a Es) | reflexivity].
Qed.

Lemma join_head (w : str) (ws : list str) (a : ascii) (w' : str) :
  w = a :: w' -> exists r, str_join "/" (w :: ws) = a :: r.
Proof.
  intros ->. destruct ws; cbn [str_join app]; eexists; reflexivity.
Qed.

Lemma slash_join_not_double (rc : list str) (x : str) :
  Forall plain_comp rc -> rc <> [] ->
  startswith "//" ((lit "/" ++ str_join "/" rc) ++ x) = false.
Proof.
  intros H Hne. destruct rc as [|w ws]; [contradiction|].
  inversion H as [|? ? [[Hw [_ Hns]] _] _]; subst.
  destruct w as [|a w']; [contradiction|].
  destruct (join_head (a :: w') ws a w' eq_refl) as [r ->].
  cbn [app lit list_ascii_of_string startswith].
  assert (chr_eqb "/" a = false) as ->
    by (apply chr_eqb_neq; intros <-; apply Hns; left; reflexivity).
  cbn [andb]. apply andb_false_r.
Qed.

Lemma split_slash_join (rc : list str) :
  Forall plain_comp rc -> rc <> [] ->
  split "/" (lit "/" ++ str_join "/" rc) = lit "" :: rc.
Proof.
  intros H Hne. change (lit "/" ++ str_join "/" rc) with ([] ++ "/"%char :: str_join "/" rc).
  rewrite split_app_sep. cbn [split app]. f_equal.
  apply (split_join "/"%char); [exact Hne|].
  eapply Forall_impl; [|exact H]. intros w [[_ [_ Hw]] _]. exact Hw.
Qed.

Lemma slash_join_no_trailing (rc : list str) :
  Forall plain_comp rc -> rc <> [] ->
  endswith "/" (lit "/" ++ str_join "/" rc) = false.
Proof.
  intros H Hne. apply endswith_false. intros r E.
  pose proof (split_slash_join rc H Hne) as Hs. rewrite E in Hs.
  change (r ++ lit "/") with (r ++ "/"%char :: []) in Hs.
  rewrite split_app_sep in Hs. cbn [split] in Hs.
  apply (f_equal (@rev str)) in Hs. rewrite rev_app_distr in Hs.
  cbn [rev app] in Hs.
  destruct (rev rc) as [|z zs] eqn:Er.
  - apply (f_equal (@rev str)) in Er. rewrite rev_involutive in Er. contradiction.
  - cbn [app] in Hs. injection Hs as Hz _.
    assert (Hin : In z rc) by (apply in_rev; rewrite Er; left; reflexivity).
    rewrite Forall_forall in H. destruct (H z Hin) as [[Hz' _] _]. congruence.
Qed.

Lemma common_loop_of_prefix (rc x : list str) :
  os_path.common_loop rc (rc ++ x) = Ok rc.
Proof.
  induction rc as [|w rc IH]; [reflexivity|].
  cbn [os_path.common_loop app]. rewrite str_eqb_refl, IH. reflexivity.
Qed.

Lemma strs_ltb_prefix (rc x : list str) :
  x <> [] -> strs_ltb rc (rc ++ x) = true.
Proof.
  intros Hx. induction rc as [|w rc IH]; cbn [strs_ltb app].
  - destruct x; [contradiction | reflexivity].
  - rewrite str_eqb_refl. exact IH.
Qed.

(** The containment test succeeds on a path whose components extend the
    components of a root in normal form. *)
Lemma commonpath_of_extension (p root : str) (rc x : list str) :
  startswith "/" p = true -> root = lit "/" ++ str_join "/" rc ->
  os_path.components root = rc -> os_path.components p = rc ++ x ->
  os_path.commonpath [p; root] = Ok root.
Proof.
  intros Hp Hroot Hcr Hcp. rewrite commonpath_pair.
  assert (startswith "/" root = true) as -> by (rewrite Hroot; reflexivity).
  rewrite Hp. cbn [Bool.eqb]. cbv zeta. rewrite Hcr, Hcp.
  destruct x as [|y x].
  - rewrite app_nil_r.
    assert (strs_ltb rc rc = false) as ->.
    { destruct (strs_ltb rc rc) eqn:E; [|reflexivity].
      pose proof (strs_ltb_asym _ _ E). congruence. }
    rewrite common_loop_refl. cbn [bind]. rewrite Hroot. reflexivity.
  - assert (Hlt : strs_ltb rc (rc ++ y :: x) = true)
      by (apply strs_ltb_prefix; discriminate).
    rewrite Hlt, (strs_ltb_asym _ _ Hlt), common_loop_of_prefix. cbn [bind].
    rewrite Hroot. reflexivity.
Qed.

Lemma rstrip_relative (page : str) :
  startswith "/" page = false -> startswith "/" (rstrip "/" page) = false.
Proof.
  intros H. destruct (rstrip "/" page) as [|a r] eqn:E; [reflexivity|].
  destruct (rstrip_split "/" page) as [k [Hk _]]. rewrite E in Hk.
  rewrite Hk in H. exact H.
Qed.

Lemma segments_rstrip (page seg : str) :
  In seg (split "/" (rstrip "/" page)) -> In seg (split "/" page).
Proof.
  intros H. destruct (split_rstrip "/" page) as [k ->].
  apply in_or_app. left. exact H.
Qed.

Lemma components_rstrip (page : str) :
  os_path.components (rstrip "/" page) = os_path.components page.
Proof.
  unfold os_path.components. destruct (split_rstrip "/" page) as [k ->].
  rewrite filter_app.
  assert (E : filter (fun c : str => negb (is_empty c) && negb (str_eqb c "."))
                (repeat (@nil ascii) k) = []).
  { induction k as [|k IH]; [reflexivity | exact IH]. }
  rewrite E, app_nil_r. reflexivity.
Qed.

Section PlainPaths.
Context {U : Urllib} {F : FileSystem} {M : Markdown} {B : Bleach}.
Hypothesis realpath_abs : realpath_absolute F.
Hypothesis single_slash : startswith "//" MARKDOWN_DIR = false.

(** The normalised root is a slash and its components joined by slashes. *)
Lemma root_dir_form :
  root_dir = lit "/" ++ str_join "/" (os_path.components root_dir)
  /\ Forall plain_comp (os_path.components root_dir).
Proof.
  destruct (normpath_abs_form MARKDOWN_DIR (MARKDOWN_DIR_abs realpath_abs) single_slash)
    as [rc [H1 [H2 H3]]].
  unfold root_dir. rewrite H3. split; assumption.
Qed.

(** What is joined to the root for a relative logical path. *)
Lemma joined_segments (p : str) :
  startswith "/" p = false ->
  split "/" (os_path.join root_dir p)
  = (lit "" :: os_path.components root_dir) ++ split "/" p
  /\ startswith "//" (os_path.join root_dir p) = false.
Proof.
  intros Hp. destruct root_dir_form as [Hroot Hrc].
  destruct (os_path.components root_dir) as [|w ws] eqn:Erc.
  - assert (Hr : root_dir = lit "/") by (rewrite Hroot; reflexivity).
    assert (Hj : os_path.join root_dir p = "/"%char :: p).
    { unfold os_path.join. rewrite Hp, Hr. reflexivity. }
    rewrite Hj. split; [exact (split_app_sep "/"%char [] p)|].
    destruct p as [|a p]; [reflexivity|].
    change (chr_eqb "/" "/" && startswith "/" (a :: p) = false).
    rewrite Hp. apply andb_false_r.
  - assert (Hne : w :: ws <> []) by discriminate.
    assert (Hj : os_path.join root_dir p = root_dir ++ "/"%char :: p).
    { unfold os_path.join. rewrite Hp.
      assert (He : endswith "/" root_dir = false)
        by (rewrite Hroot; apply (slash_join_no_trailing _ Hrc Hne)).
      assert (Hi : is_empty root_dir = false) by (rewrite Hroot; reflexivity).
      rewrite He, Hi. reflexivity. }
    rewrite Hj. split.
    + rewrite split_app_sep, Hroot, (split_slash_join _ Hrc Hne). reflexivity.
    + rewrite Hroot. apply (slash_join_not_double _ _ Hrc Hne).
Qed.

(** The base path of a plain relative path, and its containment test. *)
Lemma plain_base (page : str) :
  startswith "/" page = false ->
  (forall seg, In seg (split "/" page) -> startswith "." seg = false) ->
  base_path_of page
  = lit "/" ++ str_join "/" (os_path.components root_dir ++ os_path.components page)
  /\ lexical_checks page = true.
Proof.
  intros Hrel Hseg.
  destruct root_dir_form as [Hroot Hrc].
  pose proof (rstrip_relative page Hrel) as Hrel'.
  destruct (joined_segments _ Hrel') as [Hsplit Hnd].
  assert (Hseg' : forall seg, In seg (split "/" (rstrip "/" page)) ->
                              startswith "." seg = false)
    by (intros seg H; apply Hseg, segments_rstrip, H).
  assert (Hnodd : Forall (fun c => str_eqb c ".." = false)
                    (split "/" (os_path.join root_dir (rstrip "/" page)))).
  { rewrite Hsplit. apply Forall_app. split.
    - constructor; [reflexivity|]. eapply Forall_impl; [|exact Hrc].
      intros w [_ Hw]. apply str_eqb_neq. exact Hw.
    - apply Forall_forall. intros seg Hin. apply str_eqb_neq. intros ->.
      specialize (Hseg' _ Hin). discriminate. }
  assert (Hcomp : os_path.components (os_path.join root_dir (rstrip "/" page))
                  = os_path.components root_dir ++ os_path.components page).
  { unfold os_path.components at 1. rewrite Hsplit.
    transitivity (filter (fun c => negb (is_empty c) && negb (str_eqb c "."))
                    (os_path.components root_dir ++ split "/" (rstrip "/" page)));
      [reflexivity|].
    rewrite filter_app, filter_keep_clean.
    - f_equal. exact (components_rstrip page).
    - eapply Forall_impl; [|exact Hrc]. intros w [Hw _]. exact Hw. }
  assert (Hbase : base_path_of page
                  = lit "/" ++ str_join "/" (os_path.components root_dir
                                             ++ os_path.components page)).
  { unfold base_path_of. rewrite normpath_plain; [rewrite Hcomp; reflexivity | | | ].
    - apply join_abs, root_dir_abs, realpath_abs.
    - exact Hnd.
    - exact Hnodd. }
  assert (Hclean : Forall clean_comp (os_path.components root_dir
                                      ++ os_path.components page)).
  { apply Forall_app. split; [|apply components_clean].
    eapply Forall_impl; [|exact Hrc]. intros w [Hw _]. exact Hw. }
  assert (Hcp : os_path.commonpath [base_path_of page; root_dir] = Ok root_dir).
  { apply (commonpath_of_extension _ _ (os_path.components root_dir)
             (os_path.components page)).
    - apply base_path_abs, realpath_abs.
    - exact Hroot.
    - reflexivity.
    - rewrite Hbase. apply components_join. exact Hclean. }
  assert (Hlex : lexical_checks page = true).
  { unfold lexical_checks. rewrite Hcp, str_eqb_refl.
    assert (existsb (str_eqb "..") (split "/" page) = false) as ->.
    { destruct (existsb (str_eqb "..") (split "/" page)) eqn:E; [|reflexivity].
      apply existsb_exists in E as [seg [Hin E]].
      rewrite str_eqb_sym in E. apply str_eqb_eq in E. subst seg.
      specialize (Hseg _ Hin). discriminate. }
    assert (existsb (startswith ".") (split "/" (rstrip "/" page)) = false) as ->.
    { destruct (existsb (startswith ".") (split "/" (rstrip "/" page))) eqn:E;
        [|reflexivity].
      apply existsb_exists in E as [seg [Hin E]].
      rewrite (Hseg' _ Hin) in E. discriminate. }
    reflexivity. }
  split; [exact Hbase | exact Hlex].
Qed.

(** X8: plain relative paths are never turned down by the checks made before
    the candidates: for a logical path that does not begin with a slash
    and has no segment starting with a dot, the base path is the root
    followed by the non-empty segments of the path, and the candidates
    are tried. *)
Theorem plain_paths_reach_candidates (page : str) :
  startswith "/" page = false ->
  (forall seg, In seg (split "/" page) -> startswith "." seg = false) ->
  base_path_of page
  = lit "/" ++ str_join "/" (os_path.components root_dir ++ os_path.components page)
  /\ lexical_checks page = true
  /\ load_doc_page page = try_paths root_dir (candidates page).
Proof.
  intros Hrel Hseg. destruct (plain_base page Hrel Hseg) as [Hbase Hlex].
  split; [exact Hbase|]. split; [exact Hlex|].
  apply load_doc_page_lexical. exact Hlex.
Qed.

End PlainPaths.

(** ** Runs of separators *)

Lemma fields_not_nil (f : ascii -> bool) (s : str) : fields f s <> [].
Proof.
  induction s as [|a s IH]; cbn [fields]; [discriminate|].
  destruct (f a); [discriminate|].
  destruct (fields f s); [contradiction | discriminate].
Qed.

Lemma fields_cons_other (f : ascii -> bool) (a : ascii) (s : str) :
  f a = false ->
  exists w ws, fields f s = w :: ws /\ fields f (a :: s) = (a :: w) :: ws.
Proof.
  intros E. cbn [fields]. rewrite E.
  destruct (fields f s) as [|w ws] eqn:Es.
  - exfalso. exact (fields_not_nil f s Es).
  - exists w, ws. split; reflexivity.
Qed.

Lemma fields_is_split (s : str) : fields is_slash s = split "/" s.
Proof.
  induction s as [|a s IH]; [reflexivity|].
  cbn [fields split]. unfold is_slash at 1. rewrite IH. reflexivity.
Qed.

Lemma words_cons_sep (f : ascii -> bool) (a : ascii) (s : str) :
  f a = true -> words f (a :: s) = words f s.
Proof. intros E. unfold words. cbn [fields]. rewrite E. reflexivity. Qed.

Lemma words_cons_other (f : ascii -> bool) (a : ascii) (s : str) :
  f a = false ->
  exists w ws, fields f s = w :: ws
               /\ words f (a :: s) = (a :: w) :: filter (fun w => negb (is_empty w)) ws.
Proof.
  intros E. destruct (fields_cons_other f a s E) as [w [ws [H1 H2]]].
  exists w, ws. split; [exact H1|]. unfold words. rewrite H2. reflexivity.
Qed.

Lemma words_lstrip (f : ascii -> bool) (s : str) :
  words f (lstrip_by f s) = words f s.
Proof.
  induction s as [|a s IH]; [reflexivity|]. cbn [lstrip_by].
  destruct (f a) eqn:E; [|reflexivity].
  rewrite IH. symmetry. apply words_cons_sep. exact E.
Qed.

Lemma fields_rstrip (f : ascii -> bool) (s : str) :
  exists k, fields f s = fields f (rstrip_by f s) ++ repeat [] k.
Proof.
  induction s as [|a s [k IH]].
  - exists 0. reflexivity.
  - rewrite rstrip_by_cons. destruct (f a) eqn:E; cbn [andb].
    + destruct (rstrip_by f s) as [|b r] eqn:Er; cbn [is_empty].
      * exists (S k). cbn [fields]. rewrite E, IH. reflexivity.
      * exists k. cbn [fields]. rewrite E, IH. cbn [fields]. reflexivity.
    + destruct (fields_cons_other f a s E) as [w [ws [H1 H2]]].
      destruct (fields_cons_other f a (rstrip_by f s) E) as [w' [ws' [H3 H4]]].
      exists k. rewrite H2, H4. rewrite H1, H3 in IH.
      injection IH as -> ->. reflexivity.
Qed.

Lemma words_rstrip (f : ascii -> bool) (s : str) :
  words f (rstrip_by f s) = words f s.
Proof.
  unfold words. destruct (fields_rstrip f s) as [k ->].
  rewrite filter_app.
  assert (E : filter (fun w : str => negb (is_empty w)) (repeat (@nil ascii) k) = []).
  { induction k as [|k IH]; [reflexivity | exact IH]. }
  rewrite E, app_nil_r. reflexivity.
Qed.

Lemma words_strip (f : ascii -> bool) (s : str) :
  words f (strip_by f s) = words f s.
Proof. unfold strip_by. rewrite words_rstrip. apply words_lstrip. Qed.

Lemma rstrip_by_tail (f : ascii -> bool) (a : ascii) (s : str) :
  rstrip_by f (a :: s) = a :: s ->
  rstrip_by f s = s /\ (f a = true -> s <> []).
Proof.
  rewrite rstrip_by_cons.
  destruct (f a && is_empty (rstrip_by f s)) eqn:E; [discriminate|].
  intros H. injection H as H. split; [exact H|].
  intros Ha ->. rewrite Ha in E. discriminate.
Qed.

Lemma words_not_nil (f : ascii -> bool) (s : str) :
  rstrip_by f s = s -> s <> [] -> words f s <> [].
Proof.
  induction s as [|a s IH]; intros Hr Hne; [contradiction|].
  destruct (rstrip_by_tail f a s Hr) as [Hr' Hs].
  destruct (f a) eqn:E.
  - rewrite (words_cons_sep f a s E). apply IH; [exact Hr' | apply Hs; reflexivity].
  - destruct (words_cons_other f a s E) as [w [ws [_ ->]]]. discriminate.
Qed.

Lemma str_join_cons (sep w : str) (ws : list str) :
  ws <> [] -> str_join sep (w :: ws) = w ++ sep ++ str_join sep ws.
Proof. destruct ws; [contradiction | reflexivity]. Qed.

(** On a string without trailing separators, replacing the runs of
    separators gives the words joined by the replacement, after the
    replacement itself when the string starts inside a new run. *)
Lemma sub_runs_words (f : ascii -> bool) (sp : str) (s : str) :
  rstrip_by f s = s ->
  sub_runs f sp true s = str_join sp (words f s)
  /\ sub_runs f sp false s
     = (if negb (is_empty s) && f (hd "000"%char s) then sp else [])
       ++ str_join sp (words f s).
Proof.
  induction s as [|a s IH]; intros Hr; [split; reflexivity|].
  destruct (rstrip_by_tail f a s Hr) as [Hr' Hs].
  destruct (IH Hr') as [IHt IHf]. cbn [hd is_empty negb sub_runs andb].
  destruct (f a) eqn:E.
  - rewrite (words_cons_sep f a s E), IHt. split; reflexivity.
  - rewrite IHf. cbn [app].
    destruct (words_cons_other f a s E) as [w [ws [Hfs Hw]]]. rewrite Hw.
    assert (Hgoal : a :: (if negb (is_empty s) && f (hd "000"%char s) then sp else [])
                        ++ str_join sp (words f s)
                    = str_join sp ((a :: w) :: filter (fun w => negb (is_empty w)) ws)).
    { destruct s as [|b s].
      - cbn [fields] in Hfs. injection Hfs as <- <-. reflexivity.
      - cbn [hd is_empty negb andb].
        destruct (f b) eqn:Eb.
        + cbn [fields] in Hfs. rewrite Eb in Hfs. injection Hfs as <- <-.
          rewrite (words_cons_sep f b s Eb).
          assert (Hne : words f s <> []).
          { rewrite <- (words_cons_sep f b s Eb).
            apply words_not_nil; [exact Hr' | discriminate]. }
          unfold words in *. rewrite str_join_cons by exact Hne. reflexivity.
        + unfold words. rewrite Hfs. cbn [filter].
          assert (is_empty w = false) as ->.
          { destruct (fields_cons_other f b s Eb) as [w0 [ws0 [_ H2]]].
            rewrite H2 in Hfs. injection Hfs as <- _. reflexivity. }
          cbn [negb app].
          destruct (filter (fun w0 => negb (is_empty w0)) ws); reflexivity. }
    split; exact Hgoal.
Qed.

Lemma rstrip_by_idem (f : ascii -> bool) (s : str) :
  rstrip_by f (rstrip_by f s) = rstrip_by f s.
Proof.
  induction s as [|a s IH]; [reflexivity|].
  rewrite rstrip_by_cons.
  destruct (f a && is_empty (rstrip_by f s)) eqn:E; [reflexivity|].
  rewrite rstrip_by_cons, IH, E. reflexivity.
Qed.

Lemma rstrip_by_head (f : ascii -> bool) (s : str) :
  (s = [] \/ f (hd "000"%char s) = false) ->
  rstrip_by f s = [] \/ f (hd "000"%char (rstrip_by f s)) = false.
Proof.
  destruct s as [|a s]; [left; reflexivity|]. intros [H | H]; [discriminate|].
  cbn [hd] in H. rewrite rstrip_by_cons, H. cbn [andb hd]. right. exact H.
Qed.

(** Stripping the separators at both ends and replacing every run of
    separators by [sp] gives the words joined by [sp]. *)
Lemma sub_strip_words (f : ascii -> bool) (sp s : str) :
  sub_runs f sp false (strip_by f s) = str_join sp (words f s).
Proof.
  rewrite <- (words_strip f s). unfold strip_by.
  destruct (sub_runs_words f sp (rstrip_by f (lstrip_by f s)) (rstrip_by_idem f _))
    as [_ H].
  rewrite H.
  destruct (rstrip_by_head f (lstrip_by f s)) as [-> | ->].
  - destruct (lstrip_by_head f s) as [-> | E]; [left; reflexivity | right; exact E].
  - reflexivity.
  - rewrite andb_false_r. reflexivity.
Qed.

(** ** The title and the route *)

Lemma words_clean (f : ascii -> bool) (s : str) :
  Forall (fun w => w <> [] /\ forallb (fun a => negb (f a)) w = true) (words f s).
Proof.
  unfold words. apply Forall_forall. intros w Hw.
  apply filter_In in Hw as [Hin Hne]. split; [intros ->; discriminate|].
  clear Hne. revert w Hin. induction s as [|a s IH]; intros w Hin.
  - destruct Hin as [<- | []]. reflexivity.
  - cbn [fields] in Hin. destruct (f a) eqn:E.
    + destruct Hin as [<- | Hin]; [reflexivity | apply IH; exact Hin].
    + destruct (fields f s) as [|w0 ws] eqn:Es;
        [exfalso; exact (fields_not_nil f s Es)|].
      destruct Hin as [<- | Hin].
      * cbn [forallb]. rewrite E. cbn [negb andb]. apply IH. left. reflexivity.
      * apply IH. right. exact Hin.
Qed.

(** X11: the title of a page: the words of the [title] entry of the metadata
    joined by spaces when there is one; else, for a page name that is not
    empty, [str.title()] of the words of the name (its maximal runs of
    characters other than [/] and [-]) joined by single spaces; else
    [index]. *)
Theorem get_page_title_words {T : PyUnicode} (page_name : str) (metadata : Metadata) :
  get_page_title page_name metadata =
  match meta_get metadata "title" with
  | Some ws => str_join " " ws
  | None =>
      if is_empty page_name then lit "index"
      else str_title (str_join " " (words is_title_sep page_name))
  end.
Proof.
  unfold get_page_title. destruct (meta_get metadata "title"); [reflexivity|].
  destruct (is_empty page_name); [reflexivity|]. cbn [negb].
  rewrite sub_strip_words. reflexivity.
Qed.

(** The location of a redirect: the non-empty segments of the page
    joined by single slashes, between two slashes. *)
Lemma redirect_location_words (page : str) :
  redirect_location page
  = lit "/" ++ str_join "/" (words is_slash page) ++ lit "/".
Proof. unfold redirect_location. rewrite sub_strip_words. reflexivity. Qed.

Lemma contains_str_cons_other (a : ascii) (s : str) :
  a <> "/"%char -> contains_str "//" (a :: s) = contains_str "//" s.
Proof.
  intros H. cbn [contains_str].
  assert (startswith "//" (a :: s) = false) as ->.
  { cbn [lit list_ascii_of_string startswith].
    assert (chr_eqb "/" a = false) as -> by (apply chr_eqb_neq; congruence).
    reflexivity. }
  reflexivity.
Qed.

Lemma contains_str_word (w rest : str) :
  forallb (fun a => negb (is_slash a)) w = true ->
  contains_str "//" (w ++ rest) = contains_str "//" rest.
Proof.
  induction w as [|a w IH]; intros H; [reflexivity|].
  cbn [forallb] in H. apply andb_true_iff in H as [Ha Hw]. cbn [app].
  rewrite contains_str_cons_other; [apply IH; exact Hw|].
  intros ->. discriminate.
Qed.

Lemma word_head (w : str) :
  w <> [] -> forallb (fun a => negb (is_slash a)) w = true ->
  exists a w', w = a :: w' /\ a <> "/"%char.
Proof.
  destruct w as [|a w']; [contradiction|]. intros _ H.
  exists a, w'. split; [reflexivity|]. intros ->. discriminate.
Qed.

(** Words joined by single slashes and followed by a slash are a page in
    canonical form. *)
Lemma joined_words_canonical (ws : list str) :
  ws <> [] ->
  Forall (fun w => w <> [] /\ forallb (fun a => negb (is_slash a)) w = true) ws ->
  needs_redirect (str_join "/" ws ++ lit "/") = false.
Proof.
  intros Hne Hws.
  assert (Hhead : exists a r, str_join "/" ws ++ lit "/" = a :: r /\ a <> "/"%char).
  { destruct ws as [|w ws]; [contradiction|].
    inversion Hws as [|? ? [Hw1 Hw2] _]; subst.
    destruct (word_head w Hw1 Hw2) as [a [w' [-> Ha]]].
    destruct ws; cbn [str_join app]; exists a; eexists; split; try reflexivity; exact Ha. }
  assert (Hno : contains_str "//" (str_join "/" ws ++ lit "/") = false).
  { clear Hhead. induction Hws as [|w ws [Hw1 Hw2] Hws IH]; [contradiction|].
    destruct ws as [|w2 ws].
    - cbn [str_join]. rewrite contains_str_word by exact Hw2. reflexivity.
    - rewrite str_join_cons by discriminate. rewrite <- !app_assoc.
      rewrite contains_str_word by exact Hw2.
      specialize (IH ltac:(discriminate)).
      inversion Hws as [|? ? [Hv1 Hv2] _]; subst.
      destruct (word_head w2 Hv1 Hv2) as [a [w2' [-> Ha]]].
      assert (Hsh : exists r, str_join "/" ((a :: w2') :: ws) ++ lit "/" = a :: r)
        by (destruct ws; cbn [str_join app]; eexists; reflexivity).
      destruct Hsh as [r Hr]. rewrite Hr in IH |- *.
      change (lit "/" ++ a :: r) with ("/"%char :: a :: r).
      cbn [contains_str].
      assert (startswith "//" ("/"%char :: a :: r) = false) as ->.
      { cbn [lit list_ascii_of_string startswith]. rewrite chr_eqb_refl.
        assert (chr_eqb "/" a = false) as -> by (apply chr_eqb_neq; congruence).
        reflexivity. }
      exact IH. }
  unfold needs_redirect. rewrite Hno.
  destruct Hhead as [a [r [E Ha]]].
  assert (startswith "/" (str_join "/" ws ++ lit "/") = false) as ->.
  { rewrite E. cbn [lit list_ascii_of_string startswith].
    assert (chr_eqb "/" a = false) as -> by (apply chr_eqb_neq; congruence).
    reflexivity. }
  assert (endswith "/" (str_join "/" ws ++ lit "/") = true) as ->
    by (apply endswith_iff; eexists; reflexivity).
  cbn [orb negb]. apply andb_false_r.
Qed.

Section Route.
Context {U : Urllib} {F : FileSystem} {M : Markdown} {B : Bleach} {T : PyUnicode}.

(** X12: a page that is not in canonical form is redirected to its non-empty
    segments joined by single slashes, with a slash at each end, and no
    file is opened.  When the page has a non-empty segment, the page of
    that location (the location without its first slash) is in canonical
    form and is not redirected again; a page made of slashes only is sent
    to [//], whose page [/] is redirected again. *)
Theorem serve_redirects_to_canonical (page : str) :
  needs_redirect page = true ->
  let target := str_join "/" (words is_slash page) ++ lit "/" in
  serve page = ([], Ok (Redirect (lit "/" ++ target)))
  /\ (words is_slash page <> [] -> needs_redirect target = false)
  /\ (words is_slash page = [] ->
      target = lit "/" /\ needs_redirect target = true).
Proof.
  intros H. cbv zeta. unfold serve. rewrite H, redirect_location_words.
  split; [reflexivity|]. split.
  - intros Hne. apply joined_words_canonical; [exact Hne | apply words_clean].
  - intros ->. split; reflexivity.
Qed.

End Route.

(** ** From the route to the files *)

Lemma join_split (c : ascii) (s : str) : str_join [c] (split c s) = s.
Proof.
  induction s as [|a s IH]; [reflexivity|]. cbn [split].
  destruct (chr_eqb a c) eqn:E.
  - apply chr_eqb_eq in E. subst a.
    rewrite str_join_cons by apply split_not_nil. rewrite IH. reflexivity.
  - destruct (split c s) as [|w ws] eqn:Es;
      [exfalso; exact (split_not_nil c s Es)|].
    rewrite <- IH. destruct ws; reflexivity.
Qed.

Lemma join_app (sep : str) (l1 l2 : list str) :
  l1 <> [] -> l2 <> [] ->
  str_join sep (l1 ++ l2) = str_join sep l1 ++ sep ++ str_join sep l2.
Proof.
  intros H1 H2. induction l1 as [|w l1 IH]; [contradiction|].
  destruct l1 as [|w' l1].
  - cbn [app]. rewrite str_join_cons by exact H2. reflexivity.
  - change ((w :: w' :: l1) ++ l2) with (w :: ((w' :: l1) ++ l2)).
    rewrite str_join_cons by discriminate.
    rewrite IH by discriminate.
    rewrite (str_join_cons sep w (w' :: l1)) by discriminate.
    rewrite <- !app_assoc. reflexivity.
Qed.

Lemma words_is_slash (page : str) :
  words is_slash page = filter (fun w => negb (is_empty w)) (split "/" page).
Proof. unfold words. rewrite fields_is_split. reflexivity. Qed.

Lemma components_of_words (page : str) :
  os_path.components page
  = filter (fun c => negb (is_empty c) && negb (str_eqb c ".")) (words is_slash page).
Proof.
  rewrite words_is_slash, filter_filter. unfold os_path.components.
  apply filter_ext. intros w. destruct (is_empty w); reflexivity.
Qed.

Lemma words_no_slash (page : str) :
  Forall (fun w => ~ In "/"%char w) (words is_slash page).
Proof.
  rewrite words_is_slash. apply Forall_forall. intros w Hw.
  apply filter_In in Hw as [Hw _].
  pose proof (split_no_sep "/" page) as H. rewrite Forall_forall in H.
  apply H. exact Hw.
Qed.

Lemma split_joined_words (page : str) :
  words is_slash page <> [] ->
  split "/" (str_join "/" (words is_slash page)) = words is_slash page.
Proof.
  intros Hne. apply (split_join "/"%char); [exact Hne | apply words_no_slash].
Qed.

Lemma joined_words_relative (page : str) :
  startswith "/" (str_join "/" (words is_slash page)) = false.
Proof.
  pose proof (words_clean is_slash page) as H.
  destruct (words is_slash page) as [|w ws]; [reflexivity|].
  inversion H as [|? ? [H1 H2] _]; subst.
  destruct (word_head w H1 H2) as [a [w' [-> Ha]]].
  destruct (join_head (a :: w') ws a w' eq_refl) as [r ->].
  cbn [lit list_ascii_of_string startswith].
  assert (chr_eqb "/" a = false) as -> by (apply chr_eqb_neq; congruence).
  reflexivity.
Qed.

Lemma components_joined_words (page : str) :
  os_path.components (str_join "/" (words is_slash page)) = os_path.components page.
Proof.
  rewrite (components_of_words page).
  destruct (words is_slash page) as [|w ws] eqn:E; [reflexivity|].
  unfold os_path.components at 1. rewrite <- E, split_joined_words; [reflexivity|].
  rewrite E. discriminate.
Qed.

Lemma segments_joined_words (page seg : str) :
  In seg (split "/" (str_join "/" (words is_slash page))) ->
  seg = [] \/ In seg (split "/" page).
Proof.
  destruct (words is_slash page) as [|w ws] eqn:E.
  - intros [<- | []]. left. reflexivity.
  - rewrite <- E, split_joined_words by (rewrite E; discriminate).
    rewrite words_is_slash. intros H. apply filter_In in H as [H _].
    right. exact H.
Qed.

Section RouteToFiles.
Context {U : Urllib} {F : FileSystem} {M : Markdown} {B : Bleach}.
Hypothesis realpath_abs : realpath_absolute F.
Hypothesis single_slash : startswith "//" MARKDOWN_DIR = false.

(** X13: for a relative logical path, the page a redirect leads to resolves
    as the path itself would: empty segments do not matter. *)
Theorem redirect_keeps_document (page : str) :
  startswith "/" page = false ->
  load_doc_page (str_join "/" (words is_slash page) ++ lit "/") = load_doc_page page.
Proof.
  intros Hrel.
  set (q := str_join "/" (words is_slash page)).
  rewrite (load_doc_page_slash q).
  destruct (existsb (startswith ".") (split "/" page)) eqn:Hhid.
  - apply existsb_exists in Hhid as [seg [Hin Hdot]].
    assert (Hw : In seg (words is_slash page)).
    { rewrite words_is_slash. apply filter_In. split; [exact Hin|].
      destruct seg; [discriminate | reflexivity]. }
    assert (Hq : In seg (split "/" q)).
    { unfold q. rewrite split_joined_words; [exact Hw|].
      intros E. rewrite E in Hw. destruct Hw. }
    rewrite (rejected_not_found realpath_abs q), (rejected_not_found realpath_abs page);
      [reflexivity | |]; right; left; exists seg; split; assumption.
  - assert (Hseg : forall seg, In seg (split "/" page) -> startswith "." seg = false).
    { intros seg Hin. destruct (startswith "." seg) eqn:E; [|reflexivity].
      assert (existsb (startswith ".") (split "/" page) = true)
        by (apply existsb_exists; exists seg; split; assumption).
      congruence. }
    assert (Hsegq : forall seg, In seg (split "/" q) -> startswith "." seg = false).
    { intros seg Hin. destruct (segments_joined_words page seg Hin) as [-> | H];
        [reflexivity | apply Hseg; exact H]. }
    destruct (plain_base realpath_abs single_slash page Hrel Hseg) as [Hb Hl].
    destruct (plain_base realpath_abs single_slash q
                (joined_words_relative page) Hsegq) as [Hbq Hlq].
    rewrite (load_doc_page_lexical _ Hl), (load_doc_page_lexical _ Hlq). unfold candidates. rewrite Hb, Hbq.
    unfold q. rewrite components_joined_words. reflexivity.
Qed.

Lemma join_root (p : str) :
  startswith "/" p = false ->
  os_path.join root_dir p
  = lit "/" ++ str_join "/" (os_path.components root_dir ++ split "/" p).
Proof.
  intros Hp. destruct (root_dir_form realpath_abs single_slash) as [Hroot Hrc].
  assert (Hjs : str_join "/" (split "/" p) = p) by exact (join_split "/"%char p).
  unfold os_path.join. rewrite Hp.
  destruct (os_path.components root_dir) as [|w ws] eqn:Erc.
  - assert (Hr : root_dir = lit "/") by (rewrite Hroot; reflexivity).
    rewrite Hr. cbn [app]. rewrite Hjs. reflexivity.
  - assert (Hne : w :: ws <> []) by discriminate.
    assert (He : endswith "/" root_dir = false)
      by (rewrite Hroot; apply (slash_join_no_trailing _ Hrc Hne)).
    assert (Hi : is_empty root_dir = false) by (rewrite Hroot; reflexivity).
    rewrite He, Hi. cbn [orb].
    rewrite (join_app "/" (w :: ws) (split "/" p) Hne (split_not_nil _ _)).
    rewrite Hjs. rewrite Hroot at 1.
    rewrite <- !app_assoc. reflexivity.
Qed.

End RouteToFiles.

Lemma split_first_empty (c : ascii) (s : str) (ws : list str) :
  split c s = [] :: ws -> s = [] \/ exists s', s = c :: s'.
Proof.
  destruct s as [|a s]; [left; reflexivity|]. cbn [split].
  destruct (chr_eqb a c) eqn:E.
  - apply chr_eqb_eq in E. subst a. right. exists s. reflexivity.
  - destruct (split c s); discriminate.
Qed.

Lemma segments_nonempty (q : str) :
  contains_str "//" (q ++ lit "/") = false ->
  Forall (fun w => w <> []) (tl (split "/" q)).
Proof.
  induction q as [|a q IH]; [constructor|].
  cbn [app contains_str]. intros H. apply orb_false_iff in H as [H1 H2].
  specialize (IH H2). cbn [split].
  destruct (chr_eqb a "/") eqn:E.
  - apply chr_eqb_eq in E. subst a. cbn [tl].
    destruct (split "/" q) as [|w ws] eqn:Es;
      [exfalso; exact (split_not_nil _ _ Es)|].
    cbn [tl] in IH. constructor; [|exact IH].
    intros ->. destruct (split_first_empty _ _ _ Es) as [-> | [s' ->]]; discriminate.
  - destruct (split "/" q) as [|w ws] eqn:Es;
      [exfalso; exact (split_not_nil _ _ Es)|].
    exact IH.
Qed.

Section CanonicalPages.
Context {U : Urllib} {F : FileSystem} {M : Markdown} {B : Bleach}.
Hypothesis realpath_abs : realpath_absolute F.
Hypothesis single_slash : startswith "//" MARKDOWN_DIR = false.

(** X14: for a page in canonical form, [q/], without a segment that starts
    with a dot, the files tried are [q.md] and [q/index.md] under the
    root, in this order: normalisation changes nothing. *)
Theorem canonical_page_files (q : str) :
  q <> [] -> needs_redirect (q ++ lit "/") = false ->
  (forall seg, In seg (split "/" q) -> startswith "." seg = false) ->
  load_doc_page (q ++ lit "/")
  = try_paths root_dir
      [os_path.join root_dir q ++ lit ".md";
       os_path.join (os_path.join root_dir q) "index.md"].
Proof.
  intros Hne Hcanon Hseg. unfold needs_redirect in Hcanon.
  apply orb_false_iff in Hcanon as [Hcanon _].
  apply orb_false_iff in Hcanon as [Hdd Hsl].
  assert (Hrel : startswith "/" q = false).
  { destruct q as [|a q]; [contradiction|]. exact Hsl. }
  rewrite (load_doc_page_slash q).
  destruct (plain_base realpath_abs single_slash q Hrel Hseg) as [Hb Hlex].
  pose proof (load_doc_page_lexical _ Hlex) as Hl.
  assert (Hall : Forall (fun w => w <> []) (split "/" q)).
  { pose proof (segments_nonempty q Hdd) as Htl.
    destruct (split "/" q) as [|w ws] eqn:Es;
      [exfalso; exact (split_not_nil _ _ Es)|].
    constructor; [|exact Htl]. intros ->.
    destruct (split_first_empty _ _ _ Es) as [-> | [s' ->]];
      [contradiction | discriminate]. }
  assert (Hcomp : os_path.components q = split "/" q).
  { unfold os_path.components. apply filter_id. apply forallb_forall.
    intros w Hw. rewrite Forall_forall in Hall.
    assert (is_empty w = false) as ->
      by (destruct w; [exfalso; exact (Hall _ Hw eq_refl) | reflexivity]).
    assert (str_eqb w "." = false) as ->.
    { apply str_eqb_neq. intros ->. specialize (Hseg _ Hw). discriminate. }
    reflexivity. }
  rewrite Hl. unfold candidates. rewrite Hb, Hcomp.
  rewrite <- (join_root realpath_abs single_slash q Hrel). reflexivity.
Qed.

End CanonicalPages.

(** ** Passing twice over a tree *)

Lemma dict_set_idem (d : list (str * str)) (key value : str) :
  dict_set (dict_set d key value) key value = dict_set d key value.
Proof.
  induction d as [|[k v] d IH]; cbn [dict_set].
  - rewrite str_eqb_refl. reflexivity.
  - destruct (str_eqb k key) eqn:E; cbn [dict_set]; rewrite E; [reflexivity|].
    rewrite IH. reflexivity.
Qed.

Section TwoPasses.
Context {U : Urllib}.
Import urllib_parse.

(** A settled internal link is rewritten to a link that a second pass
    leaves alone. *)
Lemma settled_link_twice (href : str) (parts : SplitResult) (stem : str) :
  urlsplit href = Ok parts -> netloc parts = [] ->
  startswith "//" (path parts) = false ->
  rewrite_path (path parts) = stem ++ lit "/" ->
  endswith ".md" stem = false -> endswith "/" stem = false ->
  exists once, rewrite_href href = Ok (Some once)
               /\ rewrite_href once = Ok (Some once).
Proof.
  intros Hsplit Hnet Hdd Hstem Hmd Hsl.
  destruct (rewrite_path_stem _ _ Hstem) as [x Ex].
  assert (Hre := read_back href parts Hsplit Hnet).
  rewrite Hstem in Hre.
  specialize (Hre (settled_not_double_slash (path parts) stem x Ex Hdd Hsl)).
  set (sch := scheme parts) in *. set (q := query parts) in *.
  set (frag := fragment parts) in *.
  exists (urlunsplit (mkSplitResult sch (lit "") (stem ++ lit "/") q frag)). split.
  - unfold rewrite_href. rewrite Hsplit. cbn [bind].
    rewrite Hnet. cbn [is_empty]. rewrite Hstem. reflexivity.
  - unfold rewrite_href. rewrite Hre.
    cbn [bind netloc is_empty scheme path query fragment].
    assert (Hfix : rewrite_path (written_path sch (stem ++ lit "/"))
                   = written_path sch (stem ++ lit "/")).
    { destruct (written_path_cases sch (stem ++ lit "/")) as [-> | [-> Hns]].
      - apply rewrite_path_fixed; assumption.
      - change ("/"%char :: stem ++ lit "/") with (("/"%char :: stem) ++ lit "/").
        destruct stem as [|a stem]; [discriminate|].
        apply rewrite_path_fixed; apply endswith_cons_false; try assumption;
          discriminate. }
    rewrite Hfix, written_path_stable; [reflexivity|].
    destruct stem; discriminate.
Qed.

(** X4: the pass is idempotent on a tree whose links are all settled: the
    first pass returns a tree that a second pass returns unchanged. *)
Theorem run_idempotent_on_settled (root : Element) :
  links_settled root ->
  exists once, run root = Ok once /\ run once = Ok once.
Proof.
  unfold run. induction root as [tg at_ tx tl cs IH] using Element_ind_all.
  intros H. inversion H as [? ? ? ? ? Hkids Hhref]; subst.
  assert (Hcs : exists cs1, handle_children cs = Ok cs1
                            /\ handle_children cs1 = Ok cs1).
  { clear H Hhref. induction cs as [|c cs IHcs]; [exists []; split; reflexivity|].
    inversion IH as [|? ? Hc0 Hl0]; subst.
    inversion Hkids as [|? ? Hc1 Hl1]; subst.
    destruct (Hc0 Hc1) as [c1 [Ha Hb]]. destruct (IHcs Hl0 Hl1) as [cs1 [Hc Hd]].
    exists (c1 :: cs1). rewrite !handle_children_cons, Ha, Hb, Hc, Hd.
    split; reflexivity. }
  destruct Hcs as [cs1 [Hc1 Hc2]].
  rewrite handle_element_eq, Hc1. cbn [bind].
  destruct (str_eqb tg "a") eqn:Etg.
  2:{ eexists. split; [reflexivity|].
      rewrite handle_element_eq, Hc2, Etg. reflexivity. }
  destruct (dict_get at_ "href") as [href|] eqn:Hget.
  2:{ eexists. split; [reflexivity|].
      rewrite handle_element_eq, Hc2, Etg. cbn [bind]. rewrite Hget. reflexivity. }
  pose proof Etg as Etg'. apply str_eqb_eq in Etg'.
  destruct (Hhref Etg' href eq_refl) as [parts [Hp [Hn | [Hn [Hdd [stem [Hs [Hmd Hsl]]]]]]]].
  - assert (Hr : rewrite_href href = Ok None).
    { unfold rewrite_href. rewrite Hp. cbn [bind].
      destruct (netloc parts); [contradiction | reflexivity]. }
    rewrite Hr. cbn [bind]. eexists. split; [reflexivity|].
    rewrite handle_element_eq, Hc2, Etg. cbn [bind]. rewrite Hget, Hr. reflexivity.
  - destruct (settled_link_twice href parts stem Hp Hn Hdd Hs Hmd Hsl)
      as [once [H1 H2]].
    rewrite H1. cbn [bind]. eexists. split; [reflexivity|].
    rewrite handle_element_eq, Hc2, Etg. cbn [bind].
    rewrite dict_get_set, H2. cbn [bind]. rewrite dict_set_idem. reflexivity.
Qed.

End TwoPasses.

(** ** Reading a rewritten anchor *)

Section ReadingBack.
Context {U : Urllib}.
Import urllib_parse.

(** X5: after the pass, the [href] of an anchor that held an internal link
    parses again with the scheme, the empty authority, the query and the
    fragment of the old link, provided the new path does not begin with
    two slashes; its path is the new path, unless the scheme is one of
    [uses_netloc] and the new path is relative: then a slash is put in
    front. *)
Theorem rewritten_anchor_reads_back
    (e : Element) (cs' : list Element) (href : str) (parts : SplitResult) :
  tag e = lit "a" -> get e "href" = Some href ->
  urlsplit href = Ok parts -> netloc parts = [] ->
  startswith "//" (rewrite_path (path parts)) = false ->
  handle_children (children e) = Ok cs' ->
  exists e' new,
    handle_element e = Ok e' /\ get e' "href" = Some new
    /\ urlsplit new
       = Ok (mkSplitResult (scheme parts) (lit "")
               (written_path (scheme parts) (rewrite_path (path parts)))
               (query parts) (fragment parts))
    /\ (scheme parts = []
        \/ existsb (str_eqb (scheme parts)) uses_netloc = false
        \/ startswith "/" (rewrite_path (path parts)) = true ->
        written_path (scheme parts) (rewrite_path (path parts))
        = rewrite_path (path parts)).
Proof.
  intros Htag Hget Hsplit Hnet Hdd Hcs.
  rewrite (handle_anchor e cs' href Htag Hget Hcs).
  unfold rewrite_href. rewrite Hsplit. cbn [bind]. rewrite Hnet. cbn [is_empty].
  destruct e as [tg at_ tx tl cs]. eexists. eexists.
  split; [reflexivity|]. split; [unfold get; cbn [attrib]; apply dict_get_set|].
  split; [exact (read_back href parts Hsplit Hnet Hdd)|].
  intros H. unfold written_path, netloc_form, slashed.
  destruct H as [H | [H | H]]; rewrite H.
  - reflexivity.
  - rewrite andb_false_r. reflexivity.
  - cbn [negb]. rewrite andb_false_r.
    destruct (negb (is_empty (scheme parts)) && _ && _); reflexivity.
Qed.

End ReadingBack.

(** ** Exceptions of the resolver *)

Section ResolverRaises.
Context {U : Urllib} {F : FileSystem} {M : Markdown} {B : Bleach}.
Hypothesis realpath_abs : realpath_absolute F.

(** X9: the checks of [load_doc_page] never raise: when it raises, one file
    had passed all the checks and was given to [open], and the exception
    is that of reading it or that of rendering its text. *)
Theorem load_doc_page_raises_after_checks
    (page : str) (opened : list str) (e : exn) :
  load_doc_page page = (opened, Raise e) ->
  exists cand,
    In cand (candidates page) /\ passes_checks cand = true
    /\ opened = [fs_realpath cand]
    /\ (fs_open_read (fs_realpath cand) = Raise e
        \/ exists text,
             fs_open_read (fs_realpath cand) = Ok text
             /\ render text = Raise e).
Proof.
  rewrite load_doc_page_steps.
  destruct (existsb (str_eqb "..") (split "/" page)); [discriminate|].
  destruct (commonpath_root_ok realpath_abs (base_path_of page)
              (base_path_abs realpath_abs page)) as [common ->].
  destruct (negb (str_eqb common root_dir)); [discriminate|].
  destruct (existsb (startswith ".") (split "/" (rstrip "/" page))); [discriminate|].
  rewrite (try_paths_find realpath_abs).
  destruct (List.find passes_checks (candidates page)) as [cand|] eqn:Hfind;
    [|discriminate].
  apply List.find_some in Hfind as [Hin Hpass].
  unfold read_and_render. intros H. injection H as <- Hr.
  exists cand. repeat split; try assumption.
  destruct (fs_open_read (fs_realpath cand)) as [text|e0]; cbn [bind] in Hr.
  - right. exists text. split; [reflexivity | exact Hr].
  - left. injection Hr as ->. reflexivity.
Qed.

End ResolverRaises.

(** ** The further properties on the samples *)

Example sample_title :
  @get_page_title sample_unicode "getting-started/install/" []
  = lit "Getting Started Install".
Proof. reflexivity. Qed.

Lemma handle_element_only_hrefs_witness :
  sample_handle_element sample_tree = Ok sample_tree_rewritten
  /\ href_variant sample_tree sample_tree_rewritten
  /\ tag sample_tree_rewritten = tag sample_tree
  /\ map fst (attrib sample_tree_rewritten) = map fst (attrib sample_tree)
  /\ (forall key, key <> lit "href" ->
        get sample_tree_rewritten key = get sample_tree key)
  /\ length (children sample_tree_rewritten) = length (children sample_tree).
Proof.
  split; [reflexivity|].
  apply (@handle_element_only_hrefs strict_urllib sample_tree sample_tree_rewritten).
  reflexivity.
Defined.

(** A link that [urlsplit] refuses, two levels down, stops the walk. *)
Example sample_refused_link :
  sample_handle_element
    (mkElement "div" [] None None
       [anchor "guide.md"; mkElement "p" [] None None [anchor "http://[x"]])
  = Raise (ValueError "Invalid IPv6 URL").
Proof. reflexivity. Qed.

Lemma handle_element_returns_only_if_witness :
  sample_handle_element sample_tree = Ok sample_tree_rewritten
  /\ @hrefs_parse strict_urllib sample_tree.
Proof.
  split; [reflexivity|].
  apply (@handle_element_returns_only_if strict_urllib sample_tree
           sample_tree_rewritten).
  reflexivity.
Defined.

Lemma sample_external_links : @links_external strict_urllib sample_external.
Proof.
  constructor; [|intros H; discriminate].
  constructor; [|constructor].
  constructor; [constructor|].
  intros _ href H. injection H as <-.
  eexists. split; [reflexivity | discriminate].
Qed.

Lemma handle_element_external_identity_witness :
  sample_handle_element sample_external = Ok sample_external.
Proof.
  apply (@handle_element_external_identity strict_urllib sample_external).
  exact sample_external_links.
Defined.

Lemma sample_tree_settled : @links_settled strict_urllib sample_tree.
Proof.
  constructor; [|intros H; discriminate].
  constructor; [|constructor; [|constructor]].
  - constructor; [constructor|].
    intros _ href H. injection H as <-.
    exists (mkSplitResult "" "" "guide.md" "" ""). split; [reflexivity|].
    right. split; [reflexivity|]. split; [reflexivity|].
    exists (lit "guide"). repeat split; reflexivity.
  - constructor; [constructor|]. intros H; discriminate.
Qed.

Lemma run_idempotent_on_settled_witness :
  exists once,
    @run strict_urllib sample_tree = Ok once /\ @run strict_urllib once = Ok once.
Proof.
  apply (@run_idempotent_on_settled strict_urllib sample_tree).
  exact sample_tree_settled.
Defined.

Lemma rewritten_anchor_reads_back_witness :
  exists e' new,
    sample_handle_element (anchor "guide.md?x=1#top") = Ok e'
    /\ get e' "href" = Some new
    /\ sample_urlsplit new = Ok (mkSplitResult "" "" "guide/" "x=1" "top")
    /\ (lit "" = []
        \/ existsb (str_eqb (lit "")) urllib_parse.uses_netloc = false
        \/ startswith "/" "guide/" = true ->
        written_path "" "guide/" = lit "guide/").
Proof.
  apply (@rewritten_anchor_reads_back strict_urllib (anchor "guide.md?x=1#top") []
           "guide.md?x=1#top" (mkSplitResult "" "" "guide.md" "x=1" "top"));
    reflexivity.
Defined.

Lemma load_doc_page_opens_checked_files_witness :
  fst (sample_load_doc_page "gone") = [lit "/srv/docs/gone.md"]
  /\ exists cand,
       In cand (sample_candidates "gone")
       /\ lit "/srv/docs/gone.md" = @fs_realpath sample_fs cand
       /\ @fs_exists sample_fs cand = true
       /\ os_path.basename (lit "/srv/docs/gone.md") <> lit "README.md"
       /\ within sample_root "/srv/docs/gone.md".
Proof.
  apply (@load_doc_page_opens_checked_files strict_urllib sample_fs sample_markdown
           sample_bleach "gone" "/srv/docs/gone.md").
  left. reflexivity.
Defined.

Lemma dotdot_is_hidden_witness :
  existsb (startswith ".") (split "/" (rstrip "/" "a/../b/")) = true.
Proof. apply (dotdot_is_hidden "a/../b/"). reflexivity. Defined.

Lemma sample_single_slash : startswith "//" (@MARKDOWN_DIR sample_fs) = false.
Proof. reflexivity. Qed.

Lemma plain_paths_reach_candidates_witness :
  @base_path_of sample_fs "team//" = lit "/srv/docs/team"
  /\ @lexical_checks sample_fs "team//" = true
  /\ sample_load_doc_page "team//"
     = @try_paths strict_urllib sample_fs sample_markdown sample_bleach
         sample_root (sample_candidates "team//").
Proof.
  apply (@plain_paths_reach_candidates strict_urllib sample_fs sample_markdown
           sample_bleach sample_realpath_absolute sample_single_slash "team//").
  - reflexivity.
  - intros seg [<- | [<- | [<- | []]]]; reflexivity.
Defined.

Lemma load_doc_page_raises_after_checks_witness :
  sample_load_doc_page "gone"
  = ([lit "/srv/docs/gone.md"], Raise (OSError "/srv/docs/gone.md"))
  /\ exists cand,
       In cand (sample_candidates "gone")
       /\ @passes_checks sample_fs cand = true
       /\ [lit "/srv/docs/gone.md"] = [@fs_realpath sample_fs cand]
       /\ (@fs_open_read sample_fs (@fs_realpath sample_fs cand)
           = Raise (OSError "/srv/docs/gone.md")
           \/ exists text,
                @fs_open_read sample_fs (@fs_realpath sample_fs cand) = Ok text
                /\ @render strict_urllib sample_markdown sample_bleach text
                   = Raise (OSError "/srv/docs/gone.md")).
Proof.
  split; [reflexivity|].
  apply (@load_doc_page_raises_after_checks strict_urllib sample_fs sample_markdown
           sample_bleach sample_realpath_absolute "gone").
  reflexivity.
Defined.

Lemma serve_redirects_to_canonical_witness :
  sample_serve "/docs//setup" = ([], Ok (Redirect "/docs/setup/"))
  /\ (words is_slash "/docs//setup" <> [] -> needs_redirect "docs/setup/" = false)
  /\ (words is_slash "/docs//setup" = [] ->
      lit "docs/setup/" = lit "/" /\ needs_redirect "docs/setup/" = true).
Proof.
  apply (@serve_redirects_to_canonical strict_urllib sample_fs sample_markdown
           sample_bleach sample_unicode "/docs//setup").
  reflexivity.
Defined.

Lemma redirect_keeps_document_witness :
  sample_load_doc_page "team/" = sample_load_doc_page "team//".
Proof.
  apply (@redirect_keeps_document strict_urllib sample_fs sample_markdown
           sample_bleach sample_realpath_absolute sample_single_slash "team//").
  reflexivity.
Defined.

Lemma canonical_page_files_witness :
  sample_load_doc_page "team/"
  = @try_paths strict_urllib sample_fs sample_markdown sample_bleach sample_root
      [lit "/srv/docs/team.md"; lit "/srv/docs/team/index.md"].
Proof.
  apply (@canonical_page_files strict_urllib sample_fs sample_markdown sample_bleach
           sample_realpath_absolute sample_single_slash "team").
  - discriminate.
  - reflexivity.
  - intros seg [<- | []]. reflexivity.
Defined.

(** ** Pages that are served *)

Section ServedPages.
Context {U : Urllib} {F : FileSystem} {M : Markdown} {B : Bleach} {T : PyUnicode}.

(** X15: when [serve] answers with a document, the page was in canonical form
    (empty, or without a leading slash or an empty segment and with a
    trailing slash), exactly one file was opened, it is the real path of
    a candidate of the page, lies within the root and is not named
    [README.md]; the title is that of the page and of the metadata of
    this file. *)
Theorem serve_document_from_checked_file
    (page : str) (opened : list str) (title html : str) :
  serve page = (opened, Ok (Document title html)) ->
  needs_redirect page = false
  /\ exists cand text meta,
       In cand (candidates page) /\ fs_exists cand = true
       /\ opened = [fs_realpath cand]
       /\ fs_open_read (fs_realpath cand) = Ok text
       /\ render text = Ok (meta, Some html)
       /\ title = get_page_title page meta
       /\ within root_dir (fs_realpath cand)
       /\ os_path.basename (fs_realpath cand) <> lit "README.md".
Proof.
  unfold serve. destruct (needs_redirect page); [discriminate|].
  destruct (load_doc_page page) as [o r] eqn:Hl.
  destruct r as [[meta [h|]]|e]; cbn [bind]; try discriminate.
  intros H. injection H as <- <- <-. split; [reflexivity|].
  rewrite load_doc_page_steps in Hl.
  destruct (existsb (str_eqb "..") (split "/" page)); [discriminate|].
  destruct (os_path.commonpath [base_path_of page; root_dir]) as [common|e];
    [|discriminate].
  destruct (negb (str_eqb common root_dir)); [discriminate|].
  destruct (existsb (startswith ".") (split "/" (rstrip "/" page))); [discriminate|].
  apply try_paths_rendered in Hl.
  destruct Hl as [cand [text [H1 [H2 [H3 [H4 [H5 [H6 H7]]]]]]]].
  exists cand, text, meta. repeat split; auto.
  apply commonpath_within. exact H6.
Qed.

End ServedPages.

Lemma serve_document_from_checked_file_witness :
  sample_serve "guide/" = ([lit "/srv/docs/guide.md"], Ok (Document "Guide" "Guide"))
  /\ needs_redirect "guide/" = false
  /\ exists cand text meta,
       In cand (sample_candidates "guide/")
       /\ @fs_exists sample_fs cand = true
       /\ [lit "/srv/docs/guide.md"] = [@fs_realpath sample_fs cand]
       /\ @fs_open_read sample_fs (@fs_realpath sample_fs cand) = Ok text
       /\ @render strict_urllib sample_markdown sample_bleach text
          = Ok (meta, Some (lit "Guide"))
       /\ lit "Guide" = @get_page_title sample_unicode "guide/" meta
       /\ within sample_root (@fs_realpath sample_fs cand)
       /\ os_path.basename (@fs_realpath sample_fs cand) <> lit "README.md".
Proof.
  split; [reflexivity|].
  apply (@serve_document_from_checked_file strict_urllib sample_fs sample_markdown
           sample_bleach sample_unicode "guide/").
  reflexivity.
Defined.
